(** * Recurrence engine of the Eisenhower-matrix client

    A shallow embedding of the recurrence code of [src/App.tsx]
    (next-occurrence calculator, validator, description generator and
    form converters), together with the part of the ECMAScript [Date]
    object that this code relies on.  The second half of the development
    covers the code around it: the matrix of tasks and its updates, the
    edit dialog, the order of display, the regrouping after the automatic
    sort, the dates of the prompt, the eligibility counters of
    [src/services/push.ts] and the dismissal of the recap of yesterday.

    The calculator builds a [Date] from a date-only string (which
    ECMAScript reads as UTC midnight), moves it with the *local-time*
    setters and getters ([setDate], [getDay], ...) and prints it with
    [toISOString] (UTC again).  The embedding therefore keeps the host's
    time zone explicit. *)

From Stdlib Require Import ZArith List String Ascii Bool Lia.
From Stdlib Require Import QArith Qround.
From Stdlib Require Import DecimalString.
From Stdlib Require Import Permutation.
Import ListNotations.
Open Scope string_scope.
Open Scope Z_scope.

(** ** Exceptions *)

Inductive JsError : Type :=
| Error (msg : string)
| RangeError
| TypeError.

Inductive Exc (A : Type) : Type :=
| Return (a : A)
| Throw (e : JsError).
Arguments Return {A} a.
Arguments Throw {A} e.

Definition bind {A B : Type} (m : Exc A) (k : A -> Exc B) : Exc B :=
  match m with
  | Return a => k a
  | Throw e => Throw e
  end.

Notation "x <- m ;; k" := (bind m (fun x => k))
  (at level 61, m at next level, right associativity).

Definition returns {A : Type} (m : Exc A) : Prop := exists a, m = Return a.

(** ** ECMAScript time values (ECMA-262, "Date objects")

    A time value is a number of milliseconds since the epoch, or NaN;
    the abstract operations below take the finite ones. *)

Module ES.

Definition msPerDay : Z := 86400000.
Definition msPerHour : Z := 3600000.
Definition msPerMinute : Z := 60000.
Definition msPerSecond : Z := 1000.

Definition Day (t : Z) : Z := t / msPerDay.
Definition TimeWithinDay (t : Z) : Z := t mod msPerDay.

Definition DaysInYear (y : Z) : Z :=
  if negb (y mod 4 =? 0) then 365
  else if negb (y mod 100 =? 0) then 366
  else if negb (y mod 400 =? 0) then 365
  else 366.

Definition DayFromYear (y : Z) : Z :=
  365 * (y - 1970) + (y - 1969) / 4 - (y - 1901) / 100 + (y - 1601) / 400.

Definition TimeFromYear (y : Z) : Z := msPerDay * DayFromYear y.

(** "The largest integer y such that TimeFromYear(y) <= t": an estimate
    from the mean length of the Gregorian year, corrected by at most one. *)
Definition YearFromDay (d : Z) : Z :=
  let y0 := 1970 + (400 * d) / 146097 in
  if DayFromYear (y0 + 1) <=? d then y0 + 1
  else if DayFromYear y0 <=? d then y0
  else y0 - 1.

Definition YearFromTime (t : Z) : Z := YearFromDay (Day t).

Definition InLeapYear (t : Z) : Z :=
  if DaysInYear (YearFromTime t) =? 366 then 1 else 0.

Definition DayWithinYear (t : Z) : Z := Day t - DayFromYear (YearFromTime t).

(** Number of days of the year before month [mn] (0 = January). *)
Definition monthStart (leap mn : Z) : Z :=
  match mn with
  | 0 => 0
  | 1 => 31
  | 2 => 59 + leap
  | 3 => 90 + leap
  | 4 => 120 + leap
  | 5 => 151 + leap
  | 6 => 181 + leap
  | 7 => 212 + leap
  | 8 => 243 + leap
  | 9 => 273 + leap
  | 10 => 304 + leap
  | _ => 334 + leap
  end.

Definition MonthFromTime (t : Z) : Z :=
  let d := DayWithinYear t in
  let l := InLeapYear t in
  if d <? 31 then 0
  else if d <? 59 + l then 1
  else if d <? 90 + l then 2
  else if d <? 120 + l then 3
  else if d <? 151 + l then 4
  else if d <? 181 + l then 5
  else if d <? 212 + l then 6
  else if d <? 243 + l then 7
  else if d <? 273 + l then 8
  else if d <? 304 + l then 9
  else if d <? 334 + l then 10
  else 11.

Definition DateFromTime (t : Z) : Z :=
  DayWithinYear t - monthStart (InLeapYear t) (MonthFromTime t) + 1.

Definition WeekDay (t : Z) : Z := (Day t + 4) mod 7.

Definition HourFromTime (t : Z) : Z := (t / msPerHour) mod 24.
Definition MinFromTime (t : Z) : Z := (t / msPerMinute) mod 60.
Definition SecFromTime (t : Z) : Z := (t / msPerSecond) mod 60.
Definition msFromTime (t : Z) : Z := t mod msPerSecond.

Definition MakeTime (hour min sec ms : Z) : Z :=
  hour * msPerHour + min * msPerMinute + sec * msPerSecond + ms.

(** MakeDay on integral arguments.  Where ECMA-262 gives NaN because an
    argument is too large, the day returned here is far outside the range
    of time values and [TimeClip] gives NaN in its turn. *)
Definition MakeDay (year month date : Z) : Z :=
  let ym := year + month / 12 in
  let mn := month mod 12 in
  let leap := if DaysInYear ym =? 366 then 1 else 0 in
  DayFromYear ym + monthStart leap mn + date - 1.

Definition MakeDate (day time : Z) : Z := day * msPerDay + time.

Definition maxTime : Z := 8640000000000000.

Definition TimeClip (t : Z) : option Z :=
  if Z.abs t <=? maxTime then Some t else None.

End ES.

(** ** The host environment

    [LocalTZA t isUTC] is ECMA-262's local time zone adjustment: the offset
    of local time from UTC, in milliseconds, at the UTC time [t]
    ([isUTC = true]) or at the local time [t] ([isUTC = false]).  [now] is
    the clock read by [new Date()].  [parseOther] stands for what
    [Date.parse] does on a string that is not a date-only ISO string of a
    real calendar day (the other ISO forms and the host's own fall-back
    formats); NaN is [None]. *)

Record Host : Type := {
  LocalTZA : Z -> bool -> Z;
  now : Z;
  parseOther : string -> option Z
}.

(** A zone with a constant offset, such as UTC itself. *)
Definition fixedZone (offset : Z) : Z -> bool -> Z := fun _ _ => offset.

(** A zone that observes daylight saving time once: [dst] between the UTC
    instants [from] and [to], [std] otherwise.  A local time is read with
    the offset in force before a transition when it falls into the gap. *)
Definition dstZone (std dst from to : Z) : Z -> bool -> Z :=
  fun t isUTC =>
    if isUTC then (if (from <=? t) && (t <? to) then dst else std)
    else (if (from + dst <=? t) && (t <? to + dst) then dst else std).

(** Europe/London in 2024: BST from 31 March 01:00 UTC to 27 October
    01:00 UTC. *)
Definition europeLondon2024 : Z -> bool -> Z :=
  dstZone 0 3600000 1711846800000 1729990800000.

(** JavaScript numbers that are integral or NaN ([None]). *)
Definition num : Type := option Z.

Definition nadd (a b : num) : num :=
  match a, b with Some x, Some y => Some (x + y) | _, _ => None end.
Definition nsub (a b : num) : num :=
  match a, b with Some x, Some y => Some (x - y) | _, _ => None end.
Definition Math_min (a b : num) : num :=
  match a, b with Some x, Some y => Some (Z.min x y) | _, _ => None end.

(** ** Strings of digits *)

Definition digitChar (n : Z) : ascii := ascii_of_nat (48 + Z.to_nat n).

Fixpoint padDigits (w : nat) (n : Z) : string :=
  match w with
  | O => ""
  | S w' => padDigits w' (n / 10) ++ String (digitChar (n mod 10)) ""
  end.

Definition digitVal (c : ascii) : option Z :=
  let n := Z.of_nat (nat_of_ascii c) in
  if (48 <=? n) && (n <=? 57) then Some (n - 48) else None.

(** [String(n)] for an integral number. *)
Definition Z_to_string (n : Z) : string := NilZero.string_of_int (Z.to_int n).

(** [s.split(c)[0]]: the part of [s] before the first [c]. *)
Fixpoint splitFirst (c : ascii) (s : string) : string :=
  match s with
  | EmptyString => EmptyString
  | String a s' => if Ascii.eqb a c then EmptyString else String a (splitFirst c s')
  end.

(** ** The Date object: a time value, or NaN for an invalid date *)

Definition Date : Type := option Z.

Section DateObject.
Context (host : Host).

Definition LocalTime (t : Z) : Z := t + LocalTZA host t true.
Definition UTC (t : Z) : Z := t - LocalTZA host t false.

Definition getFullYear (d : Date) : num :=
  option_map (fun t => ES.YearFromTime (LocalTime t)) d.
Definition getMonth (d : Date) : num :=
  option_map (fun t => ES.MonthFromTime (LocalTime t)) d.
Definition getDate (d : Date) : num :=
  option_map (fun t => ES.DateFromTime (LocalTime t)) d.
Definition getDay (d : Date) : num :=
  option_map (fun t => ES.WeekDay (LocalTime t)) d.

Definition setDate (d : Date) (date : num) : Date :=
  match d, date with
  | Some t, Some dt =>
      let t := LocalTime t in
      ES.TimeClip (UTC (ES.MakeDate
        (ES.MakeDay (ES.YearFromTime t) (ES.MonthFromTime t) dt)
        (ES.TimeWithinDay t)))
  | _, _ => None
  end.

Definition setMonth (d : Date) (month : num) : Date :=
  match d, month with
  | Some t, Some m =>
      let t := LocalTime t in
      ES.TimeClip (UTC (ES.MakeDate
        (ES.MakeDay (ES.YearFromTime t) m (ES.DateFromTime t))
        (ES.TimeWithinDay t)))
  | _, _ => None
  end.

(** [setFullYear] starts from +0 when the date is invalid. *)
Definition setFullYear (d : Date) (year : num) : Date :=
  match year with
  | Some y =>
      let t := match d with Some t => LocalTime t | None => 0 end in
      ES.TimeClip (UTC (ES.MakeDate
        (ES.MakeDay y (ES.MonthFromTime t) (ES.DateFromTime t))
        (ES.TimeWithinDay t)))
  | None => None
  end.

(** [new Date(year, month, date)]: local midnight; a year in 0..99 is
    taken in the 1900s. *)
Definition newDateYMD (year month date : num) : Date :=
  match year, month, date with
  | Some y, Some m, Some dt =>
      let yr := if (0 <=? y) && (y <=? 99) then 1900 + y else y in
      ES.TimeClip (UTC (ES.MakeDate (ES.MakeDay yr m dt) (ES.MakeTime 0 0 0 0)))
  | _, _, _ => None
  end.

(** [new Date(s)]: a date-only ISO string [YYYY-MM-DD] of a real calendar
    day is UTC midnight of that day; any other string is left to the host. *)
Definition parseDateOnly (s : string) : option Z :=
  match list_ascii_of_string s with
  | [y1; y2; y3; y4; h1; m1; m2; h2; d1; d2] =>
      if Ascii.eqb h1 "-" && Ascii.eqb h2 "-" then
        match digitVal y1, digitVal y2, digitVal y3, digitVal y4,
              digitVal m1, digitVal m2, digitVal d1, digitVal d2 with
        | Some a, Some b, Some c, Some e, Some f, Some g, Some h, Some i =>
            let y := 1000 * a + 100 * b + 10 * c + e in
            let m := 10 * f + g in
            let dd := 10 * h + i in
            let t := ES.MakeDate (ES.MakeDay y (m - 1) dd) 0 in
            if (1 <=? m) && (m <=? 12) && (1 <=? dd)
               && (ES.MonthFromTime t =? m - 1)
            then Some t else None
        | _, _, _, _, _, _, _, _ => None
        end
      else None
  | _ => None
  end.

Definition newDateString (s : string) : Date :=
  match parseDateOnly s with
  | Some t => Some t
  | None => match parseOther host s with
            | Some t => ES.TimeClip t
            | None => None
            end
  end.

(** [new Date()] *)
Definition newDateNow : Date := ES.TimeClip (now host).

Definition isoYear (y : Z) : string :=
  if (0 <=? y) && (y <=? 9999) then padDigits 4 y
  else (if y <? 0 then "-" else "+") ++ padDigits 6 (Z.abs y).

Definition toISOString (d : Date) : Exc string :=
  match d with
  | None => Throw RangeError
  | Some t =>
      Return (isoYear (ES.YearFromTime t) ++ "-" ++
              padDigits 2 (ES.MonthFromTime t + 1) ++ "-" ++
              padDigits 2 (ES.DateFromTime t) ++ "T" ++
              padDigits 2 (ES.HourFromTime t) ++ ":" ++
              padDigits 2 (ES.MinFromTime t) ++ ":" ++
              padDigits 2 (ES.SecFromTime t) ++ "." ++
              padDigits 3 (ES.msFromTime t) ++ "Z")
  end.

(** [d.toISOString().split('T')[0]] *)
Definition isoDate (d : Date) : Exc string :=
  s <- toISOString d ;; Return (splitFirst "T"%char s).

End DateObject.

(** ** Recurrence values *)

Inductive LegacyRecurrencePattern : Type := daily | weekly | monthly | yearly.

Inductive RecurrenceUnit : Type := day | week | month | year.

(** [DayOfWeek] is 0 (Sunday) .. 6 (Saturday); numbers of a typed
    recurrence value are integral. *)
Record RecurrenceConfig : Type := {
  interval : Z;
  unit_ : RecurrenceUnit;
  weekDays : option (list Z);
  monthDay : option Z
}.

Inductive TaskRecurrence : Type :=
| legacy (p : LegacyRecurrencePattern)
| flexible (config : RecurrenceConfig)
| null.

Definition isLegacyRecurrence (recurrence : TaskRecurrence) : bool :=
  match recurrence with legacy _ => true | _ => false end.

(** ** Array helpers *)

(** [[...a].sort((x, y) => x - y)] *)
Fixpoint insertSorted (x : Z) (l : list Z) : list Z :=
  match l with
  | [] => [x]
  | y :: l' => if x <=? y then x :: l else y :: insertSorted x l'
  end.

Definition sortAscending (l : list Z) : list Z :=
  fold_right insertSorted [] l.

(** ** Next-occurrence calculator *)

Section Calculator.
Context (host : Host).

Definition getDaysInMonth (date : Date) : num :=
  getDate host (newDateYMD host (getFullYear host date)
                                (nadd (getMonth host date) (Some 1)) (Some 0)).

Definition findNextWeekdayOccurrence
    (baseDate : Date) (weekInterval : Z) (weekDays : list Z) : Exc string :=
  let sortedDays := sortAscending weekDays in
  let currentDay := getDay host baseDate in
  let nextDate := baseDate in
  let nextDayThisWeek :=
    match currentDay with
    | Some c => find (fun d => c <? d) sortedDays
    | None => None
    end in
  let nextDate :=
    match nextDayThisWeek, weekInterval =? 1 with
    | Some d, true =>
        let daysToAdd := nsub (Some d) currentDay in
        setDate host nextDate (nadd (getDate host nextDate) daysToAdd)
    | _, _ =>
        let daysUntilNextWeek :=
          nadd (nsub (Some 7) currentDay) (nth_error sortedDays 0) in
        let additionalWeeks := (weekInterval - 1) * 7 in
        setDate host nextDate
          (nadd (nadd (getDate host nextDate) daysUntilNextWeek)
                (Some additionalWeeks))
    end in
  isoDate nextDate.

Definition calculateLegacyNextDeadline
    (baseDate : Date) (recurrence : LegacyRecurrencePattern) : Exc string :=
  let nextDate := baseDate in
  let nextDate :=
    match recurrence with
    | daily => setDate host nextDate (nadd (getDate host nextDate) (Some 1))
    | weekly => setDate host nextDate (nadd (getDate host nextDate) (Some 7))
    | monthly => setMonth host nextDate (nadd (getMonth host nextDate) (Some 1))
    | yearly =>
        setFullYear host nextDate (nadd (getFullYear host nextDate) (Some 1))
    end in
  isoDate nextDate.

Definition calculateFlexibleNextDeadline
    (baseDate : Date) (config : RecurrenceConfig) : Exc string :=
  let nextDate := baseDate in
  match unit_ config with
  | day =>
      isoDate (setDate host nextDate
                 (nadd (getDate host nextDate) (Some (interval config))))
  | week =>
      match weekDays config with
      | Some ((_ :: _) as wd) =>
          findNextWeekdayOccurrence baseDate (interval config) wd
      | _ =>
          isoDate (setDate host nextDate
                     (nadd (getDate host nextDate) (Some (interval config * 7))))
      end
  | month =>
      let nextDate :=
        setMonth host nextDate
          (nadd (getMonth host nextDate) (Some (interval config))) in
      let nextDate :=
        match monthDay config with
        | Some md =>
            let targetDay := Math_min (Some md) (getDaysInMonth nextDate) in
            setDate host nextDate targetDay
        | None => nextDate
        end in
      isoDate nextDate
  | year =>
      isoDate (setFullYear host nextDate
                 (nadd (getFullYear host nextDate) (Some (interval config))))
  end.

(** [currentDeadline ? new Date(currentDeadline) : new Date()], where
    [currentDeadline] is [string | undefined]; the empty string is falsy
    like [undefined]. *)
Definition baseDateOf (currentDeadline : option string) : Date :=
  match currentDeadline with
  | Some EmptyString | None => newDateNow host
  | Some s => newDateString host s
  end.

Definition calculateNextDeadline
    (currentDeadline : option string) (recurrence : TaskRecurrence)
    : Exc string :=
  match recurrence with
  | null => Throw (Error "Recurrence pattern is required")
  | legacy p =>
      let baseDate := baseDateOf currentDeadline in
      calculateLegacyNextDeadline baseDate p
  | flexible config =>
      let baseDate := baseDateOf currentDeadline in
      calculateFlexibleNextDeadline baseDate config
  end.

End Calculator.

(** ** Description generator *)

Definition DAY_NAMES : list string :=
  ["Sun"; "Mon"; "Tue"; "Wed"; "Thu"; "Fri"; "Sat"].

(** [a[i]] for an integral index: [undefined] out of range. *)
Definition index {A : Type} (a : list A) (i : Z) : option A :=
  if i <? 0 then None else nth_error a (Z.to_nat i).

(** [a.join(sep)], where [undefined] elements print as the empty string. *)
Fixpoint join (sep : string) (a : list (option string)) : string :=
  match a with
  | [] => ""
  | [x] => match x with Some s => s | None => "" end
  | x :: a' => match x with Some s => s | None => "" end ++ sep ++ join sep a'
  end.

(** [a.every((d, i) => d === i + 1)], with [i] counted from [from]. *)
Fixpoint everyIsIndexPlusOne (from : Z) (a : list Z) : bool :=
  match a with
  | [] => true
  | d :: a' => (d =? from + 1) && everyIsIndexPlusOne (from + 1) a'
  end.

Definition includes (a : list Z) (x : Z) : bool := existsb (Z.eqb x) a.

Definition getOrdinalSuffix (n : Z) : string :=
  let s := ["th"; "st"; "nd"; "rd"] in
  let v := Z.rem n 100 in
  match index s (Z.rem (v - 20) 10) with
  | Some x => x
  | None => match index s v with
            | Some x => x
            | None => "th"
            end
  end.

Definition getRecurrenceDescription (recurrence : TaskRecurrence) : string :=
  match recurrence with
  | null => ""
  | legacy daily => "Daily"
  | legacy weekly => "Weekly"
  | legacy monthly => "Monthly"
  | legacy yearly => "Yearly"
  | flexible config =>
      let n := interval config in
      let u := unit_ config in
      let simple :=
        if n =? 1 then
          match u with
          | day => "Daily" | week => "Weekly"
          | month => "Monthly" | year => "Yearly"
          end
        else if n =? 2 then
          match u with
          | day => "Every other day" | week => "Biweekly"
          | month => "Bimonthly" | year => "Biannual"
          end
        else
          "Every " ++ Z_to_string n ++ " " ++
          match u with
          | day => "days" | week => "weeks"
          | month => "months" | year => "years"
          end in
      match u, weekDays config with
      | week, Some ((_ :: _) as wd) =>
          let dayList := join ", " (map (index DAY_NAMES) wd) in
          if (Z.of_nat (List.length wd) =? 5) && everyIsIndexPlusOne 0 wd
          then (if n =? 1 then "Weekdays"
                else "Every " ++ Z_to_string n ++ " weeks (weekdays)")
          else if (Z.of_nat (List.length wd) =? 2) && includes wd 0 && includes wd 6
          then (if n =? 1 then "Weekends"
                else "Every " ++ Z_to_string n ++ " weeks (weekends)")
          else (if n =? 1 then "Every " ++ dayList
                else "Every " ++ Z_to_string n ++ " weeks on " ++ dayList)
      | _, _ =>
          match u, monthDay config with
          | month, Some md =>
              if md =? 0 then simple
              else
                let suffix := getOrdinalSuffix md in
                if n =? 1
                then Z_to_string md ++ suffix ++ " of each month"
                else Z_to_string md ++ suffix ++ " every "
                     ++ Z_to_string n ++ " months"
          | _, _ => simple
          end
      end
  end.

(** ** Form state and its converters *)

Inductive Preset : Type :=
| preset_legacy (p : LegacyRecurrencePattern)
| preset_custom.

Record RecurrenceFormState : Type := {
  enabled : bool;
  preset : option Preset;
  form_interval : Z;
  form_unit : RecurrenceUnit;
  form_weekDays : list Z;
  form_monthDay : option Z;
  useSpecificMonthDay : bool
}.

Definition defaultRecurrenceForm : RecurrenceFormState :=
  {| enabled := false; preset := None; form_interval := 1; form_unit := week;
     form_weekDays := []; form_monthDay := None; useSpecificMonthDay := false |}.

Definition isWeek (u : RecurrenceUnit) : bool :=
  match u with week => true | _ => false end.
Definition isMonth (u : RecurrenceUnit) : bool :=
  match u with month => true | _ => false end.

(** Truthiness of [number | null]: neither [null] nor 0. *)
Definition truthy (n : option Z) : bool :=
  match n with Some x => negb (x =? 0) | None => false end.

Definition buildRecurrenceConfig (formState : RecurrenceFormState) : TaskRecurrence :=
  if negb (enabled formState) then null
  else
    match preset formState with
    | Some (preset_legacy p) => legacy p
    | _ =>
        flexible
          {| interval := form_interval formState;
             unit_ := form_unit formState;
             weekDays :=
               if isWeek (form_unit formState)
                  && (0 <? Z.of_nat (List.length (form_weekDays formState)))
               then Some (form_weekDays formState) else None;
             monthDay :=
               if isMonth (form_unit formState)
                  && useSpecificMonthDay formState
                  && truthy (form_monthDay formState)
               then form_monthDay formState else None |}
    end.

Definition parseRecurrenceToFormState (recurrence : TaskRecurrence)
    : RecurrenceFormState :=
  match recurrence with
  | null => defaultRecurrenceForm
  | legacy p =>
      {| enabled := true;
         preset := Some (preset_legacy p);
         form_interval := 1;
         form_unit := match p with
                      | daily => day | weekly => week
                      | monthly => month | yearly => year
                      end;
         form_weekDays := [];
         form_monthDay := None;
         useSpecificMonthDay := false |}
  | flexible config =>
      {| enabled := true;
         preset := Some preset_custom;
         form_interval := interval config;
         form_unit := unit_ config;
         form_weekDays := match weekDays config with Some w => w | None => [] end;
         form_monthDay := monthDay config;
         useSpecificMonthDay :=
           match monthDay config with Some _ => true | None => false end |}
  end.

(** ** Untyped values

    The validator receives [unknown]: in the code, a field of the result of
    [JSON.parse], or [undefined] when the field is missing.  A number is a
    rational (every finite double is one; ordering, [Math.floor],
    [Math.min] and [Math.max] are exact on doubles), an infinity or NaN. *)

Inductive JsNum : Type := NaN | NegInf | Fin (q : Q) | PosInf.

#[warnings="-register-all"]
Inductive JsVal : Type :=
| JUndefined
| JNull
| JBool (b : bool)
| JNumber (n : JsNum)
| JString (s : string)
| JArray (elems : list JsVal)
| JObject (props : list (string * JsVal)).

(** [a <= b] and [a < b] *)
Definition jsLe (a b : JsNum) : bool :=
  match a, b with
  | NaN, _ | _, NaN => false
  | NegInf, _ => true
  | _, PosInf => true
  | Fin x, Fin y => Qle_bool x y
  | _, _ => false
  end.

Definition jsLt (a b : JsNum) : bool :=
  match a, b with
  | NaN, _ | _, NaN => false
  | _, _ => negb (jsLe b a)
  end.

Definition Math_floor (x : JsNum) : JsNum :=
  match x with
  | Fin q => Fin (inject_Z (Qfloor q))
  | _ => x
  end.

Definition Math_minN (a b : JsNum) : JsNum :=
  match a, b with
  | NaN, _ | _, NaN => NaN
  | _, _ => if jsLe a b then a else b
  end.

Definition Math_maxN (a b : JsNum) : JsNum :=
  match a, b with
  | NaN, _ | _, NaN => NaN
  | _, _ => if jsLe a b then b else a
  end.

Definition ofZ (n : Z) : JsNum := Fin (inject_Z n).

Definition typeof (v : JsVal) : string :=
  match v with
  | JUndefined => "undefined"
  | JNull => "object"
  | JBool _ => "boolean"
  | JNumber _ => "number"
  | JString _ => "string"
  | JArray _ => "object"
  | JObject _ => "object"
  end.

Fixpoint lookup (key : string) (props : list (string * JsVal)) : JsVal :=
  match props with
  | [] => JUndefined
  | (k, v) :: props' => if String.eqb k key then v else lookup key props'
  end.

(** [v.key] for a key that is neither an array index nor a built-in
    property name: a TypeError on [null] and [undefined]. *)
Definition get (v : JsVal) (key : string) : Exc JsVal :=
  match v with
  | JUndefined | JNull => Throw TypeError
  | JObject props => Return (lookup key props)
  | _ => Return JUndefined
  end.

Definition includesString (a : list string) (v : JsVal) : bool :=
  match v with
  | JString s => existsb (String.eqb s) a
  | _ => false
  end.

(** The numbers kept by
    [filter(d => typeof d === 'number' && d >= 0 && d <= 6)]: all finite. *)
Definition validDay (d : JsVal) : option Q :=
  match d with
  | JNumber ((Fin q) as x) =>
      if jsLe (ofZ 0) x && jsLe x (ofZ 6) then Some q else None
  | _ => None
  end.

Fixpoint filterValidDays (a : list JsVal) : list Q :=
  match a with
  | [] => []
  | d :: a' => match validDay d with
               | Some q => q :: filterValidDays a'
               | None => filterValidDays a'
               end
  end.

(** [[...new Set(a)]]: first occurrences, in order. *)
Definition setAdd (seen : list Q) (x : Q) : list Q :=
  if existsb (Qeq_bool x) seen then seen else (seen ++ [x])%list.

Definition newSet (a : list Q) : list Q := fold_left setAdd a [].

(** [a.sort((x, y) => x - y)] on finite numbers *)
Fixpoint insertSortedQ (x : Q) (l : list Q) : list Q :=
  match l with
  | [] => [x]
  | y :: l' => if Qle_bool x y then x :: l else y :: insertSortedQ x l'
  end.

Definition sortAscendingQ (l : list Q) : list Q :=
  fold_right insertSortedQ [] l.

(** ** Validator *)

Definition validLegacy : list string := ["daily"; "weekly"; "monthly"; "yearly"].
Definition validUnits : list string := ["day"; "week"; "month"; "year"].

(** [Math.max(1, Math.min(99, Math.floor(interval)))] *)
Definition clampInterval (n : JsNum) : JsNum :=
  Math_maxN (ofZ 1) (Math_minN (ofZ 99) (Math_floor n)).

(** The [weekDays] property that the validator adds to its result, if any. *)
Definition validatedWeekDays (weekDays : JsVal) : list (string * JsVal) :=
  match weekDays with
  | JArray ((_ :: _) as elems) =>
      let validDays := filterValidDays elems in
      match validDays with
      | _ :: _ =>
          [("weekDays",
            JArray (map (fun q => JNumber (Fin q))
                        (sortAscendingQ (newSet validDays))))]
      | [] => []
      end
  | _ => []
  end.

(** The [monthDay] property that the validator adds to its result, if any. *)
Definition validatedMonthDay (monthDay : JsVal) : list (string * JsVal) :=
  match monthDay with
  | JNumber m =>
      if jsLe (ofZ 1) m && jsLe m (ofZ 31) then [("monthDay", monthDay)] else []
  | _ => []
  end.

Definition validateRecurrence (rec : JsVal) : Exc JsVal :=
  match rec with
  | JNull | JUndefined => Return JNull
  | JString _ =>
      Return (if includesString validLegacy rec then rec else JNull)
  | _ =>
      if String.eqb (typeof rec) "object" then
        let config := rec in
        interval <- get config "interval" ;;
        match interval with
        | JNumber n =>
            if jsLt n (ofZ 1) then Return JNull
            else
              unit <- get config "unit" ;;
              if negb (includesString validUnits unit) then Return JNull
              else
                weekDays <- get config "weekDays" ;;
                monthDay <- get config "monthDay" ;;
                Return (JObject
                  ([("interval", JNumber (clampInterval n)); ("unit", unit)]
                   ++ validatedWeekDays weekDays
                   ++ validatedMonthDay monthDay)%list)
        | _ => Return JNull
        end
      else Return JNull
  end.


(** ** Hosts used in the examples below

    The clock of each is 1 January 2024, 00:00 UTC; none of them parses
    anything but date-only ISO strings. *)

Definition hostWith (zone : Z -> bool -> Z) : Host :=
  {| LocalTZA := zone; now := 1704067200000; parseOther := fun _ => None |}.

Definition hostUTC : Host := hostWith (fixedZone 0).

(** Five hours west of Greenwich (US Eastern standard time). *)
Definition hostEST : Host := hostWith (fixedZone (-18000000)).

Definition hostLondon : Host := hostWith europeLondon2024.


(** ** Values and predicates used in the statements *)

Definition monthlyOn (md : Z) : TaskRecurrence :=
  flexible {| interval := 1; unit_ := month; weekDays := None; monthDay := Some md |}.

Definition weeklyOn (n : Z) (days : list Z) : TaskRecurrence :=
  flexible {| interval := n; unit_ := week; weekDays := Some days; monthDay := None |}.





(** The data model keeps [monthDay] in 1..31; the round trip only needs it
    to be different from 0, which the form builder reads as "not set". *)
Definition monthDayNonZero (recurrence : TaskRecurrence) : Prop :=
  match recurrence with
  | flexible config => monthDay config <> Some 0
  | _ => True
  end.

(** The data-model invariants of a typed recurrence value. *)
Definition validConfig (config : RecurrenceConfig) : bool :=
  (1 <=? interval config) && (interval config <=? 99)
  && match weekDays config with
     | Some w => forallb (fun d => (0 <=? d) && (d <=? 6)) w
     | None => true
     end
  && match monthDay config with
     | Some m => (1 <=? m) && (m <=? 31)
     | None => true
     end.

Definition validRecurrence (recurrence : TaskRecurrence) : bool :=
  match recurrence with
  | flexible config => validConfig config
  | _ => true
  end.

(** The offset of local time never exceeds a day. *)
Definition zoneBounded (host : Host) : Prop :=
  forall t isUTC, Z.abs (LocalTZA host t isUTC) <= ES.msPerDay.

(** Base dates up to this time value (about 253000 years from 1970) leave
    room for any validated recurrence. *)
Definition safeTime : Z := 8000000000000000.



Definition room : Z := 7000000.

(** The result is the calendar date of a valid time value. *)
Definition returnsDate (result : Exc string) : Prop :=
  exists t, Z.abs t <= ES.maxTime /\ result = isoDate (Some t).

(** The smallest element of a list. *)
Definition smallest (l : list Z) : option Z :=
  match l with
  | [] => None
  | x :: l' => Some (fold_left Z.min l' x)
  end.

(** The number of days that the weekday rule adds, as the specification
    words it: with interval 1 and a selected day after [current], the
    nearest such day; otherwise the smallest selected day of the week that
    starts [n] weeks after the current one. *)
Definition weekdayRuleDays (current n : Z) (days : list Z) : option Z :=
  match (if n =? 1 then smallest (filter (fun d => current <? d) days) else None) with
  | Some d => Some (d - current)
  | None => option_map (fun s => (7 - current + s) + (n - 1) * 7) (smallest days)
  end.

(** [x] is not above any element of [l]. *)
Definition lowerBound (x : Z) (l : list Z) : Prop := forall y, In y l -> x <= y.

Inductive Sorted : list Z -> Prop :=
| Sorted_nil : Sorted []
| Sorted_cons x l : lowerBound x l -> Sorted l -> Sorted (x :: l).

Section DayListPredicates.
Local Open Scope Q_scope.

Definition inDayRange (q : Q) : Prop := 0 <= q /\ q <= 6.

(** No element of [l] equals [x] as a number. *)
Definition fresh (x : Q) (l : list Q) : Prop := forall y, In y l -> ~ x == y.

Inductive Distinct : list Q -> Prop :=
| Distinct_nil : Distinct []
| Distinct_cons x l : fresh x l -> Distinct l -> Distinct (x :: l).

(** Strictly ascending lists. *)
Inductive Ascending : list Q -> Prop :=
| Ascending_nil : Ascending []
| Ascending_cons x l :
    (forall y, In y l -> x < y) -> Ascending l -> Ascending (x :: l).

Definition numbers (l : list Q) : JsVal := JArray (map (fun q => JNumber (Fin q)) l).

(** The [weekDays] of a result: absent, or a non-empty, strictly ascending
    list of numbers between 0 and 6. *)
Definition goodDays (l : list Q) : Prop :=
  l <> [] /\ Ascending l /\ forall q, In q l -> inDayRange q.

End DayListPredicates.

(** ** Tasks and the matrix

    An optional property of a task is [None] when it is absent or
    [undefined].  [id] is a reading of the clock ([Date.now()]). *)

Inductive Complexity : Type := easy | medium | hard.

Definition COMPLEXITY_ORDER (c : Complexity) : Z :=
  match c with easy => 1 | medium => 2 | hard => 3 end.

Record Task : Type := {
  id : Z;
  text : string;
  description : option string;
  deadline : option string;
  completed : bool;
  completedAt : option string;
  recurrence : option TaskRecurrence;
  complexity : option Complexity
}.

Inductive Quadrant : Type :=
| urgent_important
| not_urgent_important
| urgent_not_important
| not_urgent_not_important.

Definition Quadrant_eqb (a b : Quadrant) : bool :=
  match a, b with
  | urgent_important, urgent_important
  | not_urgent_important, not_urgent_important
  | urgent_not_important, urgent_not_important
  | not_urgent_not_important, not_urgent_not_important => true
  | _, _ => false
  end.

(** [Record<Quadrant, Task[]>], with the keys in the order in which the
    initial state lists them. *)
Record Tasks : Type := {
  in_urgent_important : list Task;
  in_not_urgent_important : list Task;
  in_urgent_not_important : list Task;
  in_not_urgent_not_important : list Task
}.

(** [tasks[quadrant]] *)
Definition tasksOf (tasks : Tasks) (quadrant : Quadrant) : list Task :=
  match quadrant with
  | urgent_important => in_urgent_important tasks
  | not_urgent_important => in_not_urgent_important tasks
  | urgent_not_important => in_urgent_not_important tasks
  | not_urgent_not_important => in_not_urgent_not_important tasks
  end.

(** [{ ...prev, [quadrant]: items }] *)
Definition withQuadrant (prev : Tasks) (quadrant : Quadrant) (items : list Task)
    : Tasks :=
  match quadrant with
  | urgent_important =>
      {| in_urgent_important := items;
         in_not_urgent_important := in_not_urgent_important prev;
         in_urgent_not_important := in_urgent_not_important prev;
         in_not_urgent_not_important := in_not_urgent_not_important prev |}
  | not_urgent_important =>
      {| in_urgent_important := in_urgent_important prev;
         in_not_urgent_important := items;
         in_urgent_not_important := in_urgent_not_important prev;
         in_not_urgent_not_important := in_not_urgent_not_important prev |}
  | urgent_not_important =>
      {| in_urgent_important := in_urgent_important prev;
         in_not_urgent_important := in_not_urgent_important prev;
         in_urgent_not_important := items;
         in_not_urgent_not_important := in_not_urgent_not_important prev |}
  | not_urgent_not_important =>
      {| in_urgent_important := in_urgent_important prev;
         in_not_urgent_important := in_not_urgent_important prev;
         in_urgent_not_important := in_urgent_not_important prev;
         in_not_urgent_not_important := items |}
  end.

Definition emptyTasks : Tasks :=
  {| in_urgent_important := []; in_not_urgent_important := [];
     in_urgent_not_important := []; in_not_urgent_not_important := [] |}.

(** Truthiness of [string | undefined] and of a recurrence (a legacy
    pattern is a non-empty string, a configuration is an object). *)
Definition truthyString (s : option string) : bool :=
  match s with Some EmptyString | None => false | Some _ => true end.

Definition truthyRecurrence (r : option TaskRecurrence) : bool :=
  match r with Some (legacy _) | Some (flexible _) => true | _ => false end.

(** [r || null] and [r || undefined] *)
Definition orNull (r : option TaskRecurrence) : TaskRecurrence :=
  match r with Some r' => r' | None => null end.

Definition orUndefined (r : TaskRecurrence) : option TaskRecurrence :=
  match r with null => None | _ => Some r end.

(** [s || ''] and [s || undefined] *)
Definition orEmpty (s : option string) : string :=
  match s with Some s' => s' | None => "" end.

Definition nonEmpty (s : string) : option string :=
  match s with EmptyString => None | _ => Some s end.

(** [{ ...t, completed: c, completedAt: at }] *)
Definition withCompletion (t : Task) (c : bool) (at_ : option string) : Task :=
  {| id := id t; text := text t; description := description t;
     deadline := deadline t; completed := c; completedAt := at_;
     recurrence := recurrence t; complexity := complexity t |}.

Section Matrix.
Context (host : Host).

(** [new Date().toISOString().split('T')[0]] *)
Definition todayString : Exc string := isoDate (newDateNow host).

Definition isTaskVisible (task : Task) : Exc bool :=
  if negb (completed task) then Return true
  else if negb (truthyString (completedAt task)) then Return true
  else
    today <- todayString ;;
    Return (String.eqb (orEmpty (completedAt task)) today).

(** The updater that [toggleComplete] hands to [setTasks].  The clock is
    read for [today], for the base date of a task without deadline and for
    the new task's [id]; the readings of one call are taken to be the
    same instant. *)
Definition toggleComplete (quadrant : Quadrant) (taskId : Z) (prev : Tasks)
    : Exc Tasks :=
  match find (fun t => id t =? taskId) (tasksOf prev quadrant) with
  | None => Return prev
  | Some task =>
      let isCompleting := negb (completed task) in
      today <- todayString ;;
      if isCompleting && truthyRecurrence (recurrence task) then
        nextDeadline <-
          calculateNextDeadline host (deadline task) (orNull (recurrence task)) ;;
        let nextTask :=
          {| id := now host;
             text := text task;
             description := description task;
             deadline := Some nextDeadline;
             completed := false;
             completedAt := None;
             recurrence := recurrence task;
             complexity := complexity task |} in
        Return (withQuadrant prev quadrant
          (map (fun t => if id t =? taskId
                         then withCompletion t true (Some today) else t)
               (tasksOf prev quadrant)
           ++ [nextTask])%list)
      else
        Return (withQuadrant prev quadrant
          (map (fun t => if id t =? taskId
                         then withCompletion t (negb (completed t))
                                (if isCompleting then Some today else None)
                         else t)
               (tasksOf prev quadrant)))
  end.

End Matrix.

(** ** The order in which a quadrant is displayed *)

Definition Number (b : bool) : Z := if b then 1 else 0.

(** [c || 'medium'] *)
Definition orMedium (c : option Complexity) : Complexity :=
  match c with Some c' => c' | None => medium end.

(** The comparison function handed to [sort]. *)
Definition compareTasks (a b : Task) : Z :=
  let completionDiff := Number (completed a) - Number (completed b) in
  if negb (completionDiff =? 0) then completionDiff
  else
    let aComplexity := COMPLEXITY_ORDER (orMedium (complexity a)) in
    let bComplexity := COMPLEXITY_ORDER (orMedium (complexity b)) in
    aComplexity - bComplexity.

(** [[...list].sort(compare)]: the sort is stable (ECMAScript 2019), and
    so is insertion from the right before the first element that does not
    compare lower. *)
Fixpoint insertBy {A : Type} (compare : A -> A -> Z) (x : A) (l : list A)
    : list A :=
  match l with
  | [] => [x]
  | y :: l' => if compare x y <=? 0 then x :: l else y :: insertBy compare x l'
  end.

Definition sortBy {A : Type} (compare : A -> A -> Z) (l : list A) : list A :=
  fold_right (insertBy compare) [] l.

Definition displayOrder (visible : list Task) : list Task :=
  sortBy compareTasks visible.

(** ** The edit dialog *)

Record EditForm : Type := {
  edit_text : string;
  edit_description : string;
  edit_deadline : string;
  isUrgent : bool;
  isImportant : bool;
  edit_recurrence : RecurrenceFormState;
  edit_complexity : Complexity
}.

Record EditingTask : Type := {
  editing_task : Task;
  editing_quadrant : Quadrant
}.

(** The part of the component's state that the dialog reads and writes. *)
Record App : Type := {
  tasks : Tasks;
  editingTask : option EditingTask;
  editForm : EditForm;
  error : string
}.

Definition emptyEditForm : EditForm :=
  {| edit_text := ""; edit_description := ""; edit_deadline := "";
     isUrgent := false; isImportant := false;
     edit_recurrence := defaultRecurrenceForm; edit_complexity := medium |}.

Definition openEditModal (task : Task) (quadrant : Quadrant) (app : App) : App :=
  let isUrgent :=
    Quadrant_eqb quadrant urgent_important
    || Quadrant_eqb quadrant urgent_not_important in
  let isImportant :=
    Quadrant_eqb quadrant urgent_important
    || Quadrant_eqb quadrant not_urgent_important in
  {| tasks := tasks app;
     editingTask := Some {| editing_task := task; editing_quadrant := quadrant |};
     editForm :=
       {| edit_text := text task;
          edit_description := orEmpty (description task);
          edit_deadline := orEmpty (deadline task);
          isUrgent := isUrgent;
          isImportant := isImportant;
          edit_recurrence := parseRecurrenceToFormState (orNull (recurrence task));
          edit_complexity := orMedium (complexity task) |};
     error := error app |}.

Definition closeEditModal (app : App) : App :=
  {| tasks := tasks app; editingTask := None; editForm := emptyEditForm;
     error := error app |}.

Section EditDialog.
(** [String.prototype.trim] *)
Context (trim : string -> string).

Definition saveTaskEdit (app : App) : App :=
  match editingTask app with
  | None => app
  | Some editing =>
      let form := editForm app in
      if String.eqb (trim (edit_text form)) "" then
        {| tasks := tasks app; editingTask := editingTask app;
           editForm := editForm app; error := "Task name cannot be empty" |}
      else
        let newQuadrant :=
          if isUrgent form && isImportant form then urgent_important
          else if negb (isUrgent form) && isImportant form then not_urgent_important
          else if isUrgent form && negb (isImportant form) then urgent_not_important
          else not_urgent_not_important in
        let builtRecurrence := buildRecurrenceConfig (edit_recurrence form) in
        let updatedTask :=
          {| id := id (editing_task editing);
             text := trim (edit_text form);
             description := nonEmpty (trim (edit_description form));
             deadline := nonEmpty (edit_deadline form);
             completed := completed (editing_task editing);
             completedAt := completedAt (editing_task editing);
             recurrence := orUndefined builtRecurrence;
             complexity := Some (edit_complexity form) |} in
        let prev := tasks app in
        let old := editing_quadrant editing in
        closeEditModal
          {| tasks :=
               if negb (Quadrant_eqb newQuadrant old) then
                 withQuadrant
                   (withQuadrant prev old
                      (filter (fun task =>
                                 negb (id task =? id (editing_task editing)))
                              (tasksOf prev old)))
                   newQuadrant (tasksOf prev newQuadrant ++ [updatedTask])%list
               else
                 withQuadrant prev old
                   (map (fun task =>
                           if id task =? id (editing_task editing)
                           then updatedTask else task)
                        (tasksOf prev old));
             editingTask := editingTask app;
             editForm := editForm app;
             error := error app |}
  end.

End EditDialog.

(** ** The handlers of the recurrence fields of the dialog *)

Inductive PresetChoice : Type :=
| choose_none
| choose_custom
| choose_legacy (p : LegacyRecurrencePattern).

Definition unitMap (p : LegacyRecurrencePattern) : RecurrenceUnit :=
  match p with
  | daily => day | weekly => week | monthly => month | yearly => year
  end.

(** [onChange] of the recurrence selector *)
Definition presetOnChange (value : PresetChoice) (form : RecurrenceFormState)
    : RecurrenceFormState :=
  match value with
  | choose_none => defaultRecurrenceForm
  | choose_custom =>
      {| enabled := true; preset := Some preset_custom;
         form_interval := form_interval form; form_unit := form_unit form;
         form_weekDays := form_weekDays form;
         form_monthDay := form_monthDay form;
         useSpecificMonthDay := useSpecificMonthDay form |}
  | choose_legacy p =>
      {| enabled := true; preset := Some (preset_legacy p);
         form_interval := 1; form_unit := unitMap p;
         form_weekDays := []; form_monthDay := None;
         useSpecificMonthDay := false |}
  end.

(** [n || 1] for a number that is integral or NaN *)
Definition orOne (n : num) : Z :=
  match n with Some k => if k =? 0 then 1 else k | None => 1 end.

(** [onChange] of the interval field; [parsed] is what [parseInt] made of
    the text typed. *)
Definition intervalOnChange (parsed : num) (form : RecurrenceFormState)
    : RecurrenceFormState :=
  {| enabled := enabled form; preset := preset form;
     form_interval := Z.max 1 (orOne parsed); form_unit := form_unit form;
     form_weekDays := form_weekDays form;
     form_monthDay := form_monthDay form;
     useSpecificMonthDay := useSpecificMonthDay form |}.

(** [onChange] of the unit selector *)
Definition unitOnChange (value : RecurrenceUnit) (form : RecurrenceFormState)
    : RecurrenceFormState :=
  {| enabled := enabled form; preset := preset form;
     form_interval := form_interval form; form_unit := value;
     form_weekDays := []; form_monthDay := None;
     useSpecificMonthDay := false |}.

(** [onClick] of the button of the weekday [dayIndex] *)
Definition weekdayOnClick (dayIndex : Z) (form : RecurrenceFormState)
    : RecurrenceFormState :=
  let currentDays := form_weekDays form in
  let newDays :=
    if includes currentDays dayIndex
    then filter (fun d => negb (d =? dayIndex)) currentDays
    else sortAscending (currentDays ++ [dayIndex]) in
  {| enabled := enabled form; preset := preset form;
     form_interval := form_interval form; form_unit := form_unit form;
     form_weekDays := newDays;
     form_monthDay := form_monthDay form;
     useSpecificMonthDay := useSpecificMonthDay form |}.

(** [onChange] of the box "On specific day of month" *)
Definition monthDayOnCheck (checked : bool) (form : RecurrenceFormState)
    : RecurrenceFormState :=
  {| enabled := enabled form; preset := preset form;
     form_interval := form_interval form; form_unit := form_unit form;
     form_weekDays := form_weekDays form;
     form_monthDay :=
       if checked then Some (orOne (form_monthDay form)) else None;
     useSpecificMonthDay := checked |}.

(** [onChange] of the day-of-month selector; [parsed] is what [parseInt]
    made of the option chosen. *)
Definition monthDayOnSelect (parsed : Z) (form : RecurrenceFormState)
    : RecurrenceFormState :=
  {| enabled := enabled form; preset := preset form;
     form_interval := form_interval form; form_unit := form_unit form;
     form_weekDays := form_weekDays form;
     form_monthDay := Some parsed;
     useSpecificMonthDay := useSpecificMonthDay form |}.

(** What the user can do in the recurrence part of the dialog: the weekday
    buttons are those of [DAY_LETTERS] (0..6), the day-of-month options
    are 1..31. *)
Inductive FormEvent : Type :=
| presetChanged (value : PresetChoice)
| intervalChanged (parsed : num)
| unitChanged (value : RecurrenceUnit)
| weekdayClicked (dayIndex : Z)
| monthDayChecked (checked : bool)
| monthDaySelected (parsed : Z).

Definition offered (e : FormEvent) : bool :=
  match e with
  | weekdayClicked i => (0 <=? i) && (i <=? 6)
  | monthDaySelected d => (1 <=? d) && (d <=? 31)
  | _ => true
  end.

Definition handle (form : RecurrenceFormState) (e : FormEvent)
    : RecurrenceFormState :=
  match e with
  | presetChanged value => presetOnChange value form
  | intervalChanged parsed => intervalOnChange parsed form
  | unitChanged value => unitOnChange value form
  | weekdayClicked i => weekdayOnClick i form
  | monthDayChecked checked => monthDayOnCheck checked form
  | monthDaySelected d => monthDayOnSelect d form
  end.

(** ** Regrouping the tasks after the categorisation *)

Definition quadrantName (q : Quadrant) : string :=
  match q with
  | urgent_important => "urgent-important"
  | not_urgent_important => "not-urgent-important"
  | urgent_not_important => "urgent-not-important"
  | not_urgent_not_important => "not-urgent-not-important"
  end.

Definition allQuadrants : list Quadrant :=
  [urgent_important; not_urgent_important; urgent_not_important;
   not_urgent_not_important].

(** The own property of [newTasks] that [newTasks[key]] reads.  The key is
    turned into a string first: a string is itself, an array of one
    element is that element's string, and no other value of [JSON.parse]
    has the name of a quadrant as its string. *)
Fixpoint quadrantOfKey (key : JsVal) : option Quadrant :=
  match key with
  | JString s => find (fun q => String.eqb (quadrantName q) s) allQuadrants
  | JArray [x] => quadrantOfKey x
  | _ => None
  end.

(** [validComplexities.includes(c) ? c : 'medium'] *)
Definition validComplexity (c : JsVal) : Complexity :=
  match c with
  | JString s =>
      if String.eqb s "easy" then easy
      else if String.eqb s "hard" then hard
      else medium
  | _ => medium
  end.

(** [Object.entries(tasks)], flattened *)
Definition allTasksOf (tasks : Tasks) : list Task :=
  flat_map (tasksOf tasks) allQuadrants.

(** [allTasks.find(t => t.text === categorized.text)] *)
Fixpoint findByText (allTasks : list Task) (categorized : JsVal)
    : Exc (option Task) :=
  match allTasks with
  | [] => Return None
  | t :: rest =>
      v <- get categorized "text" ;;
      match v with
      | JString s =>
          if String.eqb (text t) s then Return (Some t)
          else findByText rest categorized
      | _ => findByText rest categorized
      end
  end.

(** The body of the [forEach] callback. *)
Definition pushCategorized (allTasks : list Task) (newTasks : Tasks)
    (categorized : JsVal) : Exc Tasks :=
  originalTask <- findByText allTasks categorized ;;
  match originalTask with
  | None => Return newTasks
  | Some o =>
      c <- get categorized "complexity" ;;
      let complexity := validComplexity c in
      key <- get categorized "quadrant" ;;
      match quadrantOfKey key with
      | None => Throw TypeError
      | Some q =>
          Return (withQuadrant newTasks q
            (tasksOf newTasks q ++
             [{| id := id o; text := text o; description := description o;
                 deadline := deadline o; completed := completed o;
                 completedAt := completedAt o; recurrence := recurrence o;
                 complexity := Some complexity |}])%list)
      end
  end.

Fixpoint forEachCategorized (allTasks : list Task) (categorizedTasks : list JsVal)
    (newTasks : Tasks) : Exc Tasks :=
  match categorizedTasks with
  | [] => Return newTasks
  | categorized :: rest =>
      newTasks' <- pushCategorized allTasks newTasks categorized ;;
      forEachCategorized allTasks rest newTasks'
  end.

(** From the parsed response to the new matrix; a response that is not an
    array has no [forEach]. *)
Definition regroup (allTasks : list Task) (response : JsVal) : Exc Tasks :=
  match response with
  | JArray categorizedTasks =>
      forEachCategorized allTasks categorizedTasks emptyTasks
  | _ => Throw TypeError
  end.

(** The matrix after [autoSortWithAI] has received [response]: an error is
    caught and leaves the matrix as it was. *)
Definition autoSorted (tasks : Tasks) (response : JsVal) : Tasks :=
  let allTasks := allTasksOf tasks in
  if Z.of_nat (List.length allTasks) =? 0 then tasks
  else match regroup allTasks response with
       | Return newTasks => newTasks
       | Throw _ => tasks
       end.

(** ** The dates given to the model in the prompt of [addTask] *)

(** [d.getTime()] and [new Date(value)] *)
Definition getTime (d : Date) : num := d.

Definition newDateValue (value : num) : Date :=
  match value with Some t => ES.TimeClip t | None => None end.

Section PromptDates.
Context (host : Host).

Definition promptToday : Exc string := isoDate (newDateNow host).

Definition promptTomorrow : Exc string :=
  let today := newDateNow host in
  isoDate (newDateValue (nadd (getTime today) (Some 86400000))).

Definition promptNextWeek : Exc string :=
  let today := newDateNow host in
  isoDate (newDateValue (nadd (getTime today) (Some (7 * 86400000)))).

Definition promptNextMonth : Exc string :=
  let today := newDateNow host in
  isoDate (newDateYMD host (getFullYear host today)
                           (nadd (getMonth host today) (Some 1))
                           (getDate host today)).

End PromptDates.

(** ** Eligibility for notifications *)

Record EligibilityData : Type := {
  sessions : Z;
  taskCount : Z;
  completedCount : Z
}.

(** What [getStoredData] returns when nothing is stored. *)
Definition noEligibilityData : EligibilityData :=
  {| sessions := 0; taskCount := 0; completedCount := 0 |}.

(** The effect that runs once when the hook is mounted. *)
Definition sessionStarted (current : EligibilityData) : EligibilityData :=
  {| sessions := sessions current + 1; taskCount := taskCount current;
     completedCount := completedCount current |}.

Definition recordTaskAdded (prev : EligibilityData) : EligibilityData :=
  {| sessions := sessions prev; taskCount := taskCount prev + 1;
     completedCount := completedCount prev |}.

Definition recordTaskCompleted (prev : EligibilityData) : EligibilityData :=
  {| sessions := sessions prev; taskCount := taskCount prev;
     completedCount := completedCount prev + 1 |}.

Definition isEligible (data : EligibilityData) : bool :=
  (3 <=? taskCount data) || (1 <=? completedCount data) || (2 <=? sessions data).

Inductive EligibilityEvent : Type := mounted | taskAdded | taskCompleted.

Definition record (data : EligibilityData) (e : EligibilityEvent)
    : EligibilityData :=
  match e with
  | mounted => sessionStarted data
  | taskAdded => recordTaskAdded data
  | taskCompleted => recordTaskCompleted data
  end.

(** ** Dismissing the recap of yesterday *)

(** The entry of [localStorage] under [DISMISSED_KEY]: [None] is [null]. *)
Definition Dismissed : Type := option string.

Section Recap.
Context (host : Host).

Definition getTodayDateString : Exc string := isoDate (newDateNow host).

Definition wasDismissedToday (dismissed : Dismissed) : Exc bool :=
  today <- getTodayDateString ;;
  Return (match dismissed with
          | Some d => String.eqb d today
          | None => false
          end).

Definition dismissForToday (dismissed : Dismissed) : Exc Dismissed :=
  today <- getTodayDateString ;;
  Return (Some today).

End Recap.

(** ** Calendar values used in the statements *)

(** The length of month [m] (0 = January) of year [y] in the Gregorian
    calendar. *)
Definition isLeapYear (y : Z) : bool :=
  (y mod 4 =? 0) && (negb (y mod 100 =? 0) || (y mod 400 =? 0)).

Definition daysInMonth (y m : Z) : Z :=
  match m with
  | 1 => if isLeapYear y then 29 else 28
  | 3 | 5 | 8 | 10 => 30
  | _ => 31
  end.

(** The calendar date of a time value, as [toISOString] prints it. *)
Definition datePart (t : Z) : string :=
  isoYear (ES.YearFromTime t) ++ "-" ++
  padDigits 2 (ES.MonthFromTime t + 1) ++ "-" ++
  padDigits 2 (ES.DateFromTime t).

(** The number of a month counted from January of year 0. *)
Definition monthIndex (t : Z) : Z := 12 * ES.YearFromTime t + ES.MonthFromTime t.

(** Strictly ascending lists of integers. *)
Inductive Increasing : list Z -> Prop :=
| Increasing_nil : Increasing []
| Increasing_cons x l :
    (forall y, In y l -> x < y) -> Increasing l -> Increasing (x :: l).

(** No element of the list compares greater than a later one. *)
Inductive InOrder {A : Type} (compare : A -> A -> Z) : list A -> Prop :=
| InOrder_nil : InOrder compare []
| InOrder_cons x l :
    (forall y, In y l -> compare x y <= 0) -> InOrder compare l ->
    InOrder compare (x :: l).

(** The invariant of the recurrence fields of the dialog. *)
Definition formInvariant (form : RecurrenceFormState) : Prop :=
  1 <= form_interval form /\
  (forall d, In d (form_weekDays form) -> 0 <= d <= 6) /\
  Increasing (form_weekDays form) /\
  match form_monthDay form with
  | Some m => 1 <= m <= 31
  | None => True
  end.

(** A task as [saveTaskEdit] writes it, from some state of the dialog
    with a name that is not blank. *)
Definition writtenByDialog (trim : string -> string) (task : Task) : Prop :=
  exists form : EditForm,
    trim (edit_text form) <> "" /\
    text task = trim (edit_text form) /\
    description task = nonEmpty (trim (edit_description form)) /\
    deadline task = nonEmpty (edit_deadline form) /\
    recurrence task
    = orUndefined (buildRecurrenceConfig (edit_recurrence form)) /\
    complexity task = Some (edit_complexity form).

(** A recurring task, due on 31 January 2024, and a matrix that holds it. *)
Definition rentTask : Task :=
  {| id := 1700000000000; text := "Pay rent"; description := None;
     deadline := Some "2024-01-31"; completed := false; completedAt := None;
     recurrence := Some (legacy monthly); complexity := Some easy |}.

Definition rentTasks : Tasks := withQuadrant emptyTasks urgent_important [rentTask].

(** A host in UTC whose clock is one day later than that of [hostUTC]. *)
Definition hostNextDay : Host :=
  {| LocalTZA := fixedZone 0; now := 1704153600000; parseOther := fun _ => None |}.

(** A [trim] for the examples: blanks at either end are removed. *)
Fixpoint trimStart (s : string) : string :=
  match s with
  | EmptyString => EmptyString
  | String c s' => if Ascii.eqb c " " then trimStart s' else s
  end.

Fixpoint trimEnd (s : string) : string :=
  match s with
  | EmptyString => EmptyString
  | String c s' =>
      match trimEnd s' with
      | EmptyString => if Ascii.eqb c " " then EmptyString else String c EmptyString
      | r => String c r
      end
  end.

Definition trimBlanks (s : string) : string := trimEnd (trimStart s).

(** How often an event occurs in a list. *)
Definition sameEvent (a b : EligibilityEvent) : bool :=
  match a, b with
  | mounted, mounted | taskAdded, taskAdded | taskCompleted, taskCompleted => true
  | _, _ => false
  end.

Definition occurrences (e : EligibilityEvent) (events : list EligibilityEvent)
    : Z :=
  Z.of_nat (List.length (filter (sameEvent e) events)).

(** A task that the dialog has written, alone in its quadrant. *)
Definition noteTask : Task :=
  {| id := 1700000000001; text := "Call the bank"; description := None;
     deadline := None; completed := false; completedAt := None;
     recurrence := Some (weeklyOn 1 [1; 3]); complexity := Some medium |}.

Definition noteApp : App :=
  {| tasks := withQuadrant rentTasks not_urgent_important [noteTask];
     editingTask := None; editForm := emptyEditForm; error := "" |}.

(** A response of the automatic sort that names one task. *)
Definition rentResponse : JsVal :=
  JArray [JObject [("text", JString "Pay rent");
                   ("quadrant", JString "not-urgent-important");
                   ("complexity", JString "hard")]].

(** ** Facts about the calendar arithmetic *)

Module ESFacts.
Import ES.

Lemma DaysInYear_cases (y : Z) : DaysInYear y = 365 \/ DaysInYear y = 366.
Proof.
  unfold DaysInYear.
  destruct (y mod 4 =? 0), (y mod 100 =? 0), (y mod 400 =? 0); simpl; auto.
Qed.

Lemma div_succ (a n : Z) :
  0 < n -> (a + 1) / n = a / n + (if (a + 1) mod n =? 0 then 1 else 0).
Proof.
  intros Hn. destruct (Z.eqb_spec ((a + 1) mod n) 0) as [E|E];
    Z.div_mod_to_equations; nia.
Qed.

Lemma DayFromYear_step (y : Z) :
  DayFromYear (y + 1) = DayFromYear y + DaysInYear y.
Proof.
  unfold DayFromYear, DaysInYear.
  replace (y + 1 - 1969) with (y - 1969 + 1) by lia.
  replace (y + 1 - 1901) with (y - 1901 + 1) by lia.
  replace (y + 1 - 1601) with (y - 1601 + 1) by lia.
  rewrite !div_succ by lia.
  replace ((y - 1969 + 1) mod 4) with (y mod 4) by (Z.div_mod_to_equations; lia).
  replace ((y - 1901 + 1) mod 100) with (y mod 100) by (Z.div_mod_to_equations; lia).
  replace ((y - 1601 + 1) mod 400) with (y mod 400) by (Z.div_mod_to_equations; lia).
  assert (A : y mod 100 = 0 -> y mod 4 = 0) by (intros; Z.div_mod_to_equations; lia).
  assert (B : y mod 400 = 0 -> y mod 100 = 0) by (intros; Z.div_mod_to_equations; lia).
  destruct (Z.eqb_spec (y mod 4) 0) as [H4|H4];
  destruct (Z.eqb_spec (y mod 100) 0) as [H100|H100];
  destruct (Z.eqb_spec (y mod 400) 0) as [H400|H400]; cbn [negb]; lia.
Qed.

(** The days before a year grow like the mean Gregorian year, 365.2425. *)
Lemma DayFromYear_lower (y : Z) :
  146097 * (y - 1970) - 607 <= 400 * DayFromYear y.
Proof. unfold DayFromYear. Z.div_mod_to_equations. lia. Qed.

Lemma DayFromYear_upper (y : Z) :
  400 * DayFromYear y <= 146097 * (y - 1970) + 593.
Proof. unfold DayFromYear. Z.div_mod_to_equations. lia. Qed.

(** [YearFromDay] is the year ECMA-262 asks for. *)
Lemma YearFromDay_spec (d : Z) :
  DayFromYear (YearFromDay d) <= d < DayFromYear (YearFromDay d + 1).
Proof.
  unfold YearFromDay.
  set (y0 := 1970 + 400 * d / 146097).
  assert (Hy : 146097 * (y0 - 1970) <= 400 * d < 146097 * (y0 - 1970) + 146097)
    by (subst y0; Z.div_mod_to_equations; lia).
  destruct (Z.leb_spec (DayFromYear (y0 + 1)) d) as [H1|H1].
  - split; [exact H1|].
    pose proof (DayFromYear_lower (y0 + 1 + 1)). lia.
  - destruct (Z.leb_spec (DayFromYear y0) d) as [H0|H0].
    + split; [exact H0|exact H1].
    + replace (y0 - 1 + 1) with y0 by lia. split; [|exact H0].
      pose proof (DayFromYear_upper (y0 - 1)). lia.
Qed.

Lemma InLeapYear_cases (t : Z) :
  (InLeapYear t = 0 /\ DaysInYear (YearFromTime t) = 365) \/
  (InLeapYear t = 1 /\ DaysInYear (YearFromTime t) = 366).
Proof.
  unfold InLeapYear.
  destruct (DaysInYear_cases (YearFromTime t)) as [E|E]; rewrite E; simpl; auto.
Qed.

Lemma DayWithinYear_range (t : Z) :
  0 <= DayWithinYear t < DaysInYear (YearFromTime t).
Proof.
  unfold DayWithinYear, YearFromTime.
  pose proof (YearFromDay_spec (Day t)) as H.
  rewrite DayFromYear_step in H. lia.
Qed.

Lemma MonthFromTime_range (t : Z) : 0 <= MonthFromTime t <= 11.
Proof.
  unfold MonthFromTime.
  repeat match goal with |- context [if ?b then _ else _] => destruct b end; lia.
Qed.

Lemma DateFromTime_range (t : Z) : 1 <= DateFromTime t <= 31.
Proof.
  unfold DateFromTime, MonthFromTime.
  pose proof (DayWithinYear_range t) as H.
  destruct (InLeapYear_cases t) as [[L E]|[L E]]; rewrite L, E in *;
  repeat match goal with
         | |- context [if ?a <? ?b then _ else _] => destruct (Z.ltb_spec a b)
         end; cbn [monthStart]; lia.
Qed.

(** Setting the day of the month moves the day number by the difference. *)
Lemma MakeDay_same_month (t dt : Z) :
  MakeDay (YearFromTime t) (MonthFromTime t) dt = Day t + (dt - DateFromTime t).
Proof.
  pose proof (MonthFromTime_range t) as Hm.
  unfold MakeDay.
  replace (MonthFromTime t / 12) with 0 by (Z.div_mod_to_equations; lia).
  replace (MonthFromTime t mod 12) with (MonthFromTime t)
    by (Z.div_mod_to_equations; lia).
  rewrite Z.add_0_r.
  unfold DateFromTime, DayWithinYear, InLeapYear. lia.
Qed.

Lemma Day_MakeDate (d tw : Z) : 0 <= tw < msPerDay -> Day (MakeDate d tw) = d.
Proof.
  unfold Day, MakeDate, msPerDay. intros H. Z.div_mod_to_equations. lia.
Qed.

Lemma TimeWithinDay_range (t : Z) : 0 <= TimeWithinDay t < msPerDay.
Proof. unfold TimeWithinDay, msPerDay. Z.div_mod_to_equations. lia. Qed.

Lemma MakeDate_Day (t : Z) : MakeDate (Day t) (TimeWithinDay t) = t.
Proof.
  unfold MakeDate, Day, TimeWithinDay, msPerDay. Z.div_mod_to_equations. lia.
Qed.

Lemma WeekDay_range (t : Z) : 0 <= WeekDay t <= 6.
Proof. unfold WeekDay. Z.div_mod_to_equations. lia. Qed.

Lemma Day_plus_days (t k : Z) : Day (t + k * msPerDay) = Day t + k.
Proof. unfold Day, msPerDay. Z.div_mod_to_equations. lia. Qed.

Lemma WeekDay_plus_days (t k : Z) : WeekDay (t + k * msPerDay) = (WeekDay t + k) mod 7.
Proof.
  unfold WeekDay. rewrite Day_plus_days. Z.div_mod_to_equations. lia.
Qed.

(** *** Months on the day line *)

Lemma TimeClip_in_range (t : Z) : Z.abs t <= maxTime -> TimeClip t = Some t.
Proof.
  intros H. unfold TimeClip. destruct (Z.leb_spec (Z.abs t) maxTime); [reflexivity|lia].
Qed.

Lemma DayFromYear_diff (a b : Z) :
  Z.abs (DayFromYear a - DayFromYear b) <= 366 * Z.abs (a - b) + 3.
Proof.
  pose proof (DayFromYear_lower a). pose proof (DayFromYear_upper a).
  pose proof (DayFromYear_lower b). pose proof (DayFromYear_upper b). lia.
Qed.

Lemma monthStart_range (leap mn : Z) : 0 <= leap <= 1 -> 0 <= monthStart leap mn <= 335.
Proof.
  intros H. unfold monthStart.
  repeat match goal with |- context [match ?x with _ => _ end] => destruct x end; lia.
Qed.

(** A day built from a year [dy] years away and any month and date. *)
Lemma MakeDay_near (t dy m dt : Z) :
  Z.abs (MakeDay (YearFromTime t + dy) m dt - Day t)
  <= 366 * (Z.abs dy + Z.abs (m / 12)) + Z.abs dt + 710.
Proof.
  unfold MakeDay.
  set (ym := YearFromTime t + dy + m / 12).
  pose proof (DayFromYear_diff ym (YearFromTime t)) as Hd.
  replace (ym - YearFromTime t) with (dy + m / 12) in Hd by (subst ym; lia).
  assert (Hl : 0 <= (if DaysInYear ym =? 366 then 1 else 0) <= 1)
    by (destruct (DaysInYear ym =? 366); lia).
  pose proof (monthStart_range _ (m mod 12) Hl) as Hs.
  pose proof (DayWithinYear_range t) as Hw. unfold DayWithinYear in Hw.
  destruct (DaysInYear_cases (YearFromTime t)) as [E|E]; rewrite E in Hw; lia.
Qed.

(** [MakeDay] only depends on the number of the month counted from year 0. *)
Lemma MakeDay_index (y m dt : Z) : MakeDay y m dt = MakeDay 0 (12 * y + m) dt.
Proof.
  unfold MakeDay.
  replace ((12 * y + m) / 12) with (y + m / 12) by (Z.div_mod_to_equations; lia).
  replace ((12 * y + m) mod 12) with (m mod 12) by (Z.div_mod_to_equations; lia).
  reflexivity.
Qed.

Lemma MakeDay_date (y m dt : Z) : MakeDay y m dt = MakeDay y m 1 + (dt - 1).
Proof. unfold MakeDay. lia. Qed.

(** Every month has 28 to 31 days. *)
Lemma month_length (i : Z) : 28 <= MakeDay 0 (i + 1) 1 - MakeDay 0 i 1 <= 31.
Proof.
  unfold MakeDay. rewrite !Z.add_0_l.
  assert (Hm : 0 <= i mod 12 < 12) by (apply Z.mod_pos_bound; lia).
  destruct (Z.eq_dec (i mod 12) 11) as [E|E].
  - replace ((i + 1) / 12) with (i / 12 + 1) by (Z.div_mod_to_equations; lia).
    replace ((i + 1) mod 12) with 0 by (Z.div_mod_to_equations; lia).
    rewrite E, DayFromYear_step.
    destruct (DaysInYear_cases (i / 12)) as [D|D];
    destruct (DaysInYear_cases (i / 12 + 1)) as [D'|D']; rewrite D, ?D'; simpl; lia.
  - replace ((i + 1) / 12) with (i / 12) by (Z.div_mod_to_equations; lia).
    replace ((i + 1) mod 12) with (i mod 12 + 1) by (Z.div_mod_to_equations; lia).
    destruct (DaysInYear_cases (i / 12)) as [D|D]; rewrite D; simpl;
    remember (i mod 12) as r;
    assert (Hr : r = 0 \/ r = 1 \/ r = 2 \/ r = 3 \/ r = 4 \/ r = 5 \/ r = 6 \/
                 r = 7 \/ r = 8 \/ r = 9 \/ r = 10) by lia;
    destruct Hr as [->|[->|[->|[->|[->|[->|[->|[->|[->|[->| ->]]]]]]]]]];
    simpl; lia.
Qed.

Lemma month_start_monotone (i n : Z) :
  0 <= n -> MakeDay 0 i 1 + 28 * n <= MakeDay 0 (i + n) 1.
Proof.
  intros Hn. pattern n. apply natlike_ind; [| |exact Hn].
  - replace (i + 0) with i by lia. lia.
  - intros k Hk IH. pose proof (month_length (i + k)).
    replace (i + Z.succ k) with (i + k + 1) by lia. lia.
Qed.

Lemma MonthFromTime_upper (t : Z) :
  MonthFromTime t <> 11 ->
  DayWithinYear t < monthStart (InLeapYear t) (MonthFromTime t + 1).
Proof.
  unfold MonthFromTime.
  destruct (InLeapYear_cases t) as [[L _]|[L _]]; rewrite L; clear L;
  remember (DayWithinYear t) as d; clear Heqd;
  repeat match goal with
         | |- context [if ?a <? ?b then _ else _] => destruct (Z.ltb_spec a b)
         end; intros; cbn; lia.
Qed.

(** A day lies before the first day of the next month. *)
Lemma day_before_next_month (t : Z) :
  Day t < MakeDay (YearFromTime t) (MonthFromTime t + 1) 1.
Proof.
  pose proof (MonthFromTime_range t) as Hm.
  pose proof (DayWithinYear_range t) as Hw.
  unfold MakeDay.
  destruct (Z.eq_dec (MonthFromTime t) 11) as [E11|E11].
  - rewrite E11. change ((11 + 1) / 12) with 1. change ((11 + 1) mod 12) with 0.
    rewrite DayFromYear_step. unfold DayWithinYear in Hw.
    cbn [monthStart]. lia.
  - pose proof (MonthFromTime_upper t E11) as Hu.
    replace ((MonthFromTime t + 1) / 12) with 0 by (Z.div_mod_to_equations; lia).
    replace ((MonthFromTime t + 1) mod 12) with (MonthFromTime t + 1)
      by (Z.div_mod_to_equations; lia).
    rewrite Z.add_0_r. fold (InLeapYear t). unfold DayWithinYear in Hu. lia.
Qed.

(** The first day of the month of a day is the latest first-of-month that
    is not after it. *)
Lemma month_start_latest (t i : Z) :
  MakeDay 0 i 1 <= Day t ->
  MakeDay 0 i 1 <= MakeDay (YearFromTime t) (MonthFromTime t) 1.
Proof.
  intros H. rewrite (MakeDay_index (YearFromTime t)).
  set (j := 12 * YearFromTime t + MonthFromTime t).
  destruct (Z_le_gt_dec i j) as [Hij|Hij].
  - pose proof (month_start_monotone i (j - i)) as Hm.
    replace (i + (j - i)) with j in Hm by lia. lia.
  - exfalso. pose proof (day_before_next_month t) as Hn.
    rewrite MakeDay_index in Hn.
    replace (12 * YearFromTime t + (MonthFromTime t + 1)) with (j + 1) in Hn
      by (subst j; lia).
    pose proof (month_start_monotone (j + 1) (i - (j + 1))) as Hm.
    replace (j + 1 + (i - (j + 1))) with i in Hm by lia. lia.
Qed.

Lemma DayFromYear_grows (y n : Z) :
  0 <= n -> DayFromYear y + 365 * n <= DayFromYear (y + n).
Proof.
  intros Hn. pattern n. apply natlike_ind; [| |exact Hn].
  - replace (y + 0) with y by lia. lia.
  - intros k Hk IH. replace (y + Z.succ k) with (y + k + 1) by lia.
    rewrite DayFromYear_step.
    destruct (DaysInYear_cases (y + k)) as [E|E]; rewrite E; lia.
Qed.

Lemma YearFromDay_unique (d y : Z) :
  DayFromYear y <= d < DayFromYear (y + 1) -> YearFromDay d = y.
Proof.
  intros H. pose proof (YearFromDay_spec d) as Hs.
  remember (YearFromDay d) as Y eqn:HY. clear HY.
  destruct (Z.lt_trichotomy Y y) as [Hlt|[Heq|Hgt]]; [|exact Heq|]; exfalso.
  - pose proof (DayFromYear_grows (Y + 1) (y - (Y + 1)) ltac:(lia)) as Hg.
    replace (Y + 1 + (y - (Y + 1))) with y in Hg by lia. lia.
  - pose proof (DayFromYear_grows (y + 1) (Y - (y + 1)) ltac:(lia)) as Hg.
    replace (y + 1 + (Y - (y + 1))) with Y in Hg by lia. lia.
Qed.

(** [MakeDay] is the day ECMA-262 asks for: the first day of the month
    [month mod 12] of the year [year + month / 12], moved by [date - 1]. *)
Lemma MakeDay_first_of_month (y m : Z) :
  YearFromTime (MakeDate (MakeDay y m 1) 0) = y + m / 12 /\
  MonthFromTime (MakeDate (MakeDay y m 1) 0) = m mod 12 /\
  DateFromTime (MakeDate (MakeDay y m 1) 0) = 1.
Proof.
  assert (Hday : Day (MakeDate (MakeDay y m 1) 0) = MakeDay y m 1)
    by (apply Day_MakeDate; unfold msPerDay; lia).
  assert (Hmn : 0 <= m mod 12 < 12) by (apply Z.mod_pos_bound; lia).
  assert (Hstart : MakeDay y m 1
                   = DayFromYear (y + m / 12)
                     + monthStart (if DaysInYear (y + m / 12) =? 366 then 1 else 0)
                                  (m mod 12))
    by (unfold MakeDay; lia).
  assert (Hyear : YearFromTime (MakeDate (MakeDay y m 1) 0) = y + m / 12).
  { unfold YearFromTime. rewrite Hday, Hstart. apply YearFromDay_unique.
    rewrite DayFromYear_step.
    destruct (DaysInYear_cases (y + m / 12)) as [E|E]; rewrite E; simpl;
      remember (m mod 12) as r;
      assert (Hr : r = 0 \/ r = 1 \/ r = 2 \/ r = 3 \/ r = 4 \/ r = 5 \/ r = 6 \/
                   r = 7 \/ r = 8 \/ r = 9 \/ r = 10 \/ r = 11) by lia;
      destruct Hr as [->|[->|[->|[->|[->|[->|[->|[->|[->|[->|[->| ->]]]]]]]]]]];
      simpl; lia. }
  assert (Hwithin : DayWithinYear (MakeDate (MakeDay y m 1) 0)
                    = monthStart (InLeapYear (MakeDate (MakeDay y m 1) 0)) (m mod 12)).
  { unfold DayWithinYear, InLeapYear. rewrite Hday, Hyear, Hstart. lia. }
  assert (Hmonth : MonthFromTime (MakeDate (MakeDay y m 1) 0) = m mod 12).
  { unfold MonthFromTime. rewrite Hwithin.
    destruct (InLeapYear_cases (MakeDate (MakeDay y m 1) 0)) as [[L _]|[L _]];
      rewrite L; remember (m mod 12) as r;
      assert (Hr : r = 0 \/ r = 1 \/ r = 2 \/ r = 3 \/ r = 4 \/ r = 5 \/ r = 6 \/
                   r = 7 \/ r = 8 \/ r = 9 \/ r = 10 \/ r = 11) by lia;
      destruct Hr as [->|[->|[->|[->|[->|[->|[->|[->|[->|[->|[->| ->]]]]]]]]]]];
      reflexivity. }
  split; [exact Hyear|]. split; [exact Hmonth|].
  unfold DateFromTime. rewrite Hwithin, Hmonth. lia.
Qed.

Lemma monthStart_leap (l l' m : Z) :
  0 <= l <= 1 -> 0 <= l' <= 1 -> monthStart l m - 1 <= monthStart l' m.
Proof.
  intros H H'. unfold monthStart.
  repeat match goal with |- context [match ?x with _ => _ end] => destruct x end; lia.
Qed.

Lemma MakeDay_small_month (y m dt : Z) :
  0 <= m <= 11 ->
  MakeDay y m dt
  = DayFromYear y + monthStart (if DaysInYear y =? 366 then 1 else 0) m + dt - 1.
Proof.
  intros Hm. unfold MakeDay.
  replace (m / 12) with 0 by (Z.div_mod_to_equations; lia).
  replace (m mod 12) with m by (Z.div_mod_to_equations; lia).
  rewrite Z.add_0_r. reflexivity.
Qed.

Lemma MakeDay_years_later (t i : Z) :
  0 <= i ->
  Day t + (365 * i - 1)
  <= MakeDay (YearFromTime t + i) (MonthFromTime t) (DateFromTime t).
Proof.
  intros Hi. pose proof (MonthFromTime_range t) as Hm.
  pose proof (MakeDay_same_month t (DateFromTime t)) as E.
  rewrite MakeDay_small_month in E by exact Hm.
  rewrite MakeDay_small_month by exact Hm.
  pose proof (DayFromYear_grows (YearFromTime t) i Hi) as Hg.
  assert (Hl : monthStart (if DaysInYear (YearFromTime t) =? 366 then 1 else 0)
                 (MonthFromTime t) - 1
               <= monthStart (if DaysInYear (YearFromTime t + i) =? 366 then 1 else 0)
                    (MonthFromTime t)).
  { apply monthStart_leap.
    - destruct (DaysInYear (YearFromTime t) =? 366); lia.
    - destruct (DaysInYear (YearFromTime t + i) =? 366); lia. }
  remember (monthStart (if DaysInYear (YearFromTime t) =? 366 then 1 else 0)
              (MonthFromTime t)) as a.
  remember (monthStart (if DaysInYear (YearFromTime t + i) =? 366 then 1 else 0)
              (MonthFromTime t)) as b.
  lia.
Qed.

Lemma Day_as_month_start (t : Z) :
  Day t = MakeDay 0 (12 * YearFromTime t + MonthFromTime t) 1
          + (DateFromTime t - 1).
Proof.
  rewrite <- MakeDay_index, <- MakeDay_date, MakeDay_same_month. lia.
Qed.

End ESFacts.

(** ** The calculator on concrete deadlines *)

(** C1.  A monthly recurrence on the 31st, computed from a 31 January
    deadline, does not give the last day of February: [setMonth] first
    overflows 31 February into March (3 March, or 2 March in a leap year),
    and the clamp to [getDaysInMonth] is then taken in March, so the result
    is 31 March, in a common year and in a leap year alike. *)
Theorem monthDay31_from_january31_is_march31 :
  calculateNextDeadline hostUTC (Some "2023-01-31") (monthlyOn 31)
    = Return "2023-03-31" /\
  calculateNextDeadline hostUTC (Some "2024-01-31") (monthlyOn 31)
    = Return "2024-03-31".
Proof. split; vm_compute; reflexivity. Qed.

(** C2.  In a zone with daylight saving time the next occurrence can be the
    base date itself: in London, a daily task due on 31 March 2024 (the day
    the clocks go forward) is moved to local midnight of 1 April, which is
    23:00 UTC of 31 March, and [toISOString] prints 31 March again. *)
Theorem daily_from_dst_day_returns_same_date :
  validRecurrence (legacy daily) = true /\
  isoDate (baseDateOf hostLondon (Some "2024-03-31")) = Return "2024-03-31" /\
  calculateNextDeadline hostLondon (Some "2024-03-31") (legacy daily)
    = Return "2024-03-31".
Proof.
  split; [reflexivity|]. split; vm_compute; reflexivity.
Qed.

(** C3.  West of Greenwich the weekday rule is applied to the wrong day: the
    deadline 2024-01-03, a Wednesday, is Tuesday evening in local time, so
    with Monday and Wednesday selected the routine adds one day and prints
    2024-01-04, a Thursday, where the rule gives the following Monday,
    2024-01-08 (as the same call does in UTC). *)
Theorem weekday_rule_west_of_greenwich :
  option_map ES.WeekDay (parseDateOnly "2024-01-03") = Some 3 /\
  calculateNextDeadline hostEST (Some "2024-01-03") (weeklyOn 1 [1; 3])
    = Return "2024-01-04" /\
  calculateNextDeadline hostUTC (Some "2024-01-03") (weeklyOn 1 [1; 3])
    = Return "2024-01-08".
Proof. repeat split; vm_compute; reflexivity. Qed.

(** C10.  The date returned by the weekday routine can fall on a day that is
    not selected: five hours west of Greenwich, from the instant
    2024-01-03T00:00Z with Monday and Wednesday selected, it returns
    2024-01-04, a Thursday. *)
Theorem weekday_occurrence_on_unselected_day :
  findNextWeekdayOccurrence hostEST (Some 1704240000000) 1 [1; 3]
    = Return "2024-01-04" /\
  option_map ES.WeekDay (parseDateOnly "2024-01-04") = Some 4 /\
  includes [1; 3] 4 = false.
Proof. repeat split; vm_compute; reflexivity. Qed.

(** ** Description generator *)

Section DescriptionFacts.

Lemma Z_to_string_head (z : Z) :
  exists c r, Z_to_string z = String c r /\ c <> "W"%char.
Proof.
  unfold Z_to_string.
  destruct (Z.to_int z) as [d|d]; destruct d; simpl;
    eexists; eexists; (split; [reflexivity | discriminate]).
Qed.

Lemma Z_to_string_append_head (z : Z) (s r : string) :
  Z_to_string z ++ s <> String "W" r.
Proof.
  destruct (Z_to_string_head z) as (c & r' & E & Hc).
  rewrite E. simpl. intros H. injection H as H _. contradiction.
Qed.

Lemma everyIsIndexPlusOne_five (a : list Z) :
  Z.of_nat (List.length a) = 5 -> everyIsIndexPlusOne 0 a = true ->
  a = [1; 2; 3; 4; 5].
Proof.
  destruct a as [|a1 [|a2 [|a3 [|a4 [|a5 [|a6 a]]]]]]; simpl List.length;
    try lia.
  intros _. cbn [everyIsIndexPlusOne]. rewrite !andb_true_iff, !Z.eqb_eq.
  intros (-> & -> & -> & -> & -> & _). reflexivity.
Qed.

Lemma includes_two (a : list Z) :
  Z.of_nat (List.length a) = 2 -> includes a 0 = true -> includes a 6 = true ->
  a = [0; 6] \/ a = [6; 0].
Proof.
  destruct a as [|a1 [|a2 [|a3 a]]]; simpl List.length; try lia.
  intros _. unfold includes. cbn [existsb].
  rewrite !orb_false_r, !orb_true_iff, !Z.eqb_eq.
  intros [<-|<-] [E|E]; try discriminate; subst; auto.
Qed.

Lemma RecurrenceUnit_week_dec (u : RecurrenceUnit) (w : option (list Z)) :
  (u = week /\ exists wd, w = Some wd /\ wd <> []) \/
  (u <> week \/ w = None \/ w = Some []).
Proof.
  destruct u; try (right; left; discriminate).
  destruct w as [[|a wd]|]; [right; right; right; reflexivity | | right; right; left; reflexivity].
  left. split; [reflexivity|]. exists (a :: wd). split; [reflexivity|discriminate].
Qed.

(** The description of a weekly pattern with selected days and interval 1. *)
Lemma description_weekly_days (wd : list Z) (md : option Z) :
  wd <> [] ->
  getRecurrenceDescription
    (flexible {| interval := 1; unit_ := week; weekDays := Some wd; monthDay := md |})
  = if (Z.of_nat (List.length wd) =? 5) && everyIsIndexPlusOne 0 wd then "Weekdays"
    else if (Z.of_nat (List.length wd) =? 2) && includes wd 0 && includes wd 6
         then "Weekends"
         else "Every " ++ join ", " (map (index DAY_NAMES) wd).
Proof.
  intros H. destruct wd as [|a wd]; [contradiction|]. reflexivity.
Qed.

End DescriptionFacts.

(** C9.  With interval 1, the weekly pattern on Sunday and Saturday is
    described as exactly "Weekends", the one on Monday to Friday (in
    ascending order) as exactly "Weekdays", and no other flexible pattern
    with interval 1 has either description: "Weekdays" is produced only by
    the list 1,2,3,4,5 and "Weekends" only by a two-element list holding 0
    and 6. *)
Theorem weekend_and_weekday_descriptions :
  (forall md, getRecurrenceDescription
     (flexible {| interval := 1; unit_ := week;
                  weekDays := Some [0; 6]; monthDay := md |}) = "Weekends") /\
  (forall md, getRecurrenceDescription
     (flexible {| interval := 1; unit_ := week;
                  weekDays := Some [1; 2; 3; 4; 5]; monthDay := md |}) = "Weekdays") /\
  (forall u w md,
     getRecurrenceDescription
       (flexible {| interval := 1; unit_ := u; weekDays := w; monthDay := md |})
       = "Weekends"
     <-> u = week /\ (w = Some [0; 6] \/ w = Some [6; 0])) /\
  (forall u w md,
     getRecurrenceDescription
       (flexible {| interval := 1; unit_ := u; weekDays := w; monthDay := md |})
       = "Weekdays"
     <-> u = week /\ w = Some [1; 2; 3; 4; 5]).
Proof.
  assert (Other : forall u w md s r,
    (u <> week \/ w = None \/ w = Some []) ->
    getRecurrenceDescription
      (flexible {| interval := 1; unit_ := u; weekDays := w; monthDay := md |})
      = String "W" (String "e" (String "e" (String "k" (String s r)))) -> s = "l"%char).
  { intros u w md s r Hw.
    assert (E : getRecurrenceDescription
      (flexible {| interval := 1; unit_ := u; weekDays := w; monthDay := md |})
      = match u, md with
        | month, Some m =>
            if m =? 0 then "Monthly"
            else Z_to_string m ++ getOrdinalSuffix m ++ " of each month"
        | day, _ => "Daily" | week, _ => "Weekly"
        | month, None => "Monthly" | year, _ => "Yearly"
        end).
    { destruct u, w as [[|a w]|], md as [m|]; try reflexivity;
        destruct Hw as [Hw|[Hw|Hw]]; congruence. }
    rewrite E. clear E.
    destruct u, md as [m|]; try discriminate;
      try (intros H; injection H as <- _; reflexivity).
    destruct (m =? 0); [discriminate|].
    intros H. exfalso. exact (Z_to_string_append_head _ _ _ H). }
  split; [reflexivity|]. split; [reflexivity|].
  split; intros u w md; (split; [|intros [-> H]]).
  - destruct (RecurrenceUnit_week_dec u w) as [(-> & wd & -> & Hwd)|Hn].
    + rewrite description_weekly_days by exact Hwd.
      destruct (Z.eqb_spec (Z.of_nat (List.length wd)) 5) as [E5|E5]; simpl.
      * destruct (everyIsIndexPlusOne 0 wd); simpl; [discriminate|].
        destruct (Z.eqb_spec (Z.of_nat (List.length wd)) 2); [lia|]. discriminate.
      * destruct (Z.eqb_spec (Z.of_nat (List.length wd)) 2) as [E2|E2]; simpl;
          [|discriminate].
        destruct (includes wd 0) eqn:I0; simpl; [|discriminate].
        destruct (includes wd 6) eqn:I6; simpl; [|discriminate].
        intros _. split; [reflexivity|].
        destruct (includes_two wd E2 I0 I6) as [->| ->]; auto.
    + intros H. apply Other in H; [discriminate|exact Hn].
  - destruct H as [->| ->]; reflexivity.
  - destruct (RecurrenceUnit_week_dec u w) as [(-> & wd & -> & Hwd)|Hn].
    + rewrite description_weekly_days by exact Hwd.
      destruct (Z.eqb_spec (Z.of_nat (List.length wd)) 5) as [E5|E5]; simpl.
      * destruct (everyIsIndexPlusOne 0 wd) eqn:Ev; simpl.
        -- intros _. rewrite (everyIsIndexPlusOne_five wd E5 Ev). auto.
        -- destruct (Z.eqb_spec (Z.of_nat (List.length wd)) 2); [lia|]. discriminate.
      * destruct ((Z.of_nat (List.length wd) =? 2) && includes wd 0 && includes wd 6);
          discriminate.
    + intros H. apply Other in H; [discriminate|exact Hn].
  - subst w. reflexivity.
Qed.

(** ** Form converters *)

Lemma roundtrip_legacy (p : LegacyRecurrencePattern) :
  buildRecurrenceConfig (parseRecurrenceToFormState (legacy p)) = legacy p.
Proof. reflexivity. Qed.

Lemma roundtrip_null :
  buildRecurrenceConfig (parseRecurrenceToFormState null) = null.
Proof. reflexivity. Qed.

(** What a flexible configuration looks like after the round trip: fields a
    consumer ignores are dropped. *)
Lemma roundtrip_flexible (config : RecurrenceConfig) :
  buildRecurrenceConfig (parseRecurrenceToFormState (flexible config))
  = flexible
      {| interval := interval config;
         unit_ := unit_ config;
         weekDays := match unit_ config, weekDays config with
                     | week, Some (_ :: _) => weekDays config
                     | _, _ => None
                     end;
         monthDay := match unit_ config, monthDay config with
                     | month, Some m => if m =? 0 then None else Some m
                     | _, _ => None
                     end |}.
Proof.
  destruct config as [n u w md]. unfold buildRecurrenceConfig. simpl.
  f_equal. f_equal.
  - destruct u, w as [[|a w]|]; reflexivity.
  - destruct u, md as [m|]; try reflexivity. simpl. destruct (m =? 0); reflexivity.
Qed.

(** Consumers ignore [weekDays] unless the unit is week, and [monthDay]
    unless the unit is month: whatever stands there, the description and
    the next occurrence are the same. *)
Lemma fields_of_other_units_ignored
    (host : Host) (n : Z) (u : RecurrenceUnit)
    (w w' : option (list Z)) (md md' : option Z) :
  let other := flexible {| interval := n; unit_ := u;
                           weekDays := if isWeek u then w else w';
                           monthDay := if isMonth u then md else md' |} in
  let given := flexible {| interval := n; unit_ := u;
                           weekDays := w; monthDay := md |} in
  getRecurrenceDescription other = getRecurrenceDescription given /\
  forall currentDeadline,
    calculateNextDeadline host currentDeadline other
    = calculateNextDeadline host currentDeadline given.
Proof.
  destruct u; simpl; split; reflexivity.
Qed.

(** The round trip changes neither the description nor the next
    occurrence, as long as [monthDay] is not 0. *)
Lemma roundtrip_equivalent_nonzero
    (host : Host) (recurrence : TaskRecurrence) :
  monthDayNonZero recurrence ->
  let rebuilt := buildRecurrenceConfig (parseRecurrenceToFormState recurrence) in
  getRecurrenceDescription rebuilt = getRecurrenceDescription recurrence /\
  forall currentDeadline,
    calculateNextDeadline host currentDeadline rebuilt
    = calculateNextDeadline host currentDeadline recurrence.
Proof.
  intros Hmd. destruct recurrence as [p|config|].
  - rewrite roundtrip_legacy. simpl. auto.
  - rewrite roundtrip_flexible. simpl in Hmd.
    destruct config as [n u w md]. simpl in *.
    destruct u, w as [[|a w]|], md as [m|]; simpl; try (split; reflexivity).
    all: destruct m as [|m|m]; [congruence| |]; split; reflexivity.
  - rewrite roundtrip_null. simpl. auto.
Qed.

Lemma validRecurrence_monthDayNonZero (recurrence : TaskRecurrence) :
  validRecurrence recurrence = true -> monthDayNonZero recurrence.
Proof.
  destruct recurrence as [p|config|]; simpl; auto.
  unfold validConfig. destruct (monthDay config) as [m|]; [|discriminate].
  rewrite !andb_true_iff. intros (_ & Hm & _) E. injection E as ->.
  discriminate.
Qed.

(** With [monthDay] 0, which the data model excludes and the form builder
    reads as "not set", the calculator does see a difference. *)
Lemma roundtrip_monthDay_zero :
  buildRecurrenceConfig (parseRecurrenceToFormState (monthlyOn 0))
  = flexible {| interval := 1; unit_ := month; weekDays := None; monthDay := None |} /\
  calculateNextDeadline hostUTC (Some "2024-03-10") (monthlyOn 0)
  = Return "2024-03-31" /\
  calculateNextDeadline hostUTC (Some "2024-03-10")
    (buildRecurrenceConfig (parseRecurrenceToFormState (monthlyOn 0)))
  = Return "2024-04-10".
Proof. repeat split; vm_compute; reflexivity. Qed.

(** C4.  For every recurrence value of the data model (a legacy pattern, a
    flexible configuration within its invariants, or no recurrence),
    parsing it into the form state and building it back gives a value with
    the same description and the same next occurrence for every deadline,
    in every host. *)
Theorem form_roundtrip_equivalent
    (host : Host) (recurrence : TaskRecurrence)
    (Hvalid : validRecurrence recurrence = true) :
  let rebuilt := buildRecurrenceConfig (parseRecurrenceToFormState recurrence) in
  getRecurrenceDescription rebuilt = getRecurrenceDescription recurrence /\
  forall currentDeadline,
    calculateNextDeadline host currentDeadline rebuilt
    = calculateNextDeadline host currentDeadline recurrence.
Proof.
  apply roundtrip_equivalent_nonzero, validRecurrence_monthDayNonZero, Hvalid.
Qed.

Lemma form_roundtrip_equivalent_witness :
  validRecurrence (monthlyOn 31) = true /\
  getRecurrenceDescription
    (buildRecurrenceConfig (parseRecurrenceToFormState (monthlyOn 31)))
  = "31st of each month" /\
  calculateNextDeadline hostUTC (Some "2024-03-10")
    (buildRecurrenceConfig (parseRecurrenceToFormState (monthlyOn 31)))
  = calculateNextDeadline hostUTC (Some "2024-03-10") (monthlyOn 31).
Proof.
  assert (H : validRecurrence (monthlyOn 31) = true) by reflexivity.
  split; [exact H|].
  destruct (form_roundtrip_equivalent hostUTC (monthlyOn 31) H) as [Hd Hc].
  split; [rewrite Hd; reflexivity | apply Hc].
Defined.

(** ** Validator *)

Section ValidatorFacts.

Lemma validateRecurrence_object (props : list (string * JsVal)) :
  validateRecurrence (JObject props) =
  Return
    match lookup "interval" props with
    | JNumber n =>
        if jsLt n (ofZ 1) then JNull
        else if negb (includesString validUnits (lookup "unit" props)) then JNull
        else JObject
               ([("interval", JNumber (clampInterval n));
                 ("unit", lookup "unit" props)]
                ++ validatedWeekDays (lookup "weekDays" props)
                ++ validatedMonthDay (lookup "monthDay" props))%list
    | _ => JNull
    end.
Proof.
  unfold validateRecurrence. simpl.
  destruct (lookup "interval" props) as [| | |n| | |]; try reflexivity.
  destruct (jsLt n (ofZ 1)); [reflexivity|].
  destruct (includesString validUnits (lookup "unit" props)); reflexivity.
Qed.

Lemma validateRecurrence_string (s : string) :
  validateRecurrence (JString s) =
  Return (if existsb (String.eqb s) validLegacy then JString s else JNull).
Proof. reflexivity. Qed.


End ValidatorFacts.


(** ** De-duplication and sorting of the selected days *)

Section DayLists.
Local Open Scope Q_scope.

Lemma existsb_Qeq_false (x : Q) (l : list Q) :
  existsb (Qeq_bool x) l = false <-> fresh x l.
Proof.
  unfold fresh. split.
  - intros H y Hy E. apply Qeq_bool_iff in E.
    assert (existsb (Qeq_bool x) l = true) by (apply existsb_exists; eauto).
    congruence.
  - intros H. destruct (existsb (Qeq_bool x) l) eqn:E; [|reflexivity].
    apply existsb_exists in E. destruct E as (y & Hy & E).
    apply Qeq_bool_iff in E. exfalso. exact (H y Hy E).
Qed.

Lemma Distinct_snoc (l : list Q) (x : Q) :
  Distinct l -> fresh x l -> Distinct (l ++ [x]).
Proof.
  induction 1 as [|y l Hy Hl IH]; intros Hx; simpl.
  - constructor; [intros ? []|constructor].
  - constructor.
    + intros z Hz. apply in_app_or in Hz. destruct Hz as [Hz|[<-|[]]].
      * exact (Hy z Hz).
      * intros E. apply (Hx y); [left; reflexivity | symmetry; exact E].
    + apply IH. intros z Hz. apply Hx. right. exact Hz.
Qed.

Lemma setAdd_cases (seen : list Q) (x : Q) :
  (setAdd seen x = seen /\ ~ fresh x seen) \/
  (setAdd seen x = (seen ++ [x])%list /\ fresh x seen).
Proof.
  unfold setAdd. destruct (existsb (Qeq_bool x) seen) eqn:E.
  - left. split; [reflexivity|]. intros H. apply existsb_Qeq_false in H. congruence.
  - right. split; [reflexivity|]. apply existsb_Qeq_false. exact E.
Qed.

Lemma fold_setAdd_spec (a seen : list Q) :
  Distinct seen ->
  Distinct (fold_left setAdd a seen) /\
  (forall x, In x (fold_left setAdd a seen) -> In x seen \/ In x a) /\
  (forall x, In x seen -> In x (fold_left setAdd a seen)).
Proof.
  revert seen. induction a as [|x a IH]; intros seen Hd; simpl.
  - auto.
  - destruct (setAdd_cases seen x) as [[E _]|[E Hx]]; rewrite E.
    + destruct (IH seen Hd) as (H1 & H2 & H3). split; [exact H1|]. split; [|exact H3].
      intros y Hy. destruct (H2 y Hy); auto.
    + destruct (IH _ (Distinct_snoc seen x Hd Hx)) as (H1 & H2 & H3).
      split; [exact H1|]. split.
      * intros y Hy. destruct (H2 y Hy) as [H|H]; auto.
        apply in_app_or in H. destruct H as [H|[<-|[]]]; auto.
      * intros y Hy. apply H3. apply in_or_app. left. exact Hy.
Qed.

Lemma newSet_Distinct (a : list Q) : Distinct (newSet a).
Proof. apply (fold_setAdd_spec a []). constructor. Qed.

Lemma newSet_In (a : list Q) (x : Q) : In x (newSet a) -> In x a.
Proof.
  intros H. destruct (fold_setAdd_spec a [] Distinct_nil) as (_ & H2 & _).
  destruct (H2 x H) as [[]|H']. exact H'.
Qed.

Lemma newSet_nonempty (a : list Q) : a <> [] -> newSet a <> [].
Proof.
  destruct a as [|x a]; [congruence|]. intros _.
  change (newSet (x :: a)) with (fold_left setAdd a [x]).
  destruct (fold_setAdd_spec a [x]) as (_ & _ & H3).
  { constructor; [intros ? []|constructor]. }
  intros E. specialize (H3 x (or_introl eq_refl)). rewrite E in H3. exact H3.
Qed.

Lemma Ascending_Distinct (l : list Q) : Ascending l -> Distinct l.
Proof.
  induction 1 as [|x l Hx Hl IH]; constructor; [|exact IH].
  intros y Hy. apply Qlt_not_eq. exact (Hx y Hy).
Qed.

Lemma insertSortedQ_In (x y : Q) (l : list Q) :
  In y (insertSortedQ x l) <-> y = x \/ In y l.
Proof.
  induction l as [|z l IH]; simpl.
  - intuition.
  - destruct (Qle_bool x z); simpl; rewrite ?IH; intuition.
Qed.

Lemma insertSortedQ_Ascending (x : Q) (l : list Q) :
  Ascending l -> fresh x l -> Ascending (insertSortedQ x l).
Proof.
  induction 1 as [|z l Hz Hl IH]; intros Hx; simpl.
  - constructor; [intros ? []|constructor].
  - destruct (Qle_bool x z) eqn:E.
    + assert (Hxz : x < z).
      { apply Qle_bool_iff in E. apply Qnot_le_lt. intros Hzx.
        apply (Hx z); [left; reflexivity|]. apply Qle_antisym; assumption. }
      constructor; [|constructor; assumption].
      intros y [<-|Hy]; [exact Hxz|]. apply Qlt_trans with z; auto.
    + assert (Hzx : z < x).
      { apply Qnot_le_lt. intros H. apply Qle_bool_iff in H. congruence. }
      constructor.
      * intros y Hy. apply insertSortedQ_In in Hy. destruct Hy as [->|Hy]; auto.
      * apply IH. intros y Hy. apply Hx. right. exact Hy.
Qed.

Lemma sortAscendingQ_In (l : list Q) (y : Q) :
  In y (sortAscendingQ l) <-> In y l.
Proof.
  induction l as [|x l IH]; simpl; [tauto|].
  rewrite insertSortedQ_In, IH. intuition.
Qed.

Lemma sortAscendingQ_Ascending (l : list Q) :
  Distinct l -> Ascending (sortAscendingQ l).
Proof.
  induction 1 as [|x l Hx Hl IH]; simpl; [constructor|].
  apply insertSortedQ_Ascending; [exact IH|].
  intros y Hy. apply Hx. apply sortAscendingQ_In. exact Hy.
Qed.

Lemma sortAscendingQ_nonempty (l : list Q) : l <> [] -> sortAscendingQ l <> [].
Proof.
  destruct l as [|x l]; [congruence|]. intros _ E.
  assert (H : In x (sortAscendingQ (x :: l)))
    by (apply sortAscendingQ_In; left; reflexivity).
  rewrite E in H. exact H.
Qed.

(** A strictly ascending list is left as it is by both steps. *)
Lemma fold_setAdd_Ascending (l seen : list Q) :
  Ascending (seen ++ l) -> fold_left setAdd l seen = (seen ++ l)%list.
Proof.
  revert seen. induction l as [|x l IH]; intros seen H; simpl.
  - rewrite app_nil_r. reflexivity.
  - assert (Hx : fresh x seen).
    { clear IH. induction seen as [|z seen IHs]; [intros ? []|].
      simpl in H. inversion H as [|? ? Hz Hrest]; subst.
      intros y [<-|Hy].
      - intros E. apply (Qlt_not_eq z x); [|symmetry; exact E].
        apply Hz. apply in_or_app. right. left. reflexivity.
      - exact (IHs Hrest y Hy). }
    destruct (setAdd_cases seen x) as [[_ Hn]|[E _]]; [contradiction|].
    rewrite E, IH; rewrite <- app_assoc; [reflexivity | exact H].
Qed.

Lemma newSet_Ascending (l : list Q) : Ascending l -> newSet l = l.
Proof. intros H. apply (fold_setAdd_Ascending l []). exact H. Qed.

Lemma sortAscendingQ_Ascending_id (l : list Q) :
  Ascending l -> sortAscendingQ l = l.
Proof.
  induction 1 as [|x l Hx Hl IH]; simpl; [reflexivity|].
  rewrite IH. destruct l as [|y l]; [reflexivity|]. simpl.
  assert (H : Qle_bool x y = true).
  { apply Qle_bool_iff, Qlt_le_weak, Hx. left. reflexivity. }
  rewrite H. reflexivity.
Qed.

End DayLists.

(** ** What the validator returns for a configuration object *)

Section ValidatedFields.
Local Open Scope Q_scope.

Lemma jsLe_ofZ (a b : Z) : jsLe (ofZ a) (ofZ b) = (a <=? b)%Z.
Proof. unfold jsLe, ofZ, Qle_bool. simpl. rewrite !Z.mul_1_r. reflexivity. Qed.

Lemma validDay_Some (d : JsVal) (q : Q) :
  validDay d = Some q <-> d = JNumber (Fin q) /\ inDayRange q.
Proof.
  unfold validDay, inDayRange. split.
  - destruct d as [| | |[| |x|]| | |]; try discriminate.
    destruct (jsLe (ofZ 0) (Fin x) && jsLe (Fin x) (ofZ 6)) eqn:E; [|discriminate].
    intros H. injection H as <-. apply andb_true_iff in E. destruct E as [E1 E2].
    simpl in E1, E2. apply Qle_bool_iff in E1, E2. auto.
  - intros (-> & H0 & H6). apply Qle_bool_iff in H0, H6.
    simpl. change (inject_Z 0) with 0. change (inject_Z 6) with 6.
    rewrite H0, H6. reflexivity.
Qed.

Lemma filterValidDays_range (a : list JsVal) (q : Q) :
  In q (filterValidDays a) -> inDayRange q.
Proof.
  induction a as [|d a IH]; simpl; [intros []|].
  destruct (validDay d) as [x|] eqn:E; [|exact IH].
  intros [<-|H]; [|exact (IH H)]. apply validDay_Some in E. tauto.
Qed.

Lemma filterValidDays_numbers (l : list Q) :
  (forall q, In q l -> inDayRange q) ->
  filterValidDays (map (fun q => JNumber (Fin q)) l) = l.
Proof.
  induction l as [|x l IH]; intros H; cbn [map filterValidDays]; [reflexivity|].
  assert (E : validDay (JNumber (Fin x)) = Some x).
  { apply validDay_Some. split; [reflexivity|]. apply H. left. reflexivity. }
  rewrite E, IH; [reflexivity|]. intros q Hq. apply H. right. exact Hq.
Qed.

Lemma validatedWeekDays_cases (weekDays : JsVal) :
  validatedWeekDays weekDays = [] \/
  exists l, validatedWeekDays weekDays = [("weekDays", numbers l)] /\ goodDays l.
Proof.
  destruct weekDays as [| | | | |[|d elems]|]; try (left; reflexivity).
  unfold validatedWeekDays.
  destruct (filterValidDays (d :: elems)) as [|x a] eqn:E; [left; reflexivity|].
  right. exists (sortAscendingQ (newSet (x :: a))). split; [reflexivity|].
  split; [|split].
  - apply sortAscendingQ_nonempty, newSet_nonempty. discriminate.
  - apply sortAscendingQ_Ascending, newSet_Distinct.
  - intros q Hq. apply sortAscendingQ_In, newSet_In in Hq.
    apply (filterValidDays_range (d :: elems)). rewrite E. exact Hq.
Qed.

Lemma validatedWeekDays_good (l : list Q) :
  goodDays l -> validatedWeekDays (numbers l) = [("weekDays", numbers l)].
Proof.
  intros (Hne & Hasc & Hr). unfold validatedWeekDays, numbers.
  destruct l as [|x l]; [congruence|].
  change (map (fun q => JNumber (Fin q)) (x :: l))
    with (JNumber (Fin x) :: map (fun q => JNumber (Fin q)) l).
  change (JNumber (Fin x) :: map (fun q => JNumber (Fin q)) l)
    with (map (fun q => JNumber (Fin q)) (x :: l)).
  rewrite filterValidDays_numbers by exact Hr.
  rewrite newSet_Ascending, sortAscendingQ_Ascending_id by exact Hasc.
  reflexivity.
Qed.

Lemma validatedMonthDay_cases (monthDay : JsVal) :
  validatedMonthDay monthDay = [] \/
  exists m, monthDay = JNumber (Fin m) /\ 1 <= m /\ m <= 31 /\
            validatedMonthDay monthDay = [("monthDay", monthDay)].
Proof.
  destruct monthDay as [| | |m| | |]; try (left; reflexivity).
  unfold validatedMonthDay.
  destruct (jsLe (ofZ 1) m && jsLe m (ofZ 31)) eqn:E; [|left; reflexivity].
  apply andb_true_iff in E. destruct E as [E1 E2].
  destruct m as [| |q|]; try discriminate.
  right. exists q. simpl in E1, E2. apply Qle_bool_iff in E1, E2. auto.
Qed.

(** The clamped interval: an integer from 1 to 99, or NaN for NaN. *)
Lemma clampInterval_cases (n : JsNum) :
  jsLt n (ofZ 1) = false ->
  (n = NaN /\ clampInterval n = NaN) \/
  (exists k, (1 <= k <= 99)%Z /\ clampInterval n = ofZ k).
Proof.
  destruct n as [| |q|]; intros H.
  - left. split; reflexivity.
  - discriminate.
  - right. simpl in H. apply negb_false_iff, Qle_bool_iff in H.
    assert (Hk : (1 <= Qfloor q)%Z).
    { apply Qfloor_resp_le in H. rewrite Qfloor_Z in H. exact H. }
    unfold clampInterval, Math_floor. fold (ofZ (Qfloor q)).
    unfold Math_minN. cbn [ofZ]. fold (ofZ 99). fold (ofZ (Qfloor q)).
    rewrite jsLe_ofZ. destruct (Z.leb_spec 99 (Qfloor q)).
    + exists 99%Z. split; [lia|]. reflexivity.
    + exists (Qfloor q). split; [lia|].
      unfold Math_maxN. cbn [ofZ]. fold (ofZ 1). fold (ofZ (Qfloor q)).
      rewrite jsLe_ofZ. destruct (Z.leb_spec 1 (Qfloor q)); [reflexivity|lia].
  - right. exists 99%Z. split; [lia|]. reflexivity.
Qed.

Lemma clampInterval_fixed (k : Z) :
  (1 <= k <= 99)%Z ->
  jsLt (ofZ k) (ofZ 1) = false /\ clampInterval (ofZ k) = ofZ k.
Proof.
  intros Hk. split.
  - unfold jsLt. cbn [ofZ]. fold (ofZ 1). fold (ofZ k). rewrite jsLe_ofZ.
    destruct (Z.leb_spec 1 k); [reflexivity|lia].
  - unfold clampInterval, Math_floor. cbn [ofZ]. rewrite Qfloor_Z.
    fold (ofZ k). unfold Math_minN. cbn [ofZ]. fold (ofZ 99). fold (ofZ k).
    rewrite jsLe_ofZ. destruct (Z.leb_spec 99 k).
    + replace k with 99%Z by lia. reflexivity.
    + unfold Math_maxN. cbn [ofZ]. fold (ofZ 1). fold (ofZ k).
      rewrite jsLe_ofZ. destruct (Z.leb_spec 1 k); [reflexivity|lia].
Qed.

End ValidatedFields.

Section Idempotence.

Lemma clampInterval_idempotent (n : JsNum) :
  jsLt n (ofZ 1) = false ->
  jsLt (clampInterval n) (ofZ 1) = false /\
  clampInterval (clampInterval n) = clampInterval n.
Proof.
  intros H. destruct (clampInterval_cases n H) as [[-> _]|(k & Hk & E)].
  - split; reflexivity.
  - rewrite E. apply clampInterval_fixed. exact Hk.
Qed.

(** The result for a configuration object is validated to itself. *)
Lemma validateRecurrence_validated (n : JsNum) (unit weekDays monthDay : JsVal) :
  jsLt n (ofZ 1) = false ->
  includesString validUnits unit = true ->
  let validated :=
    JObject ([("interval", JNumber (clampInterval n)); ("unit", unit)]
             ++ validatedWeekDays weekDays ++ validatedMonthDay monthDay)%list in
  validateRecurrence validated = Return validated.
Proof.
  intros Hn Hu validated. subst validated.
  destruct (clampInterval_idempotent n Hn) as [Hlt Hfix].
  rewrite validateRecurrence_object.
  destruct (validatedWeekDays_cases weekDays) as [EW|(l & EW & Hl)];
  destruct (validatedMonthDay_cases monthDay) as [EM|(m & -> & _ & _ & EM)];
  rewrite EW, EM; cbn [app lookup String.eqb Ascii.eqb Bool.eqb andb];
  rewrite Hlt, Hu, Hfix; cbn [negb];
  rewrite ?(validatedWeekDays_good l Hl), ?EM; reflexivity.
Qed.

End Idempotence.

(** C5.  Validating the result of the validator gives that same result
    again, for every raw input. *)
Theorem validateRecurrence_idempotent (rec : JsVal) :
  (v <- validateRecurrence rec ;; validateRecurrence v) = validateRecurrence rec.
Proof.
  destruct rec as [| |b|n|s|elems|props]; try reflexivity.
  - rewrite validateRecurrence_string.
    destruct (existsb (String.eqb s) validLegacy) eqn:E; [|reflexivity].
    cbn [bind]. rewrite validateRecurrence_string, E. reflexivity.
  - rewrite validateRecurrence_object. cbn [bind].
    destruct (lookup "interval" props) as [| | |n| | |]; try reflexivity.
    destruct (jsLt n (ofZ 1)) eqn:Hn; [reflexivity|].
    destruct (includesString validUnits (lookup "unit" props)) eqn:Hu;
      [|reflexivity].
    cbn [negb]. apply validateRecurrence_validated; assumption.
Qed.

(** ** Invariants of a validated configuration *)




(** ** When the calculator returns *)

Section Bounds.
Import ES ESFacts.
Context (host : Host) (Hzone : zoneBounded host).


Lemma returnsDate_returns (result : Exc string) :
  returnsDate result -> returns result.
Proof. intros (t & _ & ->). eexists. reflexivity. Qed.





Lemma getDaysInMonth_near (t n : Z) :
  Z.abs t <= safeTime + n * msPerDay ->
  0 <= n -> n + 696480 <= room ->
  exists v, getDaysInMonth host (Some t) = Some v /\ 1 <= v <= 31.
Proof.
  intros Ht Hn Hroom. unfold getDaysInMonth.
  cbn [getFullYear getMonth option_map nadd newDateYMD].
  set (lt := LocalTime host t).
  set (yr := if (0 <=? YearFromTime lt) && (YearFromTime lt <=? 99)
             then 1900 + YearFromTime lt else YearFromTime lt).
  assert (Hyr : Z.abs (yr - YearFromTime lt) <= 1900)
    by (subst yr; destruct ((0 <=? YearFromTime lt) && (YearFromTime lt <=? 99)); lia).
  pose proof (MakeDay_near lt (yr - YearFromTime lt) (MonthFromTime lt + 1) 0) as H.
  replace (YearFromTime lt + (yr - YearFromTime lt)) with yr in H by lia.
  pose proof (MonthFromTime_range lt).
  assert (0 <= (MonthFromTime lt + 1) / 12 <= 1) by (Z.div_mod_to_equations; lia).
  remember (MakeDay yr (MonthFromTime lt + 1) 0) as d eqn:Hd.
  change (MakeTime 0 0 0 0) with 0.
  pose proof (Hzone t true) as Z1.
  pose proof (Hzone (MakeDate d 0) false) as Z2.
  pose proof (MakeDate_Day lt) as E. pose proof (TimeWithinDay_range lt) as Htw.
  rewrite TimeClip_in_range.
  - eexists. split; [reflexivity|]. apply DateFromTime_range.
  - unfold UTC. remember (LocalTZA host (MakeDate d 0) false) as z2.
    subst lt. unfold LocalTime in *. remember (LocalTZA host t true) as z1.
    remember (Day (t + z1)) as d0. remember (TimeWithinDay (t + z1)) as tw.
    unfold MakeDate, room, maxTime, msPerDay, safeTime in *. lia.
Qed.

End Bounds.

Section SortedDays.

Lemma insertSorted_In (x y : Z) (l : list Z) :
  In y (insertSorted x l) <-> y = x \/ In y l.
Proof.
  induction l as [|z l IH]; simpl.
  - intuition.
  - destruct (x <=? z); simpl; rewrite ?IH; intuition.
Qed.

Lemma sortAscending_In (l : list Z) (y : Z) : In y (sortAscending l) <-> In y l.
Proof.
  induction l as [|x l IH]; simpl; [tauto|].
  rewrite insertSorted_In, IH. intuition.
Qed.

Lemma sortAscending_head (l : list Z) :
  l <> [] -> exists d, nth_error (sortAscending l) 0 = Some d /\ In d l.
Proof.
  intros Hl. destruct (sortAscending l) as [|d s] eqn:E.
  - destruct l as [|x l]; [congruence|].
    assert (H : In x (sortAscending (x :: l)))
      by (apply sortAscending_In; left; reflexivity).
    rewrite E in H. destruct H.
  - exists d. split; [reflexivity|]. apply sortAscending_In. rewrite E.
    left. reflexivity.
Qed.

End SortedDays.

Section WeekdayReturns.
Import ES ESFacts.
Context (host : Host) (Hzone : zoneBounded host).


End WeekdayReturns.

Section CalculatorReturns.
Import ES ESFacts.
Context (host : Host) (Hzone : zoneBounded host).




End CalculatorReturns.

Section Deadlines.
Import ES ESFacts.

Lemma digitVal_range (c : ascii) (v : Z) : digitVal c = Some v -> 0 <= v <= 9.
Proof.
  unfold digitVal.
  destruct ((48 <=? Z.of_nat (nat_of_ascii c)) && (Z.of_nat (nat_of_ascii c) <=? 57))
    eqn:E; [|discriminate].
  intros H. injection H as <-. lia.
Qed.

(** A date-only string denotes a day between the years 0 and 9999. *)
Lemma parseDateOnly_range (s : string) (t : Z) :
  parseDateOnly s = Some t -> Z.abs t <= safeTime.
Proof.
  unfold parseDateOnly.
  destruct (list_ascii_of_string s)
    as [|y1 [|y2 [|y3 [|y4 [|h1 [|m1 [|m2 [|h2 [|d1 [|d2 [|x l]]]]]]]]]]];
    try discriminate.
  destruct (Ascii.eqb h1 "-" && Ascii.eqb h2 "-"); [|discriminate].
  destruct (digitVal y1) as [a|] eqn:Ea; [|discriminate].
  destruct (digitVal y2) as [b|] eqn:Eb; [|discriminate].
  destruct (digitVal y3) as [c|] eqn:Ec; [|discriminate].
  destruct (digitVal y4) as [e|] eqn:Ee; [|discriminate].
  destruct (digitVal m1) as [f|] eqn:Ef; [|discriminate].
  destruct (digitVal m2) as [g|] eqn:Eg; [|discriminate].
  destruct (digitVal d1) as [h|] eqn:Eh; [|discriminate].
  destruct (digitVal d2) as [i|] eqn:Ei; [|discriminate].
  apply digitVal_range in Ea, Eb, Ec, Ee, Ef, Eg, Eh, Ei.
  cbv zeta.
  set (y := 1000 * a + 100 * b + 10 * c + e).
  set (m := 10 * f + g). set (dd := 10 * h + i).
  destruct ((1 <=? m) && (m <=? 12) && (1 <=? dd)
            && (MonthFromTime (MakeDate (MakeDay y (m - 1) dd) 0) =? m - 1)) eqn:E;
    [|discriminate].
  intros H. injection H as <-.
  rewrite !andb_true_iff in E. destruct E as [[[Hm1 Hm2] Hd] _].
  assert (Hdiv : (m - 1) / 12 = 0) by (Z.div_mod_to_equations; lia).
  unfold MakeDay. rewrite Hdiv, Z.add_0_r.
  pose proof (DayFromYear_lower y). pose proof (DayFromYear_upper y).
  assert (Hl : 0 <= (if DaysInYear y =? 366 then 1 else 0) <= 1)
    by (destruct (DaysInYear y =? 366); lia).
  pose proof (monthStart_range _ ((m - 1) mod 12) Hl).
  unfold MakeDate, msPerDay, safeTime. subst y dd. lia.
Qed.


End Deadlines.





(** ** The weekday rule *)

Section WeekdayRule.

Lemma fold_min_spec (l : list Z) (a : Z) :
  let r := fold_left Z.min l a in
  (r = a \/ In r l) /\ r <= a /\ forall x, In x l -> r <= x.
Proof.
  revert a. induction l as [|y l IH]; intros a; simpl.
  - split; [left; reflexivity|]. split; [lia|]. intros x [].
  - destruct (IH (Z.min a y)) as (H1 & H2 & H3).
    remember (fold_left Z.min l (Z.min a y)) as r. split; [|split].
    + destruct H1 as [H1|H1]; [|auto].
      destruct (Z.min_spec a y) as [[_ E]|[_ E]]; rewrite E in H1;
        [left; exact H1 | right; left; symmetry; exact H1].
    + lia.
    + intros x [<-|Hx]; [lia|auto].
Qed.

Lemma smallest_unique (l : list Z) (m : Z) :
  In m l -> (forall x, In x l -> m <= x) -> smallest l = Some m.
Proof.
  destruct l as [|a l]; [intros []|]. intros Hin Hle. simpl. f_equal.
  destruct (fold_min_spec l a) as (H1 & H2 & H3).
  assert (fold_left Z.min l a <= m) by (destruct Hin as [<-|Hin]; auto).
  assert (m <= fold_left Z.min l a).
  { apply Hle. destruct H1 as [->|H1]; [left; reflexivity|right; exact H1]. }
  lia.
Qed.

Lemma insertSorted_Sorted (x : Z) (l : list Z) : Sorted l -> Sorted (insertSorted x l).
Proof.
  induction 1 as [|z l Hz Hl IH]; simpl.
  - constructor; [intros ? []|constructor].
  - destruct (Z.leb_spec x z).
    + constructor; [|constructor; assumption].
      intros y [<-|Hy]; [lia|]. specialize (Hz y Hy). lia.
    + constructor; [|exact IH].
      intros y Hy. apply insertSorted_In in Hy. destruct Hy as [->|Hy]; [lia|auto].
Qed.

Lemma sortAscending_Sorted (l : list Z) : Sorted (sortAscending l).
Proof.
  induction l as [|x l IH]; simpl; [constructor|].
  apply insertSorted_Sorted. exact IH.
Qed.

Lemma find_after_Sorted (c : Z) (s : list Z) :
  Sorted s ->
  match find (fun d => c <? d) s with
  | Some d => In d s /\ c < d /\ forall x, In x s -> c < x -> d <= x
  | None => forall x, In x s -> x <= c
  end.
Proof.
  induction 1 as [|z s Hz Hs IH]; simpl.
  - intros x [].
  - destruct (Z.ltb_spec c z).
    + split; [left; reflexivity|]. split; [assumption|].
      intros x [<-|Hx] _; [lia|auto].
    + destruct (find (fun d => c <? d) s) as [d|].
      * destruct IH as (H1 & H2 & H3). split; [right; exact H1|].
        split; [exact H2|]. intros x [<-|Hx] Hc; [lia|auto].
      * intros x [<-|Hx]; [lia|auto].
Qed.

(** The code's search in the sorted list finds the nearest later day. *)
Lemma find_sorted_is_nearest (c : Z) (days : list Z) :
  find (fun d => c <? d) (sortAscending days)
  = smallest (filter (fun d => c <? d) days).
Proof.
  pose proof (find_after_Sorted c _ (sortAscending_Sorted days)) as H.
  destruct (find (fun d => c <? d) (sortAscending days)) as [d|].
  - destruct H as (H1 & H2 & H3). symmetry. apply smallest_unique.
    + apply filter_In. split; [apply sortAscending_In; exact H1|].
      apply Z.ltb_lt. exact H2.
    + intros x Hx. apply filter_In in Hx. destruct Hx as [Hx Hc].
      apply H3; [apply sortAscending_In; exact Hx | apply Z.ltb_lt; exact Hc].
  - destruct (filter (fun d => c <? d) days) as [|x f] eqn:E; [reflexivity|].
    assert (Hx : In x (filter (fun d => c <? d) days)) by (rewrite E; left; reflexivity).
    apply filter_In in Hx. destruct Hx as [Hx Hc]. apply Z.ltb_lt in Hc.
    apply sortAscending_In in Hx. specialize (H x Hx). lia.
Qed.

Lemma head_sorted_is_smallest (days : list Z) :
  nth_error (sortAscending days) 0 = smallest days.
Proof.
  destruct days as [|a days]; [reflexivity|].
  destruct (sortAscending_head (a :: days)) as (d & E & Hd); [discriminate|].
  rewrite E. symmetry. apply smallest_unique; [exact Hd|].
  intros x Hx. apply sortAscending_In in Hx.
  pose proof (sortAscending_Sorted (a :: days)) as Hs.
  destruct (sortAscending (a :: days)) as [|z s]; [discriminate|].
  injection E as ->. inversion Hs; subst.
  destruct Hx as [<-|Hx]; [lia|auto].
Qed.

End WeekdayRule.

(** ** The calculator in a zone without daylight saving time *)

Section FixedZone.
Import ES ESFacts.
Context (host : Host) (offset : Z).
Context (Hfixed : forall t isUTC, LocalTZA host t isUTC = offset).
Context (Hoffset : Z.abs offset <= msPerDay).

Lemma fixed_zoneBounded : zoneBounded host.
Proof. intros t b. rewrite Hfixed. exact Hoffset. Qed.

(** Moving to another day moves the time value by whole days. *)
Lemma moved_fixed (t newDay : Z) :
  Z.abs (t + (newDay - Day (LocalTime host t)) * msPerDay) <= maxTime ->
  TimeClip (UTC host (MakeDate newDay (TimeWithinDay (LocalTime host t))))
  = Some (t + (newDay - Day (LocalTime host t)) * msPerDay).
Proof.
  intros H.
  assert (E : UTC host (MakeDate newDay (TimeWithinDay (LocalTime host t)))
              = t + (newDay - Day (LocalTime host t)) * msPerDay).
  { unfold UTC. rewrite Hfixed.
    pose proof (MakeDate_Day (LocalTime host t)) as E.
    assert (El : LocalTime host t = t + offset)
      by (unfold LocalTime; rewrite Hfixed; reflexivity).
    remember (Day (LocalTime host t)) as d0.
    remember (TimeWithinDay (LocalTime host t)) as tw.
    unfold MakeDate, msPerDay in *. lia. }
  rewrite E. apply TimeClip_in_range. exact H.
Qed.

Lemma setDate_fixed_to (t dt : Z) :
  Z.abs (t + (dt - DateFromTime (LocalTime host t)) * msPerDay) <= maxTime ->
  setDate host (Some t) (Some dt)
  = Some (t + (dt - DateFromTime (LocalTime host t)) * msPerDay).
Proof.
  intros H. unfold setDate.
  assert (E : MakeDay (YearFromTime (LocalTime host t))
                (MonthFromTime (LocalTime host t)) dt - Day (LocalTime host t)
              = dt - DateFromTime (LocalTime host t))
    by (rewrite MakeDay_same_month; lia).
  rewrite moved_fixed; rewrite E; [reflexivity | exact H].
Qed.

Lemma setDate_fixed (t k : Z) :
  Z.abs t <= safeTime -> Z.abs k <= 1000 ->
  setDate host (Some t) (Some (DateFromTime (LocalTime host t) + k))
  = Some (t + k * msPerDay).
Proof.
  intros Ht Hk. rewrite setDate_fixed_to;
    replace (DateFromTime (LocalTime host t) + k - DateFromTime (LocalTime host t))
      with k by lia; [reflexivity|].
  unfold maxTime, safeTime, msPerDay in *. lia.
Qed.

(** The weekday routine adds the days of the rule, counted from the local
    weekday of the base date. *)
Lemma findNextWeekdayOccurrence_fixed (t n : Z) (days : list Z) :
  Z.abs t <= safeTime ->
  1 <= n <= 99 -> days <> [] ->
  forallb (fun d => (0 <=? d) && (d <=? 6)) days = true ->
  exists k,
    weekdayRuleDays (WeekDay (LocalTime host t)) n days = Some k /\
    1 <= k <= 699 /\
    In ((WeekDay (LocalTime host t) + k) mod 7) days /\
    findNextWeekdayOccurrence host (Some t) n days
    = isoDate (Some (t + k * msPerDay)).
Proof.
  intros Ht Hn Hne Hdays.
  assert (Hrange : forall d, In d days -> 0 <= d <= 6).
  { intros d Hd. rewrite forallb_forall in Hdays. specialize (Hdays d Hd). lia. }
  unfold findNextWeekdayOccurrence, weekdayRuleDays.
  cbn [getDay getDate option_map].
  pose proof (WeekDay_range (LocalTime host t)) as Hc.
  set (c := WeekDay (LocalTime host t)) in *.
  rewrite find_sorted_is_nearest, head_sorted_is_smallest.
  destruct (sortAscending_head days Hne) as (s0 & Es0 & Hs0).
  rewrite head_sorted_is_smallest in Es0. rewrite Es0.
  pose proof (Hrange s0 Hs0) as Hs0r.
  assert (Helse : exists k,
    Some (7 - c + s0 + (n - 1) * 7) = Some k /\ 1 <= k <= 699 /\
    In ((c + k) mod 7) days /\
    isoDate (setDate host (Some t)
      (nadd (nadd (Some (DateFromTime (LocalTime host t)))
                  (nadd (nsub (Some 7) (Some c)) (Some s0)))
            (Some ((n - 1) * 7))))
    = isoDate (Some (t + k * msPerDay))).
  { exists (7 - c + s0 + (n - 1) * 7). split; [reflexivity|]. split; [lia|].
    split.
    - replace ((c + (7 - c + s0 + (n - 1) * 7)) mod 7) with s0
        by (Z.div_mod_to_equations; lia). exact Hs0.
    - cbn [nadd nsub].
      replace (DateFromTime (LocalTime host t) + (7 - c + s0) + (n - 1) * 7)
        with (DateFromTime (LocalTime host t) + (7 - c + s0 + (n - 1) * 7)) by lia.
      rewrite setDate_fixed; [reflexivity | exact Ht | lia]. }
  cbn [option_map].
  destruct (Z.eqb_spec n 1) as [->|Hn1];
    [|destruct (smallest (filter (fun d => c <? d) days)); exact Helse].
  destruct (smallest (filter (fun d => c <? d) days)) as [d|] eqn:Ed.
  -
      assert (Hd : In d (filter (fun d => c <? d) days)).
      { destruct (filter (fun d => c <? d) days) as [|a f]; [discriminate|].
        simpl in Ed. injection Ed as <-.
        destruct (fold_min_spec f a) as ([->|H] & _); [left|right]; auto. }
      apply filter_In in Hd. destruct Hd as [Hd Hcd]. apply Z.ltb_lt in Hcd.
      pose proof (Hrange d Hd).
      exists (d - c). split; [reflexivity|]. split; [lia|]. split.
      * replace ((c + (d - c)) mod 7) with d by (Z.div_mod_to_equations; lia).
        exact Hd.
      * cbn [nadd nsub]. rewrite setDate_fixed; [reflexivity | exact Ht | lia].
  - exact Helse.
Qed.

End FixedZone.

Section FixedZoneMonths.
Import ES ESFacts.
Context (host : Host) (offset : Z).
Context (Hfixed : forall t isUTC, LocalTZA host t isUTC = offset).
Context (Hoffset : Z.abs offset <= msPerDay).

Lemma LocalTime_plus_days (t k : Z) :
  LocalTime host (t + k * msPerDay) = LocalTime host t + k * msPerDay.
Proof. unfold LocalTime. rewrite !Hfixed. lia. Qed.

(** [setMonth] forwards by [i] months moves the date by at least [28 * i]
    days. *)
Lemma setMonth_fixed (t i : Z) :
  Z.abs t <= safeTime -> 1 <= i <= 99 ->
  exists k,
    28 * i <= k <= 4395 /\
    MakeDay 0 (12 * YearFromTime (LocalTime host t)
               + MonthFromTime (LocalTime host t) + i) 1
      <= Day (LocalTime host t) + k /\
    setMonth host (Some t) (Some (MonthFromTime (LocalTime host t) + i))
    = Some (t + k * msPerDay).
Proof.
  intros Ht Hi. set (lt := LocalTime host t).
  set (k := MakeDay (YearFromTime lt) (MonthFromTime lt + i) (DateFromTime lt)
            - Day lt).
  pose proof (MonthFromTime_range lt) as Hm.
  pose proof (DateFromTime_range lt) as Hd.
  pose proof (Day_as_month_start lt) as Eday.
  pose proof (month_start_monotone
                (12 * YearFromTime lt + MonthFromTime lt) i ltac:(lia)) as Hmono.
  assert (Ek : MakeDay (YearFromTime lt) (MonthFromTime lt + i) (DateFromTime lt)
               = MakeDay 0 (12 * YearFromTime lt + MonthFromTime lt + i) 1
                 + (DateFromTime lt - 1)).
  { rewrite MakeDay_index, MakeDay_date. f_equal. f_equal. lia. }
  assert (Hup : k <= 4395).
  { pose proof (MakeDay_near lt 0 (MonthFromTime lt + i) (DateFromTime lt)) as H.
    rewrite Z.add_0_r in H.
    assert (0 <= (MonthFromTime lt + i) / 12 <= 9) by (Z.div_mod_to_equations; lia).
    subst k. lia. }
  assert (Hlow : 28 * i <= k) by (subst k; lia).
  assert (Hb : Z.abs (t + k * msPerDay) <= maxTime)
    by (unfold maxTime, safeTime, msPerDay in *; lia).
  exists k. split; [lia|]. split; [subst k; lia|].
  subst k lt. unfold setMonth.
  rewrite (moved_fixed host offset Hfixed); [reflexivity | exact Hb].
Qed.

(** [setFullYear] forwards by [i] years moves the date by at least
    [365 * i - 1] days. *)
Lemma setFullYear_fixed (t i : Z) :
  Z.abs t <= safeTime -> 1 <= i <= 99 ->
  exists k,
    365 * i - 1 <= k <= 36975 /\
    setFullYear host (Some t) (Some (YearFromTime (LocalTime host t) + i))
    = Some (t + k * msPerDay).
Proof.
  intros Ht Hi.
  pose proof (MonthFromTime_range (LocalTime host t)) as Hm.
  pose proof (DateFromTime_range (LocalTime host t)) as Hd.
  pose proof (MakeDay_years_later (LocalTime host t) i ltac:(lia)) as Hlow.
  pose proof (MakeDay_near (LocalTime host t) i (MonthFromTime (LocalTime host t))
                (DateFromTime (LocalTime host t))) as Hup.
  assert (H0 : MonthFromTime (LocalTime host t) / 12 = 0)
    by (Z.div_mod_to_equations; lia).
  unfold setFullYear.
  remember (MakeDay (YearFromTime (LocalTime host t) + i)
              (MonthFromTime (LocalTime host t))
              (DateFromTime (LocalTime host t))) as d eqn:Ed.
  remember (Day (LocalTime host t)) as d0 eqn:Ed0.
  exists (d - d0). split; [lia|].
  subst d d0. rewrite (moved_fixed host offset Hfixed); [reflexivity|].
  remember (MakeDay (YearFromTime (LocalTime host t) + i)
              (MonthFromTime (LocalTime host t))
              (DateFromTime (LocalTime host t))) as d eqn:Ed.
  remember (Day (LocalTime host t)) as d0 eqn:Ed0.
  unfold maxTime, safeTime, msPerDay in *. lia.
Qed.

End FixedZoneMonths.

Section FixedZoneCalculator.
Import ES ESFacts.
Context (host : Host) (offset : Z).
Context (Hfixed : forall t isUTC, LocalTZA host t isUTC = offset).
Context (Hoffset : Z.abs offset <= msPerDay).

Lemma calculateLegacyNextDeadline_fixed (t : Z) (p : LegacyRecurrencePattern) :
  Z.abs t <= safeTime ->
  exists k, 1 <= k /\
    calculateLegacyNextDeadline host (Some t) p = isoDate (Some (t + k * msPerDay)).
Proof.
  intros Ht. unfold calculateLegacyNextDeadline.
  cbn [getDate getMonth getFullYear option_map nadd].
  destruct p.
  - exists 1. split; [lia|].
    rewrite (setDate_fixed host offset Hfixed); [reflexivity | exact Ht | lia].
  - exists 7. split; [lia|].
    rewrite (setDate_fixed host offset Hfixed); [reflexivity | exact Ht | lia].
  - destruct (setMonth_fixed host offset Hfixed t 1 Ht) as (k & Hk & _ & E); [lia|].
    exists k. split; [lia|]. rewrite E. reflexivity.
  - destruct (setFullYear_fixed host offset Hfixed t 1 Ht) as (k & Hk & E); [lia|].
    exists k. split; [lia|]. rewrite E. reflexivity.
Qed.

(** After [setMonth], setting any date from 1 to 31 stays after the base
    day. *)
Lemma month_then_date_fixed (t i target : Z) :
  Z.abs t <= safeTime -> 1 <= i <= 99 -> 1 <= target <= 31 ->
  exists k, 1 <= k /\
    setDate host
      (setMonth host (Some t) (Some (MonthFromTime (LocalTime host t) + i)))
      (Some target)
    = Some (t + k * msPerDay).
Proof.
  intros Ht Hi Htarget.
  destruct (setMonth_fixed host offset Hfixed t i Ht Hi) as (k1 & Hk1 & Hstart & E).
  rewrite E.
  pose proof (LocalTime_plus_days host offset Hfixed t k1) as El.
  pose proof (Day_plus_days (LocalTime host t) k1) as Ed. rewrite <- El in Ed.
  pose proof (DateFromTime_range (LocalTime host (t + k1 * msPerDay))) as Hd1.
  remember (LocalTime host (t + k1 * msPerDay)) as lt1 eqn:Hlt1.
  remember (LocalTime host t) as lt eqn:Hlt.
  assert (Hafter : Day lt < MakeDay (YearFromTime lt1) (MonthFromTime lt1) 1).
  { pose proof (day_before_next_month lt) as Hnext.
    rewrite MakeDay_index in Hnext.
    pose proof (month_start_monotone
                  (12 * YearFromTime lt + (MonthFromTime lt + 1)) (i - 1)
                  ltac:(lia)) as Hmono.
    replace (12 * YearFromTime lt + (MonthFromTime lt + 1) + (i - 1))
      with (12 * YearFromTime lt + MonthFromTime lt + i) in Hmono by lia.
    pose proof (month_start_latest lt1
                  (12 * YearFromTime lt + MonthFromTime lt + i)) as Hlatest.
    lia. }
  rewrite MakeDay_same_month in Hafter.
  exists (k1 + (target - DateFromTime lt1)). split; [lia|].
  rewrite (setDate_fixed_to host offset Hfixed); rewrite <- Hlt1.
  - f_equal. lia.
  - unfold maxTime, safeTime, msPerDay in *. lia.
Qed.

Lemma calculateFlexibleNextDeadline_fixed (t : Z) (config : RecurrenceConfig) :
  Z.abs t <= safeTime ->
  validConfig config = true ->
  exists k, 1 <= k /\
    calculateFlexibleNextDeadline host (Some t) config
    = isoDate (Some (t + k * msPerDay)).
Proof.
  intros Ht Hv.
  destruct config as [n u w md]. unfold validConfig in Hv. cbn in Hv.
  rewrite !andb_true_iff in Hv. destruct Hv as [[[Hn1 Hn2] Hw] Hmd].
  assert (Hn : 1 <= n <= 99) by lia. clear Hn1 Hn2.
  unfold calculateFlexibleNextDeadline.
  cbn [unit_ interval weekDays monthDay getDate getMonth getFullYear option_map nadd].
  destruct u.
  - exists n. split; [lia|].
    rewrite (setDate_fixed host offset Hfixed); [reflexivity | exact Ht | lia].
  - assert (Hplain : exists k, 1 <= k /\
      isoDate (setDate host (Some t)
                 (Some (DateFromTime (LocalTime host t) + n * 7)))
      = isoDate (Some (t + k * msPerDay))).
    { exists (n * 7). split; [lia|].
      rewrite (setDate_fixed host offset Hfixed); [reflexivity | exact Ht | lia]. }
    destruct w as [[|d w]|]; try exact Hplain.
    destruct (findNextWeekdayOccurrence_fixed host offset Hfixed t n (d :: w))
      as (k & _ & Hk & _ & E); [exact Ht | exact Hn | discriminate | exact Hw|].
    exists k. split; [lia | exact E].
  - destruct md as [m|].
    + pose proof (fixed_zoneBounded host offset Hfixed Hoffset) as Hzone.
      destruct (setMonth_fixed host offset Hfixed t n Ht Hn) as (k1 & Hk1 & _ & E1).
      destruct (getDaysInMonth_near host Hzone (t + k1 * msPerDay) 4395)
        as (v & Ev & Hv); [unfold msPerDay, safeTime in *; lia | lia
                          | unfold room; lia|].
      assert (Edim : getDaysInMonth host
                (setMonth host (Some t)
                   (Some (MonthFromTime (LocalTime host t) + n))) = Some v)
        by (rewrite E1; exact Ev).
      rewrite Edim. cbn [Math_min].
      destruct (month_then_date_fixed t n (Z.min m v) Ht Hn) as (k & Hk & E);
        [lia|].
      exists k. split; [exact Hk|]. rewrite E. reflexivity.
    + destruct (setMonth_fixed host offset Hfixed t n Ht Hn) as (k & Hk & _ & E).
      exists k. split; [lia|]. rewrite E. reflexivity.
  - destruct (setFullYear_fixed host offset Hfixed t n Ht Hn) as (k & Hk & E).
    exists k. split; [lia|]. rewrite E. reflexivity.
Qed.

(** In a zone without daylight saving time, the date computed for a valid
    recurrence is a whole number of days, at least one, after the base
    date, so that the calendar day printed is a later one. *)
Lemma calculateNextDeadline_fixed_zone
    (currentDeadline : option string) (recurrence : TaskRecurrence) (t : Z) :
  baseDateOf host currentDeadline = Some t ->
  Z.abs t <= safeTime ->
  validRecurrence recurrence = true ->
  recurrence <> null ->
  exists k, 1 <= k /\
    Day (t + k * msPerDay) = Day t + k /\
    calculateNextDeadline host currentDeadline recurrence
    = isoDate (Some (t + k * msPerDay)).
Proof.
  intros Eb Ht Hv Hnn. destruct recurrence as [p|config|]; [| |congruence];
    unfold calculateNextDeadline; rewrite Eb.
  - destruct (calculateLegacyNextDeadline_fixed t p Ht) as (k & Hk & E).
    exists k. split; [exact Hk|]. split; [apply Day_plus_days | exact E].
  - destruct (calculateFlexibleNextDeadline_fixed t config Ht Hv) as (k & Hk & E).
    exists k. split; [exact Hk|]. split; [apply Day_plus_days | exact E].
Qed.

End FixedZoneCalculator.

Section UTCZone.
Import ES ESFacts.
Context (host : Host).
Context (Hutc : forall t isUTC, LocalTZA host t isUTC = 0).

(** Where local time is UTC, the weekday routine lands on a selected day
    after the base day. *)
Lemma findNextWeekdayOccurrence_utc (t n : Z) (days : list Z) :
  Z.abs t <= safeTime ->
  1 <= n <= 99 -> days <> [] ->
  forallb (fun d => (0 <=? d) && (d <=? 6)) days = true ->
  exists k,
    weekdayRuleDays (WeekDay t) n days = Some k /\
    1 <= k /\
    In (WeekDay (t + k * msPerDay)) days /\
    findNextWeekdayOccurrence host (Some t) n days
    = isoDate (Some (t + k * msPerDay)).
Proof.
  intros Ht Hn Hne Hdays.
  destruct (findNextWeekdayOccurrence_fixed host 0 Hutc t n days Ht Hn Hne Hdays)
    as (k & Hrule & Hk & Hin & E).
  assert (El : LocalTime host t = t)
    by (unfold LocalTime; rewrite Hutc; apply Z.add_0_r).
  rewrite El in Hrule, Hin.
  exists k. split; [exact Hrule|]. split; [lia|]. split; [|exact E].
  rewrite WeekDay_plus_days. exact Hin.
Qed.

End UTCZone.

(** ** Printing and reading calendar dates *)

Section IsoDates.
Import ES ESFacts.

Lemma string_app_assoc (a b c : string) : (a ++ b) ++ c = a ++ (b ++ c).
Proof. induction a as [|x a IH]; simpl; [reflexivity | rewrite IH; reflexivity]. Qed.

Lemma splitFirst_before (c : ascii) (a b : string) :
  splitFirst c a = a -> splitFirst c (a ++ String c b) = a.
Proof.
  induction a as [|x a IH]; simpl; intros H.
  - rewrite Ascii.eqb_refl. reflexivity.
  - destruct (Ascii.eqb x c); [discriminate|].
    injection H as H. rewrite (IH H). reflexivity.
Qed.

Lemma splitFirst_app (c : ascii) (a b : string) :
  splitFirst c a = a -> splitFirst c b = b -> splitFirst c (a ++ b) = a ++ b.
Proof.
  induction a as [|x a IH]; simpl; intros Ha Hb; [exact Hb|].
  destruct (Ascii.eqb x c); [discriminate|].
  injection Ha as Ha. rewrite (IH Ha Hb). reflexivity.
Qed.

Lemma digit_cases (k : Z) :
  0 <= k <= 9 ->
  k = 0 \/ k = 1 \/ k = 2 \/ k = 3 \/ k = 4 \/ k = 5 \/ k = 6 \/ k = 7 \/
  k = 8 \/ k = 9.
Proof. lia. Qed.

Lemma mod10_digit (n : Z) : 0 <= n mod 10 <= 9.
Proof. pose proof (Z.mod_pos_bound n 10). lia. Qed.

Lemma digitVal_digitChar (k : Z) :
  0 <= k <= 9 -> digitVal (digitChar k) = Some k.
Proof.
  intros H.
  destruct (digit_cases k H) as [->|[->|[->|[->|[->|[->|[->|[->|[->| ->]]]]]]]]];
    reflexivity.
Qed.

Lemma digitChar_not_T (k : Z) :
  0 <= k <= 9 -> Ascii.eqb (digitChar k) "T" = false.
Proof.
  intros H.
  destruct (digit_cases k H) as [->|[->|[->|[->|[->|[->|[->|[->|[->| ->]]]]]]]]];
    reflexivity.
Qed.

Lemma padDigits_no_T (w : nat) (n : Z) :
  splitFirst "T" (padDigits w n) = padDigits w n.
Proof.
  revert n. induction w as [|w IH]; intros n; [reflexivity|].
  cbn [padDigits]. apply splitFirst_app; [apply IH|].
  cbn [splitFirst]. rewrite digitChar_not_T; [reflexivity|].
  apply mod10_digit.
Qed.

Lemma isoYear_no_T (y : Z) : splitFirst "T" (isoYear y) = isoYear y.
Proof.
  unfold isoYear. destruct ((0 <=? y) && (y <=? 9999)).
  - apply padDigits_no_T.
  - apply splitFirst_app; [destruct (y <? 0); reflexivity | apply padDigits_no_T].
Qed.

Lemma datePart_no_T (t : Z) : splitFirst "T" (datePart t) = datePart t.
Proof.
  unfold datePart.
  repeat (apply splitFirst_app;
          [first [apply isoYear_no_T | apply padDigits_no_T | reflexivity]|]).
  apply padDigits_no_T.
Qed.

(** What the calculator prints is the calendar date of the time value. *)
Lemma isoDate_datePart (t : Z) : isoDate (Some t) = Return (datePart t).
Proof.
  unfold isoDate, toISOString. cbn [bind]. f_equal.
  pose proof (datePart_no_T t) as H. unfold datePart in *.
  set (A := isoYear (YearFromTime t)) in *.
  set (B := padDigits 2 (MonthFromTime t + 1)) in *.
  set (C := padDigits 2 (DateFromTime t)) in *.
  match goal with
  | |- splitFirst _ (A ++ "-" ++ B ++ "-" ++ C ++ "T" ++ ?r) = _ =>
      replace (A ++ "-" ++ B ++ "-" ++ C ++ "T" ++ r)
        with ((A ++ "-" ++ B ++ "-" ++ C) ++ String "T" r)
  end.
  - apply splitFirst_before. exact H.
  - rewrite !string_app_assoc. reflexivity.
Qed.

(** The calendar date depends on the day only. *)
Lemma datePart_Day (t t' : Z) : Day t = Day t' -> datePart t = datePart t'.
Proof.
  intros H. unfold datePart, DateFromTime, MonthFromTime, InLeapYear,
    DayWithinYear, YearFromTime. rewrite H. reflexivity.
Qed.

Lemma four_digits (y : Z) :
  0 <= y <= 9999 ->
  1000 * (y / 10 / 10 / 10 mod 10) + 100 * (y / 10 / 10 mod 10)
  + 10 * (y / 10 mod 10) + y mod 10 = y.
Proof. intros H. Z.div_mod_to_equations. lia. Qed.

Lemma two_digits (n : Z) :
  0 <= n <= 99 -> 10 * (n / 10 mod 10) + n mod 10 = n.
Proof. intros H. Z.div_mod_to_equations. lia. Qed.

Lemma fields_of_Day (t : Z) :
  YearFromTime (MakeDate (Day t) 0) = YearFromTime t /\
  MonthFromTime (MakeDate (Day t) 0) = MonthFromTime t /\
  DateFromTime (MakeDate (Day t) 0) = DateFromTime t.
Proof.
  assert (E : Day (MakeDate (Day t) 0) = Day t)
    by (apply Day_MakeDate; unfold msPerDay; lia).
  unfold DateFromTime, MonthFromTime, InLeapYear, DayWithinYear, YearFromTime.
  rewrite E. auto.
Qed.

(** Reading back a printed date gives UTC midnight of the same day, for
    the years that are printed with four digits. *)
Lemma parseDateOnly_datePart (t : Z) :
  0 <= YearFromTime t <= 9999 ->
  parseDateOnly (datePart t) = Some (Day t * msPerDay).
Proof.
  intros Hy.
  pose proof (MonthFromTime_range t) as Hm.
  pose proof (DateFromTime_range t) as Hd.
  destruct (fields_of_Day t) as (_ & Em & _).
  pose proof (MakeDay_same_month t (DateFromTime t)) as Eday.
  unfold datePart, isoYear.
  replace ((0 <=? YearFromTime t) && (YearFromTime t <=? 9999)) with true
    by (symmetry; apply andb_true_iff; split; apply Z.leb_le; lia).
  remember (YearFromTime t) as y eqn:Ey.
  remember (MonthFromTime t) as m eqn:Emm.
  remember (DateFromTime t) as d eqn:Edd.
  unfold parseDateOnly.
  cbn [padDigits append list_ascii_of_string].
  replace (Ascii.eqb "-" "-") with true by reflexivity. cbn [andb].
  rewrite !digitVal_digitChar by apply mod10_digit.
  rewrite (four_digits y Hy).
  rewrite (two_digits (m + 1)) by lia.
  rewrite (two_digits d) by lia.
  replace (m + 1 - 1) with m by lia.
  replace (MakeDay y m d) with (Day t) by lia.
  rewrite Em.
  replace ((1 <=? m + 1) && (m + 1 <=? 12) && (1 <=? d) && (m =? m)) with true.
  - unfold MakeDate. f_equal. lia.
  - symmetry. rewrite Z.eqb_refl, !andb_true_iff.
    repeat split; try apply Z.leb_le; lia.
Qed.

End IsoDates.

(** ** Months *)

Section Months.
Import ES ESFacts.

Lemma YearFromTime_between (t a b : Z) :
  DayFromYear a <= Day t < DayFromYear (b + 1) -> a <= YearFromTime t <= b.
Proof.
  intros H. unfold YearFromTime.
  pose proof (YearFromDay_spec (Day t)) as Hs.
  remember (YearFromDay (Day t)) as y eqn:Ey. clear Ey.
  split.
  - destruct (Z_lt_le_dec y a) as [Hlt|]; [|assumption].
    pose proof (DayFromYear_grows (y + 1) (a - (y + 1)) ltac:(lia)) as Hg.
    replace (y + 1 + (a - (y + 1))) with a in Hg by lia. lia.
  - destruct (Z_lt_le_dec b y) as [Hlt|]; [|assumption].
    pose proof (DayFromYear_grows (b + 1) (y - (b + 1)) ltac:(lia)) as Hg.
    replace (b + 1 + (y - (b + 1))) with y in Hg by lia. lia.
Qed.

(** A day between the first of a month and the first of the next one has
    the fields of that month. *)
Lemma fields_in_month (t i : Z) :
  MakeDay 0 i 1 <= Day t < MakeDay 0 (i + 1) 1 ->
  monthIndex t = i /\ DateFromTime t = Day t - MakeDay 0 i 1 + 1.
Proof.
  intros [Hlo Hhi]. unfold monthIndex.
  pose proof (month_start_latest t i Hlo) as Hlatest.
  pose proof (day_before_next_month t) as Hnext.
  pose proof (Day_as_month_start t) as Eday.
  pose proof (DateFromTime_range t) as Hd.
  rewrite MakeDay_index in Hlatest, Hnext.
  remember (12 * YearFromTime t + MonthFromTime t) as j eqn:Ej.
  replace (12 * YearFromTime t + (MonthFromTime t + 1)) with (j + 1) in Hnext by lia.
  assert (E : j = i).
  { destruct (Z_lt_le_dec i j) as [Hlt|Hge].
    - pose proof (month_start_monotone (i + 1) (j - (i + 1)) ltac:(lia)) as Hm.
      replace (i + 1 + (j - (i + 1))) with j in Hm by lia. lia.
    - destruct (Z_lt_le_dec j i) as [Hlt|]; [|lia].
      pose proof (month_start_monotone (j + 1) (i - (j + 1)) ltac:(lia)) as Hm.
      replace (j + 1 + (i - (j + 1))) with i in Hm by lia. lia. }
  subst j. rewrite E in *. split; [reflexivity | lia].
Qed.

Lemma monthIndex_fields (t y m : Z) :
  0 <= m <= 11 -> monthIndex t = 12 * y + m ->
  YearFromTime t = y /\ MonthFromTime t = m.
Proof.
  intros Hm H. unfold monthIndex in H.
  pose proof (MonthFromTime_range t). lia.
Qed.

Lemma isLeapYear_DaysInYear (y : Z) :
  (if DaysInYear y =? 366 then 1 else 0) = (if isLeapYear y then 1 else 0).
Proof.
  unfold DaysInYear, isLeapYear.
  destruct (y mod 4 =? 0), (y mod 100 =? 0), (y mod 400 =? 0); reflexivity.
Qed.

(** The distance between the first days of two consecutive months is the
    length of the month in the Gregorian calendar. *)
Lemma month_length_daysInMonth (y m : Z) :
  0 <= m <= 11 ->
  MakeDay 0 (12 * y + m + 1) 1 - MakeDay 0 (12 * y + m) 1 = daysInMonth y m.
Proof.
  intros Hm.
  rewrite <- (MakeDay_index y m 1).
  replace (12 * y + m + 1) with (12 * y + (m + 1)) by lia.
  rewrite (MakeDay_small_month y m 1 Hm).
  rewrite isLeapYear_DaysInYear.
  assert (Hc : m = 0 \/ m = 1 \/ m = 2 \/ m = 3 \/ m = 4 \/ m = 5 \/ m = 6 \/
               m = 7 \/ m = 8 \/ m = 9 \/ m = 10 \/ m = 11) by lia.
  destruct Hc as [->|[->|[->|[->|[->|[->|[->|[->|[->|[->|[->| ->]]]]]]]]]]];
    match goal with
    | |- context [12 * y + (?a + 1)] =>
        let v := eval compute in (a + 1) in change (a + 1) with v
    end;
    try (rewrite <- (MakeDay_index y _ 1), MakeDay_small_month by lia;
         rewrite isLeapYear_DaysInYear; unfold daysInMonth;
         cbn [monthStart]; destruct (isLeapYear y); lia).
  replace (12 * y + 12) with (12 * (y + 1) + 0) by lia.
  rewrite <- (MakeDay_index (y + 1) 0 1), MakeDay_small_month by lia.
  rewrite DayFromYear_step.
  pose proof (isLeapYear_DaysInYear y) as E.
  destruct (DaysInYear_cases y) as [Hd|Hd]; rewrite Hd in *; cbn in E;
    destruct (isLeapYear y); try discriminate;
    unfold daysInMonth; cbn [monthStart]; lia.
Qed.

(** The length of the month of a given index. *)
Lemma daysInMonth_of_index (i : Z) :
  MakeDay 0 (i + 1) 1 - MakeDay 0 i 1 = daysInMonth (i / 12) (i mod 12).
Proof.
  pose proof (month_length_daysInMonth (i / 12) (i mod 12)) as H.
  replace (12 * (i / 12) + i mod 12) with i in H
    by (Z.div_mod_to_equations; lia).
  apply H. pose proof (Z.mod_pos_bound i 12). lia.
Qed.

End Months.

Section FixedZoneMonthLength.
Import ES ESFacts.
Context (host : Host) (offset : Z).
Context (Hfixed : forall t isUTC, LocalTZA host t isUTC = offset).
Context (Hoffset : Z.abs offset <= msPerDay).

(** Local midnight of a day, as [new Date(y, m, d)] gives it. *)
Lemma newDateYMD_fixed (y m dt : Z) :
  ~ (0 <= y <= 99) ->
  Z.abs (MakeDay y m dt * msPerDay - offset) <= maxTime ->
  newDateYMD host (Some y) (Some m) (Some dt)
  = Some (MakeDay y m dt * msPerDay - offset).
Proof.
  intros Hy Hb. unfold newDateYMD.
  replace ((0 <=? y) && (y <=? 99)) with false
    by (symmetry; apply andb_false_iff; rewrite !Z.leb_gt; lia).
  unfold UTC. rewrite Hfixed.
  replace (MakeDate (MakeDay y m dt) (MakeTime 0 0 0 0) - offset)
    with (MakeDay y m dt * msPerDay - offset)
    by (unfold MakeDate, MakeTime; lia).
  apply TimeClip_in_range. exact Hb.
Qed.

Lemma getDaysInMonth_fixed (t : Z) :
  Z.abs t <= safeTime + 5000 * msPerDay ->
  ~ (0 <= YearFromTime (LocalTime host t) <= 99) ->
  getDaysInMonth host (Some t)
  = Some (daysInMonth (YearFromTime (LocalTime host t))
                      (MonthFromTime (LocalTime host t))).
Proof.
  intros Ht Hy. unfold getDaysInMonth.
  cbn [getFullYear getMonth option_map nadd].
  set (lt := LocalTime host t) in *.
  pose proof (MonthFromTime_range lt) as Hm.
  pose proof (month_length_daysInMonth (YearFromTime lt) (MonthFromTime lt) Hm) as El.
  pose proof (month_length (12 * YearFromTime lt + MonthFromTime lt)) as Hlen.
  pose proof (MakeDay_near lt 0 (MonthFromTime lt + 1) 0) as Hnear.
  rewrite Z.add_0_r in Hnear.
  assert (Hdiv : 0 <= (MonthFromTime lt + 1) / 12 <= 1)
    by (Z.div_mod_to_equations; lia).
  assert (Elt : lt = t + offset) by (subst lt; unfold LocalTime; rewrite Hfixed; reflexivity).
  pose proof (MakeDate_Day lt) as Emk.
  pose proof (TimeWithinDay_range lt) as Htw.
  remember (MakeDay (YearFromTime lt) (MonthFromTime lt + 1) 0) as D eqn:ED.
  rewrite newDateYMD_fixed; [|exact Hy|].
  - rewrite <- ED. cbn [getDate option_map]. f_equal.
    assert (Eloc : LocalTime host (D * msPerDay - offset) = MakeDate D 0)
      by (unfold LocalTime, MakeDate; rewrite Hfixed; lia).
    rewrite Eloc.
    assert (EDay : Day (MakeDate D 0) = D)
      by (apply Day_MakeDate; unfold msPerDay; lia).
    assert (ED' : D = MakeDay 0 (12 * YearFromTime lt + MonthFromTime lt + 1) 1 - 1).
    { rewrite ED, MakeDay_index, MakeDay_date.
      replace (12 * YearFromTime lt + (MonthFromTime lt + 1))
        with (12 * YearFromTime lt + MonthFromTime lt + 1) by lia. lia. }
    destruct (fields_in_month (MakeDate D 0)
                (12 * YearFromTime lt + MonthFromTime lt)) as (_ & Edate).
    + rewrite EDay. lia.
    + rewrite Edate, EDay. lia.
  - rewrite <- ED.
    remember (Day lt) as d0. remember (TimeWithinDay lt) as tw.
    unfold MakeDate, maxTime, safeTime, msPerDay in *. lia.
Qed.

End FixedZoneMonthLength.

Section FixedZoneMonthly.
Import ES ESFacts.
Context (host : Host) (offset : Z).
Context (Hfixed : forall t isUTC, LocalTZA host t isUTC = offset).
Context (Hoffset : Z.abs offset <= msPerDay).

(** From a day of the month that the month [n] months later has too,
    [setMonth] reaches that day of that month. *)
Lemma setMonth_fixed_fields (t n : Z) :
  Z.abs t <= safeTime -> 1 <= n <= 99 ->
  DateFromTime (LocalTime host t)
  <= daysInMonth ((monthIndex (LocalTime host t) + n) / 12)
                 ((monthIndex (LocalTime host t) + n) mod 12) ->
  exists k,
    Z.abs k <= 4395 /\
    setMonth host (Some t) (Some (MonthFromTime (LocalTime host t) + n))
    = Some (t + k * msPerDay) /\
    Day (LocalTime host (t + k * msPerDay))
    = MakeDay 0 (monthIndex (LocalTime host t) + n) 1
      + (DateFromTime (LocalTime host t) - 1) /\
    monthIndex (LocalTime host (t + k * msPerDay))
    = monthIndex (LocalTime host t) + n /\
    DateFromTime (LocalTime host (t + k * msPerDay))
    = DateFromTime (LocalTime host t).
Proof.
  intros Ht Hn Hd28.
  pose proof (MonthFromTime_range (LocalTime host t)) as Hm.
  pose proof (DateFromTime_range (LocalTime host t)) as Hd.
  pose proof (MakeDay_near (LocalTime host t) 0
                (MonthFromTime (LocalTime host t) + n)
                (DateFromTime (LocalTime host t))) as Hnear.
  rewrite Z.add_0_r in Hnear.
  assert (Hdiv : 0 <= (MonthFromTime (LocalTime host t) + n) / 12 <= 9)
    by (Z.div_mod_to_equations; lia).
  assert (ED : MakeDay (YearFromTime (LocalTime host t))
                 (MonthFromTime (LocalTime host t) + n)
                 (DateFromTime (LocalTime host t))
               = MakeDay 0 (monthIndex (LocalTime host t) + n) 1
                 + (DateFromTime (LocalTime host t) - 1)).
  { rewrite MakeDay_index, MakeDay_date. unfold monthIndex.
    replace (12 * YearFromTime (LocalTime host t)
             + (MonthFromTime (LocalTime host t) + n))
      with (12 * YearFromTime (LocalTime host t)
            + MonthFromTime (LocalTime host t) + n) by lia.
    reflexivity. }
  remember (MakeDay (YearFromTime (LocalTime host t))
              (MonthFromTime (LocalTime host t) + n)
              (DateFromTime (LocalTime host t))) as D eqn:HD.
  set (k := D - Day (LocalTime host t)).
  assert (Hk : Z.abs k <= 4395) by (subst k; lia).
  pose proof (LocalTime_plus_days host offset Hfixed t k) as El.
  pose proof (Day_plus_days (LocalTime host t) k) as Ed. rewrite <- El in Ed.
  pose proof (daysInMonth_of_index (monthIndex (LocalTime host t) + n)) as Hlen.
  destruct (fields_in_month (LocalTime host (t + k * msPerDay))
              (monthIndex (LocalTime host t) + n)) as (Ei & Edate);
    [subst k; lia|].
  exists k. split; [exact Hk|]. split.
  - unfold setMonth. rewrite <- HD.
    apply (moved_fixed host offset Hfixed). fold k.
    unfold maxTime, safeTime, msPerDay in *. lia.
  - split; [subst k; lia|]. split; [exact Ei | subst k; lia].
Qed.

(** The monthly rule from a day of the month that the month [n] months
    later has too: the next date is in that month, on the same day of the
    month or, with a [monthDay], on that day, at most the last of the
    month. *)
Lemma monthly_fixed_fields (t n : Z) (w : option (list Z)) (md : option Z) :
  Z.abs t <= safeTime -> 1 <= n <= 99 ->
  100 <= YearFromTime (LocalTime host t) ->
  DateFromTime (LocalTime host t)
  <= daysInMonth ((monthIndex (LocalTime host t) + n) / 12)
                 ((monthIndex (LocalTime host t) + n) mod 12) ->
  match md with Some m => 1 <= m | None => True end ->
  exists t',
    calculateFlexibleNextDeadline host (Some t)
      {| interval := n; unit_ := month; weekDays := w; monthDay := md |}
    = isoDate (Some t') /\
    monthIndex (LocalTime host t') = monthIndex (LocalTime host t) + n /\
    DateFromTime (LocalTime host t')
    = match md with
      | Some m => Z.min m (daysInMonth (YearFromTime (LocalTime host t'))
                                       (MonthFromTime (LocalTime host t')))
      | None => DateFromTime (LocalTime host t)
      end.
Proof.
  intros Ht Hn Hy Hd28 Hmd.
  destruct (setMonth_fixed_fields t n Ht Hn Hd28) as (k & Hk & E & ED & Ei & Edate).
  unfold calculateFlexibleNextDeadline.
  cbn [unit_ interval weekDays monthDay getMonth option_map nadd].
  rewrite E.
  destruct md as [m|]; [|exists (t + k * msPerDay); auto].
  set (t1 := t + k * msPerDay) in *.
  set (lt1 := LocalTime host t1) in *.
  pose proof (MonthFromTime_range lt1) as Hm1.
  pose proof (MonthFromTime_range (LocalTime host t)) as Hm0.
  pose proof (DateFromTime_range (LocalTime host t)) as Hd0.
  assert (Hy1 : 100 <= YearFromTime lt1) by (unfold monthIndex in Ei; lia).
  assert (Ht1 : Z.abs t1 <= safeTime + 5000 * msPerDay)
    by (subst t1; unfold safeTime, msPerDay in *; lia).
  rewrite (getDaysInMonth_fixed host offset Hfixed t1 Ht1) by (fold lt1; lia).
  fold lt1. cbn [Math_min].
  pose proof (month_length_daysInMonth (YearFromTime lt1) (MonthFromTime lt1) Hm1)
    as El.
  fold (monthIndex lt1) in El. rewrite Ei in El.
  pose proof (month_length (monthIndex (LocalTime host t) + n)) as Hlen.
  remember (daysInMonth (YearFromTime lt1) (MonthFromTime lt1)) as L eqn:EL.
  set (target := Z.min m L).
  assert (Htarget : 1 <= target <= L) by (subst target; lia).
  assert (Hb : Z.abs (t1 + (target - DateFromTime lt1) * msPerDay) <= maxTime).
  { pose proof (DateFromTime_range lt1).
    unfold maxTime, safeTime, msPerDay in *. lia. }
  rewrite (setDate_fixed_to host offset Hfixed t1 target) by exact Hb.
  fold lt1.
  set (t2 := t1 + (target - DateFromTime lt1) * msPerDay) in *.
  pose proof (LocalTime_plus_days host offset Hfixed t1 (target - DateFromTime lt1))
    as El2.
  pose proof (Day_plus_days lt1 (target - DateFromTime lt1)) as Ed2.
  fold lt1 in El2. rewrite <- El2 in Ed2. fold t2 in Ed2.
  destruct (fields_in_month (LocalTime host t2)
              (monthIndex (LocalTime host t) + n)) as (Ei2 & Edate2);
    [fold lt1 in ED; lia|].
  exists t2. split; [reflexivity|]. split; [exact Ei2|].
  assert (Efields : YearFromTime (LocalTime host t2) = YearFromTime lt1 /\
                    MonthFromTime (LocalTime host t2) = MonthFromTime lt1).
  { apply monthIndex_fields; [exact Hm1|].
    rewrite Ei2, <- Ei. reflexivity. }
  destruct Efields as [-> ->]. rewrite <- EL.
  fold lt1 in ED. lia.
Qed.

End FixedZoneMonthly.

Section FixedZoneRange.
Import ES ESFacts.
Context (host : Host) (offset : Z).
Context (Hfixed : forall t isUTC, LocalTZA host t isUTC = offset).
Context (Hoffset : Z.abs offset <= msPerDay).

Lemma month_then_date_fixed_range (t i target : Z) :
  Z.abs t <= safeTime -> 1 <= i <= 99 -> 1 <= target <= 31 ->
  exists k, 1 <= k <= 4425 /\
    setDate host
      (setMonth host (Some t) (Some (MonthFromTime (LocalTime host t) + i)))
      (Some target)
    = Some (t + k * msPerDay).
Proof.
  intros Ht Hi Htarget.
  destruct (setMonth_fixed host offset Hfixed t i Ht Hi) as (k1 & Hk1 & Hstart & E).
  rewrite E.
  pose proof (LocalTime_plus_days host offset Hfixed t k1) as El.
  pose proof (Day_plus_days (LocalTime host t) k1) as Ed. rewrite <- El in Ed.
  pose proof (DateFromTime_range (LocalTime host (t + k1 * msPerDay))) as Hd1.
  remember (LocalTime host (t + k1 * msPerDay)) as lt1 eqn:Hlt1.
  remember (LocalTime host t) as lt eqn:Hlt.
  assert (Hafter : Day lt < MakeDay (YearFromTime lt1) (MonthFromTime lt1) 1).
  { pose proof (day_before_next_month lt) as Hnext.
    rewrite MakeDay_index in Hnext.
    pose proof (month_start_monotone
                  (12 * YearFromTime lt + (MonthFromTime lt + 1)) (i - 1)
                  ltac:(lia)) as Hmono.
    replace (12 * YearFromTime lt + (MonthFromTime lt + 1) + (i - 1))
      with (12 * YearFromTime lt + MonthFromTime lt + i) in Hmono by lia.
    pose proof (month_start_latest lt1
                  (12 * YearFromTime lt + MonthFromTime lt + i)) as Hlatest.
    lia. }
  rewrite MakeDay_same_month in Hafter.
  exists (k1 + (target - DateFromTime lt1)). split; [lia|].
  rewrite (setDate_fixed_to host offset Hfixed); rewrite <- Hlt1.
  - f_equal. lia.
  - unfold maxTime, safeTime, msPerDay in *. lia.
Qed.

(** The date computed for a valid recurrence is between one day and a
    little more than a hundred years after the base date. *)
Lemma calculateNextDeadline_fixed_range
    (currentDeadline : option string) (recurrence : TaskRecurrence) (t : Z) :
  baseDateOf host currentDeadline = Some t ->
  Z.abs t <= safeTime ->
  validRecurrence recurrence = true ->
  recurrence <> null ->
  exists k, 1 <= k <= 36975 /\
    calculateNextDeadline host currentDeadline recurrence
    = isoDate (Some (t + k * msPerDay)).
Proof.
  intros Eb Ht Hv Hnn.
  destruct recurrence as [p|config|]; [| |congruence];
    unfold calculateNextDeadline; rewrite Eb.
  - unfold calculateLegacyNextDeadline.
    cbn [getDate getMonth getFullYear option_map nadd].
    destruct p.
    + exists 1. split; [lia|].
      rewrite (setDate_fixed host offset Hfixed); [reflexivity | exact Ht | lia].
    + exists 7. split; [lia|].
      rewrite (setDate_fixed host offset Hfixed); [reflexivity | exact Ht | lia].
    + destruct (setMonth_fixed host offset Hfixed t 1 Ht) as (k & Hk & _ & E); [lia|].
      exists k. split; [lia|]. rewrite E. reflexivity.
    + destruct (setFullYear_fixed host offset Hfixed t 1 Ht) as (k & Hk & E); [lia|].
      exists k. split; [lia|]. rewrite E. reflexivity.
  - destruct config as [n u w md]. unfold validRecurrence, validConfig in Hv.
    cbn in Hv.
    rewrite !andb_true_iff in Hv. destruct Hv as [[[Hn1 Hn2] Hw] Hmd].
    assert (Hn : 1 <= n <= 99) by lia. clear Hn1 Hn2.
    unfold calculateFlexibleNextDeadline.
    cbn [unit_ interval weekDays monthDay getDate getMonth getFullYear
         option_map nadd].
    destruct u.
    + exists n. split; [lia|].
      rewrite (setDate_fixed host offset Hfixed); [reflexivity | exact Ht | lia].
    + assert (Hplain : exists k, 1 <= k <= 36975 /\
        isoDate (setDate host (Some t)
                   (Some (DateFromTime (LocalTime host t) + n * 7)))
        = isoDate (Some (t + k * msPerDay))).
      { exists (n * 7). split; [lia|].
        rewrite (setDate_fixed host offset Hfixed); [reflexivity | exact Ht | lia]. }
      destruct w as [[|d w]|]; try exact Hplain.
      destruct (findNextWeekdayOccurrence_fixed host offset Hfixed t n (d :: w))
        as (k & _ & Hk & _ & E); [exact Ht | exact Hn | discriminate | exact Hw|].
      exists k. split; [lia | exact E].
    + destruct md as [m|].
      * pose proof (fixed_zoneBounded host offset Hfixed Hoffset) as Hzone.
        destruct (setMonth_fixed host offset Hfixed t n Ht Hn) as (k1 & Hk1 & _ & E1).
        destruct (getDaysInMonth_near host Hzone (t + k1 * msPerDay) 4395)
          as (v & Ev & Hv); [unfold msPerDay, safeTime in *; lia | lia
                            | unfold room; lia|].
        assert (Edim : getDaysInMonth host
                  (setMonth host (Some t)
                     (Some (MonthFromTime (LocalTime host t) + n))) = Some v)
          by (rewrite E1; exact Ev).
        rewrite Edim. cbn [Math_min].
        destruct (month_then_date_fixed_range t n (Z.min m v) Ht Hn) as (k & Hk & E);
          [lia|].
        exists k. split; [lia|]. rewrite E. reflexivity.
      * destruct (setMonth_fixed host offset Hfixed t n Ht Hn) as (k & Hk & _ & E).
        exists k. split; [lia|]. rewrite E. reflexivity.
    + destruct (setFullYear_fixed host offset Hfixed t n Ht Hn) as (k & Hk & E).
      exists k. split; [lia|]. rewrite E. reflexivity.
Qed.

End FixedZoneRange.

Section DateOnlyDeadlines.
Import ES ESFacts.

(** A date-only string is read as UTC midnight of a day from the year 0
    on. *)
Lemma parseDateOnly_midnight (s : string) (t : Z) :
  parseDateOnly s = Some t ->
  t = Day t * msPerDay /\ DayFromYear 0 <= Day t.
Proof.
  unfold parseDateOnly.
  destruct (list_ascii_of_string s)
    as [|y1 [|y2 [|y3 [|y4 [|h1 [|m1 [|m2 [|h2 [|d1 [|d2 [|x l]]]]]]]]]]];
    try discriminate.
  destruct (Ascii.eqb h1 "-" && Ascii.eqb h2 "-"); [|discriminate].
  destruct (digitVal y1) as [a|] eqn:Ea; [|discriminate].
  destruct (digitVal y2) as [b|] eqn:Eb; [|discriminate].
  destruct (digitVal y3) as [c|] eqn:Ec; [|discriminate].
  destruct (digitVal y4) as [e|] eqn:Ee; [|discriminate].
  destruct (digitVal m1) as [f|] eqn:Ef; [|discriminate].
  destruct (digitVal m2) as [g|] eqn:Eg; [|discriminate].
  destruct (digitVal d1) as [h|] eqn:Eh; [|discriminate].
  destruct (digitVal d2) as [i|] eqn:Ei; [|discriminate].
  apply digitVal_range in Ea, Eb, Ec, Ee, Ef, Eg, Eh, Ei.
  cbv zeta.
  set (y := 1000 * a + 100 * b + 10 * c + e).
  set (m := 10 * f + g). set (dd := 10 * h + i).
  destruct ((1 <=? m) && (m <=? 12) && (1 <=? dd)
            && (MonthFromTime (MakeDate (MakeDay y (m - 1) dd) 0) =? m - 1)) eqn:E;
    [|discriminate].
  intros H. injection H as <-.
  rewrite !andb_true_iff in E. destruct E as [[[Hm1 Hm2] Hd] _].
  assert (EDay : Day (MakeDate (MakeDay y (m - 1) dd) 0) = MakeDay y (m - 1) dd)
    by (apply Day_MakeDate; unfold msPerDay; lia).
  rewrite EDay. split; [unfold MakeDate; lia|].
  rewrite MakeDay_small_month by lia.
  assert (Hl : 0 <= (if DaysInYear y =? 366 then 1 else 0) <= 1)
    by (destruct (DaysInYear y =? 366); lia).
  pose proof (monthStart_range _ (m - 1) Hl).
  pose proof (DayFromYear_grows 0 y ltac:(subst y; lia)) as Hg.
  rewrite Z.add_0_l in Hg. subst dd. lia.
Qed.

Lemma baseDateOf_dateOnly (host : Host) (s : string) (t : Z) :
  parseDateOnly s = Some t -> baseDateOf host (Some s) = Some t.
Proof.
  intros H. unfold baseDateOf, newDateString.
  destruct s as [|c s]; [discriminate|]. rewrite H. reflexivity.
Qed.

End DateOnlyDeadlines.

(** ** The calculator on date-only deadlines *)

Lemma next_deadline_dateOnly
    (host : Host) (offset : Z) (s : string) (t : Z)
    (recurrence : TaskRecurrence) :
  (forall u isUTC, LocalTZA host u isUTC = offset) ->
  Z.abs offset <= ES.msPerDay ->
  parseDateOnly s = Some t ->
  ES.YearFromTime t <= 9897 ->
  validRecurrence recurrence = true ->
  recurrence <> null ->
  exists k,
    1 <= k <= 36975 /\
    calculateNextDeadline host (Some s) recurrence
    = Return (datePart (t + k * ES.msPerDay)) /\
    parseDateOnly (datePart (t + k * ES.msPerDay))
    = Some (t + k * ES.msPerDay).
Proof.
  intros Hfixed Hoffset Hs Hy Hv Hnn.
  destruct (ESFacts.YearFromDay_spec (ES.Day t)) as [_ Hup].
  fold (ES.YearFromTime t) in Hup.
  destruct (parseDateOnly_midnight s t Hs) as [Emid Hlow].
  destruct (calculateNextDeadline_fixed_range host offset Hfixed Hoffset
              (Some s) recurrence t (baseDateOf_dateOnly host s t Hs)
              (parseDateOnly_range s t Hs) Hv Hnn) as (k & Hk & E).
  pose proof (ESFacts.Day_plus_days t k) as Ed.
  assert (Hyear : 0 <= ES.YearFromTime (t + k * ES.msPerDay) <= 9999).
  { apply YearFromTime_between. rewrite Ed.
    pose proof (ESFacts.DayFromYear_grows (ES.YearFromTime t + 1)
                  (9898 - (ES.YearFromTime t + 1)) ltac:(lia)) as Hg.
    replace (ES.YearFromTime t + 1 + (9898 - (ES.YearFromTime t + 1)))
      with 9898 in Hg by lia.
    pose proof (ESFacts.DayFromYear_grows 9898 102 ltac:(lia)) as Hg2.
    change (9898 + 102) with (9999 + 1) in Hg2. lia. }
  exists k. split; [exact Hk|].
  split; [rewrite E; apply isoDate_datePart|].
  rewrite (parseDateOnly_datePart _ Hyear), Ed. f_equal.
  unfold ES.msPerDay in *. lia.
Qed.

(** X1.  In a zone without daylight saving time, the deadline computed
    for a valid recurrence from a date-only deadline (of a year up to 9897)
    is again a date-only string, and the calculator reads it back as UTC
    midnight of a strictly later day: a whole number of days, at least
    one, after the deadline it started from. *)
Theorem next_deadline_reads_back_later
    (host : Host) (offset : Z) (s : string) (t : Z)
    (recurrence : TaskRecurrence) :
  (forall u isUTC, LocalTZA host u isUTC = offset) ->
  Z.abs offset <= ES.msPerDay ->
  parseDateOnly s = Some t ->
  ES.YearFromTime t <= 9897 ->
  validRecurrence recurrence = true ->
  recurrence <> null ->
  exists s' k,
    calculateNextDeadline host (Some s) recurrence = Return s' /\
    1 <= k /\
    parseDateOnly s' = Some (t + k * ES.msPerDay) /\
    baseDateOf host (Some s') = Some (t + k * ES.msPerDay).
Proof.
  intros Hfixed Hoffset Hs Hy Hv Hnn.
  destruct (next_deadline_dateOnly host offset s t recurrence
              Hfixed Hoffset Hs Hy Hv Hnn) as (k & Hk & Ecalc & Eparse).
  exists (datePart (t + k * ES.msPerDay)), k.
  split; [exact Ecalc|]. split; [lia|]. split; [exact Eparse|].
  apply baseDateOf_dateOnly. exact Eparse.
Qed.

Lemma next_deadline_reads_back_later_witness :
  exists s' k,
    calculateNextDeadline hostEST (Some "2024-01-31") (weeklyOn 2 [1; 3])
    = Return s' /\
    1 <= k /\
    parseDateOnly s' = Some (1706659200000 + k * ES.msPerDay) /\
    baseDateOf hostEST (Some s') = Some (1706659200000 + k * ES.msPerDay).
Proof.
  apply (next_deadline_reads_back_later hostEST (-18000000) "2024-01-31"
           1706659200000 (weeklyOn 2 [1; 3])).
  - intros u isUTC. reflexivity.
  - vm_compute. discriminate.
  - reflexivity.
  - vm_compute. discriminate.
  - reflexivity.
  - discriminate.
Defined.

(** X2.  In a zone without daylight saving time, an interval in days or in
    weeks (without selected weekdays) moves a date-only deadline by
    exactly that many calendar days, and so do the legacy patterns
    [daily] and [weekly]. *)
Theorem plain_interval_moves_whole_days
    (host : Host) (offset : Z) (s : string) (t n : Z)
    (w : option (list Z)) (md : option Z) :
  (forall u isUTC, LocalTZA host u isUTC = offset) ->
  Z.abs offset <= ES.msPerDay ->
  parseDateOnly s = Some t ->
  1 <= n <= 99 ->
  calculateNextDeadline host (Some s)
    (flexible {| interval := n; unit_ := day; weekDays := w; monthDay := md |})
  = Return (datePart (t + n * ES.msPerDay)) /\
  calculateNextDeadline host (Some s)
    (flexible {| interval := n; unit_ := week; weekDays := None; monthDay := md |})
  = Return (datePart (t + 7 * n * ES.msPerDay)) /\
  calculateNextDeadline host (Some s) (legacy daily)
  = Return (datePart (t + ES.msPerDay)) /\
  calculateNextDeadline host (Some s) (legacy weekly)
  = Return (datePart (t + 7 * ES.msPerDay)).
Proof.
  intros Hfixed Hoffset Hs Hn.
  pose proof (parseDateOnly_range s t Hs) as Ht.
  unfold calculateNextDeadline. rewrite (baseDateOf_dateOnly host s t Hs).
  unfold calculateFlexibleNextDeadline, calculateLegacyNextDeadline.
  cbn [unit_ interval weekDays monthDay getDate option_map nadd].
  rewrite !(setDate_fixed host offset Hfixed) by (try exact Ht; lia).
  rewrite !isoDate_datePart.
  replace (n * 7 * ES.msPerDay) with (7 * n * ES.msPerDay) by lia.
  replace (1 * ES.msPerDay) with ES.msPerDay by lia.
  repeat split; reflexivity.
Qed.

Lemma plain_interval_moves_whole_days_witness :
  calculateNextDeadline hostEST (Some "2024-02-27")
    (flexible {| interval := 3; unit_ := day; weekDays := None; monthDay := None |})
  = Return "2024-03-01".
Proof.
  destruct (plain_interval_moves_whole_days hostEST (-18000000) "2024-02-27"
              1708992000000 3 None None) as (H & _).
  - intros u isUTC. reflexivity.
  - vm_compute. discriminate.
  - reflexivity.
  - lia.
  - rewrite H. vm_compute. reflexivity.
Defined.

(** X3.  In a zone without daylight saving time, [getDaysInMonth] gives
    the length of the local month of its argument in the Gregorian
    calendar (for local years outside 0..99, which [new Date(y, m, d)]
    takes in the 1900s). *)
Theorem getDaysInMonth_is_month_length (host : Host) (offset t : Z) :
  (forall u isUTC, LocalTZA host u isUTC = offset) ->
  Z.abs t <= safeTime ->
  ~ (0 <= ES.YearFromTime (LocalTime host t) <= 99) ->
  getDaysInMonth host (Some t)
  = Some (daysInMonth (ES.YearFromTime (LocalTime host t))
                      (ES.MonthFromTime (LocalTime host t))).
Proof.
  intros Hfixed Ht Hy.
  apply (getDaysInMonth_fixed host offset Hfixed); [|exact Hy].
  unfold safeTime, ES.msPerDay in *. lia.
Qed.

Lemma getDaysInMonth_is_month_length_witness :
  getDaysInMonth hostEST (Some 1709164800000) = Some 29.
Proof.
  rewrite (getDaysInMonth_is_month_length hostEST (-18000000) 1709164800000).
  - reflexivity.
  - intros u isUTC. reflexivity.
  - vm_compute. discriminate.
  - vm_compute. intros [_ H]. apply H. reflexivity.
Defined.

(** X4.  Where local time is UTC, the monthly rule from a base date (since
    1970) on a day of the month that the month [n] months later has too
    (any day up to the 28th, for one) gives a date in that month: on the
    same day of the month or, with a [monthDay] of at least 1, on that
    day, at most the last day of that month. *)
Theorem monthly_rule_lands_in_the_target_month
    (host : Host) (t n : Z) (w : option (list Z)) (md : option Z) :
  (forall u isUTC, LocalTZA host u isUTC = 0) ->
  0 <= t <= safeTime ->
  1 <= n <= 99 ->
  ES.DateFromTime t
  <= daysInMonth ((monthIndex t + n) / 12) ((monthIndex t + n) mod 12) ->
  match md with Some m => 1 <= m | None => True end ->
  exists t',
    calculateFlexibleNextDeadline host (Some t)
      {| interval := n; unit_ := month; weekDays := w; monthDay := md |}
    = Return (datePart t') /\
    monthIndex t' = monthIndex t + n /\
    ES.DateFromTime t'
    = match md with
      | Some m => Z.min m (daysInMonth (ES.YearFromTime t') (ES.MonthFromTime t'))
      | None => ES.DateFromTime t
      end.
Proof.
  intros Hutc Ht Hn Hd Hmd.
  assert (El : forall u, LocalTime host u = u)
    by (intros u; unfold LocalTime; rewrite Hutc; lia).
  assert (Hy : 100 <= ES.YearFromTime t).
  { destruct (ESFacts.YearFromDay_spec (ES.Day t)) as [_ Hup].
    fold (ES.YearFromTime t) in Hup.
    assert (H0 : 0 <= ES.Day t)
      by (unfold ES.Day, ES.msPerDay; Z.div_mod_to_equations; lia).
    destruct (Z_lt_le_dec (ES.YearFromTime t) 100) as [Hlt|]; [|assumption].
    pose proof (ESFacts.DayFromYear_grows (ES.YearFromTime t + 1)
                  (1970 - (ES.YearFromTime t + 1)) ltac:(lia)) as Hg.
    replace (ES.YearFromTime t + 1 + (1970 - (ES.YearFromTime t + 1)))
      with 1970 in Hg by lia.
    change (ES.DayFromYear 1970) with 0 in Hg. lia. }
  destruct (monthly_fixed_fields host 0 Hutc t n w md) as (t' & E & Ei & Edate);
    try rewrite El; try assumption; try lia.
  rewrite !El in *. exists t'. rewrite <- isoDate_datePart. auto.
Qed.

Lemma monthly_rule_lands_in_the_target_month_witness :
  exists t',
    calculateFlexibleNextDeadline hostUTC (Some 1706659200000)
      {| interval := 2; unit_ := month; weekDays := None; monthDay := Some 31 |}
    = Return (datePart t') /\
    monthIndex t' = monthIndex 1706659200000 + 2 /\
    ES.DateFromTime t'
    = Z.min 31 (daysInMonth (ES.YearFromTime t') (ES.MonthFromTime t')).
Proof.
  apply (monthly_rule_lands_in_the_target_month hostUTC 1706659200000 2 None
           (Some 31)).
  - intros u isUTC. reflexivity.
  - vm_compute. split; discriminate.
  - lia.
  - vm_compute. discriminate.
  - lia.
Defined.

(** X5.  A recurring task without a deadline is scheduled from the clock:
    in a zone without daylight saving time, the deadline computed for a
    valid recurrence is the UTC date of the clock moved by a whole number
    of days, at least one. *)
Theorem recurrence_without_deadline_counts_from_the_clock
    (host : Host) (offset : Z) (recurrence : TaskRecurrence) :
  (forall u isUTC, LocalTZA host u isUTC = offset) ->
  Z.abs offset <= ES.msPerDay ->
  Z.abs (now host) <= safeTime ->
  validRecurrence recurrence = true ->
  recurrence <> null ->
  exists k,
    1 <= k /\
    ES.Day (now host + k * ES.msPerDay) = ES.Day (now host) + k /\
    calculateNextDeadline host None recurrence
    = Return (datePart (now host + k * ES.msPerDay)).
Proof.
  intros Hfixed Hoffset Hnow Hv Hnn.
  assert (Eb : baseDateOf host None = Some (now host)).
  { unfold baseDateOf, newDateNow. apply ESFacts.TimeClip_in_range.
    unfold ES.maxTime, safeTime in *. lia. }
  destruct (calculateNextDeadline_fixed_range host offset Hfixed Hoffset
              None recurrence (now host) Eb Hnow Hv Hnn) as (k & Hk & E).
  exists k. split; [lia|]. split; [apply ESFacts.Day_plus_days|].
  rewrite E. apply isoDate_datePart.
Qed.

Lemma recurrence_without_deadline_counts_from_the_clock_witness :
  calculateNextDeadline hostEST None (weeklyOn 2 [1; 3]) = Return "2024-01-16".
Proof.
  destruct (recurrence_without_deadline_counts_from_the_clock hostEST
              (-18000000) (weeklyOn 2 [1; 3])) as (k & _ & _ & E).
  - intros u isUTC. reflexivity.
  - vm_compute. discriminate.
  - vm_compute. discriminate.
  - reflexivity.
  - discriminate.
  - vm_compute. reflexivity.
Defined.

Section FixedZoneYearly.
Import ES ESFacts.
Context (host : Host) (offset : Z).
Context (Hfixed : forall t isUTC, LocalTZA host t isUTC = offset).

(** From a day that the same month [n] years later has too (any day but
    29 February, for one), [setFullYear] reaches that day of that month. *)
Lemma setFullYear_fixed_fields (t n : Z) :
  Z.abs t <= safeTime -> 1 <= n <= 99 ->
  DateFromTime (LocalTime host t)
  <= daysInMonth (YearFromTime (LocalTime host t) + n)
                 (MonthFromTime (LocalTime host t)) ->
  exists t',
    setFullYear host (Some t) (Some (YearFromTime (LocalTime host t) + n))
    = Some t' /\
    YearFromTime (LocalTime host t') = YearFromTime (LocalTime host t) + n /\
    MonthFromTime (LocalTime host t') = MonthFromTime (LocalTime host t) /\
    DateFromTime (LocalTime host t') = DateFromTime (LocalTime host t).
Proof.
  intros Ht Hn Hday.
  set (lt := LocalTime host t) in *.
  pose proof (MonthFromTime_range lt) as Hm.
  pose proof (DateFromTime_range lt) as Hd.
  pose proof (MakeDay_near lt n (MonthFromTime lt) (DateFromTime lt)) as Hnear.
  assert (Hdiv : MonthFromTime lt / 12 = 0) by (Z.div_mod_to_equations; lia).
  pose proof (month_length_daysInMonth (YearFromTime lt + n) (MonthFromTime lt) Hm)
    as Elen.
  assert (ED : MakeDay (YearFromTime lt + n) (MonthFromTime lt) (DateFromTime lt)
               = MakeDay 0 (12 * (YearFromTime lt + n) + MonthFromTime lt) 1
                 + (DateFromTime lt - 1))
    by (rewrite MakeDay_index, MakeDay_date; reflexivity).
  remember (MakeDay (YearFromTime lt + n) (MonthFromTime lt) (DateFromTime lt))
    as D eqn:HD.
  set (k := D - Day lt).
  assert (Hk : Z.abs k <= 37000) by (subst k; lia).
  pose proof (LocalTime_plus_days host offset Hfixed t k) as El.
  pose proof (Day_plus_days (LocalTime host t) k) as Ed. rewrite <- El in Ed.
  fold lt in Ed.
  destruct (fields_in_month (LocalTime host (t + k * msPerDay))
              (12 * (YearFromTime lt + n) + MonthFromTime lt)) as (Ei & Edate);
    [subst k; lia|].
  destruct (monthIndex_fields _ _ _ Hm Ei) as [Ey Emonth].
  exists (t + k * msPerDay). split.
  - unfold setFullYear. fold lt. rewrite <- HD.
    apply (moved_fixed host offset Hfixed). fold lt. fold k.
    unfold maxTime, safeTime, msPerDay in *. lia.
  - split; [exact Ey|]. split; [exact Emonth | subst k; lia].
Qed.

End FixedZoneYearly.

(** X25.  Where local time is UTC, the yearly rule keeps the calendar day:
    from a base date on a day that the same month [n] years later has too
    (every day except 29 February before a year that is not a leap year),
    the next date is that day of that month, [n] years later. *)
Theorem yearly_rule_keeps_the_calendar_day
    (host : Host) (t n : Z) (w : option (list Z)) (md : option Z) :
  (forall u isUTC, LocalTZA host u isUTC = 0) ->
  Z.abs t <= safeTime ->
  1 <= n <= 99 ->
  ES.DateFromTime t
  <= daysInMonth (ES.YearFromTime t + n) (ES.MonthFromTime t) ->
  exists t',
    calculateFlexibleNextDeadline host (Some t)
      {| interval := n; unit_ := year; weekDays := w; monthDay := md |}
    = Return (datePart t') /\
    ES.YearFromTime t' = ES.YearFromTime t + n /\
    ES.MonthFromTime t' = ES.MonthFromTime t /\
    ES.DateFromTime t' = ES.DateFromTime t.
Proof.
  intros Hutc Ht Hn Hday.
  assert (El : forall u, LocalTime host u = u)
    by (intros u; unfold LocalTime; rewrite Hutc; lia).
  destruct (setFullYear_fixed_fields host 0 Hutc t n Ht Hn)
    as (t' & E & Ey & Em & Ed); [rewrite El; exact Hday|].
  rewrite !El in *. exists t'.
  unfold calculateFlexibleNextDeadline.
  cbn [unit_ interval getFullYear option_map nadd]. rewrite El, E.
  split; [apply isoDate_datePart | auto].
Qed.

Lemma yearly_rule_keeps_the_calendar_day_witness :
  exists t',
    calculateFlexibleNextDeadline hostUTC (Some 1709164800000)
      {| interval := 4; unit_ := year; weekDays := None; monthDay := None |}
    = Return (datePart t') /\
    ES.YearFromTime t' = ES.YearFromTime 1709164800000 + 4 /\
    ES.MonthFromTime t' = ES.MonthFromTime 1709164800000 /\
    ES.DateFromTime t' = ES.DateFromTime 1709164800000.
Proof.
  apply (yearly_rule_keeps_the_calendar_day hostUTC 1709164800000 4 None None).
  - intros u isUTC. reflexivity.
  - vm_compute. discriminate.
  - lia.
  - vm_compute. discriminate.
Defined.

(** ** Ordinals and descriptions *)

Section Ordinals.

Lemma below_100 (P : Z -> Prop) :
  (forall k : nat, (k < 100)%nat -> P (Z.of_nat k)) ->
  forall v, 0 <= v < 100 -> P v.
Proof.
  intros H v Hv. rewrite <- (Z2Nat.id v) by lia. apply H. lia.
Qed.

Lemma suffix_of_two_digits (v : Z) :
  0 <= v < 100 ->
  match index ["th"; "st"; "nd"; "rd"] (Z.rem (v - 20) 10) with
  | Some x => x
  | None => match index ["th"; "st"; "nd"; "rd"] v with
            | Some x => x
            | None => "th"
            end
  end
  = if (11 <=? v) && (v <=? 13) then "th"
    else match v mod 10 with 1 => "st" | 2 => "nd" | 3 => "rd" | _ => "th" end.
Proof.
  revert v. apply below_100. intros k Hk.
  do 100 (destruct k as [|k]; [vm_compute; reflexivity|]).
  lia.
Qed.

Lemma suffix_of_negative (v : Z) :
  -100 < v <= 0 ->
  match index ["th"; "st"; "nd"; "rd"] (Z.rem (v - 20) 10) with
  | Some x => x
  | None => match index ["th"; "st"; "nd"; "rd"] v with
            | Some x => x
            | None => "th"
            end
  end
  = "th".
Proof.
  intros Hv. assert (Hu : 0 <= - v < 100) by lia.
  replace v with (- - v) by lia. revert Hu. generalize (- v). clear v Hv.
  intros u Hu. revert u Hu.
  apply (below_100 (fun u =>
    match index ["th"; "st"; "nd"; "rd"] (Z.rem (- u - 20) 10) with
    | Some x => x
    | None => match index ["th"; "st"; "nd"; "rd"] (- u) with
              | Some x => x
              | None => "th"
              end
    end = "th")).
  intros k Hk.
  do 100 (destruct k as [|k]; [vm_compute; reflexivity|]).
  lia.
Qed.

End Ordinals.

(** X6.  [getOrdinalSuffix] follows the English rule on the numbers from 0
    on: "th" when the last two digits are 11, 12 or 13, otherwise "st",
    "nd" or "rd" after a last digit 1, 2 or 3 and "th" after any other;
    a negative number gets "th". *)
Theorem ordinal_suffix_follows_the_english_rule (n : Z) :
  getOrdinalSuffix n
  = if n <? 0 then "th"
    else if (11 <=? n mod 100) && (n mod 100 <=? 13) then "th"
    else match n mod 10 with 1 => "st" | 2 => "nd" | 3 => "rd" | _ => "th" end.
Proof.
  unfold getOrdinalSuffix. cbv zeta.
  destruct (Z.ltb_spec n 0) as [Hneg|Hpos].
  - apply suffix_of_negative.
    pose proof (Z.rem_bound_pos_neg n 100 ltac:(lia) ltac:(lia)). lia.
  - rewrite (Z.rem_mod_nonneg n 100) by lia.
    replace (n mod 10) with ((n mod 100) mod 10)
      by (Z.div_mod_to_equations; lia).
    apply suffix_of_two_digits. apply Z.mod_pos_bound. lia.
Qed.

Section Descriptions.

Lemma app_eq_empty (a b : string) : a ++ b = "" -> a = "" /\ b = "".
Proof. destruct a; simpl; [auto | discriminate]. Qed.

Lemma description_of_config_not_empty (config : RecurrenceConfig) :
  getRecurrenceDescription (flexible config) <> "".
Proof.
  destruct config as [n u w md]. unfold getRecurrenceDescription.
  cbn [interval unit_ weekDays monthDay].
  intros H.
  destruct (n =? 1), (n =? 2), u, w as [[|d w]|], md as [m|];
    repeat match type of H with
           | context [if ?c then _ else _] => destruct c
           end;
    cbn [append] in H;
    repeat first [ discriminate H
                 | apply app_eq_empty in H; destruct H as [_ H] ].
Qed.

End Descriptions.

(** X7.  The description is empty for [null] only: every legacy pattern
    and every configuration, valid or not, has a description to show. *)
Theorem description_is_empty_for_null_only (recurrence : TaskRecurrence) :
  getRecurrenceDescription recurrence = "" <-> recurrence = null.
Proof.
  split; [|intros ->; reflexivity].
  destruct recurrence as [p|config|]; [| |reflexivity].
  - destruct p; discriminate.
  - intros H. destruct (description_of_config_not_empty config H).
Qed.

(** X8.  Turning a legacy pattern into a custom recurrence in the dialog
    (choosing "Custom..." while the pattern is selected) gives the
    configuration "every 1 [unit]", which has the description and the next
    occurrence of the pattern, whatever the deadline and the host. *)
Theorem legacy_pattern_made_custom_is_equivalent
    (host : Host) (currentDeadline : option string)
    (p : LegacyRecurrencePattern) :
  let custom :=
    buildRecurrenceConfig
      (presetOnChange choose_custom (parseRecurrenceToFormState (legacy p))) in
  custom = flexible {| interval := 1; unit_ := unitMap p;
                       weekDays := None; monthDay := None |} /\
  getRecurrenceDescription custom = getRecurrenceDescription (legacy p) /\
  calculateNextDeadline host currentDeadline custom
  = calculateNextDeadline host currentDeadline (legacy p).
Proof.
  destruct p; repeat split; reflexivity.
Qed.

Lemma buildRecurrenceConfig_fixed_point (formState : RecurrenceFormState) :
  buildRecurrenceConfig
    (parseRecurrenceToFormState (buildRecurrenceConfig formState))
  = buildRecurrenceConfig formState.
Proof.
  destruct formState as [en pr n u w md use].
  destruct en; [|reflexivity].
  destruct pr as [[p|]|]; [reflexivity| |];
    unfold buildRecurrenceConfig, parseRecurrenceToFormState;
    cbn [enabled preset form_interval form_unit form_weekDays form_monthDay
         useSpecificMonthDay negb interval unit_ weekDays monthDay];
    f_equal;
    (destruct u, w as [|d w], use, md as [m|]; cbn; try reflexivity;
     destruct (m =? 0) eqn:E; cbn; rewrite ?E; reflexivity).
Qed.

(** X9.  What the dialog builds is a fixed point of the round trip through
    the form: reading a built recurrence into the form and building it
    again gives exactly the same value, for every state of the form. *)
Theorem built_recurrence_survives_the_form (formState : RecurrenceFormState) :
  buildRecurrenceConfig
    (parseRecurrenceToFormState (buildRecurrenceConfig formState))
  = buildRecurrenceConfig formState.
Proof. apply buildRecurrenceConfig_fixed_point. Qed.

(** ** The recurrence fields of the dialog *)

Section WeekdayButtons.

Lemma insertSorted_below (x : Z) (l : list Z) :
  (forall y, In y l -> x < y) -> insertSorted x l = x :: l.
Proof.
  destruct l as [|z l]; [reflexivity|]. intros H. simpl.
  pose proof (H z (or_introl eq_refl)).
  destruct (Z.leb_spec x z); [reflexivity | lia].
Qed.

Lemma insertSorted_Increasing (x : Z) (l : list Z) :
  Increasing l -> ~ In x l -> Increasing (insertSorted x l).
Proof.
  induction 1 as [|z l Hz Hl IH]; intros Hx; simpl.
  - constructor; [intros ? []|constructor].
  - destruct (Z.leb_spec x z).
    + constructor; [|constructor; assumption].
      intros y [<-|Hy].
      * assert (x <> z) by (intros ->; apply Hx; left; reflexivity). lia.
      * specialize (Hz y Hy).
        assert (x <> z) by (intros ->; apply Hx; left; reflexivity). lia.
    + constructor.
      * intros y Hy. apply insertSorted_In in Hy. destruct Hy as [->|Hy]; [lia|auto].
      * apply IH. intros Hin. apply Hx. right. exact Hin.
Qed.

(** Sorting an ascending list with one more element at its end inserts
    that element at its place. *)
Lemma sortAscending_snoc (l : list Z) (i : Z) :
  Increasing l -> ~ In i l -> sortAscending (l ++ [i]) = insertSorted i l.
Proof.
  unfold sortAscending. rewrite fold_right_app. cbn [fold_right insertSorted].
  induction 1 as [|z l Hz Hl IH]; intros Hi; [reflexivity|].
  cbn [fold_right]. rewrite IH by (intros Hin; apply Hi; right; exact Hin).
  assert (Hne : i <> z) by (intros ->; apply Hi; left; reflexivity).
  cbn [insertSorted]. destruct (Z.leb_spec i z).
  - rewrite (insertSorted_below i l) by (intros y Hy; specialize (Hz y Hy); lia).
    cbn [insertSorted]. destruct (Z.leb_spec z i); [lia|].
    rewrite (insertSorted_below z l Hz). reflexivity.
  - apply insertSorted_below. intros y Hy. apply insertSorted_In in Hy.
    destruct Hy as [->|Hy]; [lia | auto].
Qed.

Lemma includes_In (l : list Z) (i : Z) : includes l i = true <-> In i l.
Proof.
  unfold includes. rewrite existsb_exists. split.
  - intros (x & Hx & E). apply Z.eqb_eq in E. subst. exact Hx.
  - intros H. exists i. split; [exact H | apply Z.eqb_refl].
Qed.

Lemma filter_out_In (l : list Z) (i y : Z) :
  In y (filter (fun d => negb (d =? i)) l) <-> In y l /\ y <> i.
Proof.
  rewrite filter_In. split; intros [H1 H2]; (split; [exact H1|]).
  - intros ->. rewrite Z.eqb_refl in H2. discriminate.
  - apply negb_true_iff, Z.eqb_neq. exact H2.
Qed.

Lemma filter_Increasing (f : Z -> bool) (l : list Z) :
  Increasing l -> Increasing (filter f l).
Proof.
  induction 1 as [|z l Hz Hl IH]; simpl; [constructor|].
  destruct (f z); [|exact IH].
  constructor; [|exact IH]. intros y Hy. apply filter_In in Hy. apply Hz, Hy.
Qed.

Lemma filter_out_absent (l : list Z) (i : Z) :
  ~ In i l -> filter (fun d => negb (d =? i)) l = l.
Proof.
  induction l as [|z l IH]; intros Hi; [reflexivity|]. simpl.
  destruct (Z.eqb_spec z i) as [->|Hne];
    [destruct Hi; left; reflexivity|].
  simpl. rewrite IH; [reflexivity|]. intros H. apply Hi. right. exact H.
Qed.

Lemma filter_out_inserted (l : list Z) (i : Z) :
  ~ In i l -> filter (fun d => negb (d =? i)) (insertSorted i l) = l.
Proof.
  induction l as [|z l IH]; intros Hi; simpl.
  - rewrite Z.eqb_refl. reflexivity.
  - assert (Hne : z <> i) by (intros ->; apply Hi; left; reflexivity).
    destruct (i <=? z); simpl.
    + rewrite Z.eqb_refl. simpl.
      destruct (Z.eqb_spec z i); [contradiction|]. simpl.
      rewrite filter_out_absent; [reflexivity|].
      intros H. apply Hi. right. exact H.
    + destruct (Z.eqb_spec z i); [contradiction|]. simpl.
      rewrite IH; [reflexivity|]. intros H. apply Hi. right. exact H.
Qed.

Lemma insert_filtered_out (l : list Z) (i : Z) :
  Increasing l -> In i l ->
  insertSorted i (filter (fun d => negb (d =? i)) l) = l.
Proof.
  induction 1 as [|z l Hz Hl IH]; intros Hi; [destruct Hi|]. simpl.
  destruct (Z.eqb_spec z i) as [->|Hne]; simpl.
  - assert (Hni : ~ In i l) by (intros H; specialize (Hz i H); lia).
    rewrite filter_out_absent by exact Hni.
    apply insertSorted_below. exact Hz.
  - destruct Hi as [->|Hi]; [contradiction|].
    specialize (Hz i Hi). destruct (Z.leb_spec i z); [lia|].
    rewrite IH by exact Hi. reflexivity.
Qed.

Lemma weekdayOnClick_days (i : Z) (form : RecurrenceFormState) :
  Increasing (form_weekDays form) ->
  form_weekDays (weekdayOnClick i form)
  = if includes (form_weekDays form) i
    then filter (fun d => negb (d =? i)) (form_weekDays form)
    else insertSorted i (form_weekDays form).
Proof.
  intros H. unfold weekdayOnClick. cbn [form_weekDays].
  destruct (includes (form_weekDays form) i) eqn:E; [reflexivity|].
  apply sortAscending_snoc; [exact H|].
  intros Hin. apply includes_In in Hin. congruence.
Qed.

Lemma weekdayOnClick_Increasing (i : Z) (form : RecurrenceFormState) :
  Increasing (form_weekDays form) ->
  Increasing (form_weekDays (weekdayOnClick i form)).
Proof.
  intros H. rewrite weekdayOnClick_days by exact H.
  destruct (includes (form_weekDays form) i) eqn:E.
  - apply filter_Increasing. exact H.
  - apply insertSorted_Increasing; [exact H|].
    intros Hin. apply includes_In in Hin. congruence.
Qed.

Lemma weekdayOnClick_In (i y : Z) (form : RecurrenceFormState) :
  Increasing (form_weekDays form) ->
  In y (form_weekDays (weekdayOnClick i form)) ->
  y = i \/ In y (form_weekDays form).
Proof.
  intros H. rewrite weekdayOnClick_days by exact H.
  destruct (includes (form_weekDays form) i).
  - intros Hy. apply filter_out_In in Hy. right. apply Hy.
  - intros Hy. apply insertSorted_In in Hy. exact Hy.
Qed.

End WeekdayButtons.

(** X10.  Clicking the button of a weekday twice leaves the form as it
    was, the selected days being in ascending order (as the buttons keep
    them): the first click selects or deselects the day, the second one
    undoes it. *)
Theorem weekday_button_twice_restores_the_form
    (dayIndex : Z) (form : RecurrenceFormState) :
  Increasing (form_weekDays form) ->
  weekdayOnClick dayIndex (weekdayOnClick dayIndex form) = form.
Proof.
  intros H.
  assert (E : form_weekDays (weekdayOnClick dayIndex (weekdayOnClick dayIndex form))
              = form_weekDays form).
  { rewrite weekdayOnClick_days by (apply weekdayOnClick_Increasing; exact H).
    rewrite !weekdayOnClick_days by exact H.
    destruct (includes (form_weekDays form) dayIndex) eqn:Ein.
    - apply includes_In in Ein.
      assert (Hout : includes (filter (fun d => negb (d =? dayIndex))
                                 (form_weekDays form)) dayIndex = false).
      { apply not_true_is_false. intros Hin. apply includes_In in Hin.
        apply filter_out_In in Hin. destruct Hin as [_ Hne]. congruence. }
      rewrite Hout. apply insert_filtered_out; assumption.
    - assert (Hni : ~ In dayIndex (form_weekDays form))
        by (intros Hin; apply includes_In in Hin; congruence).
      assert (Hin : includes (insertSorted dayIndex (form_weekDays form)) dayIndex
                    = true)
        by (apply includes_In, insertSorted_In; left; reflexivity).
      rewrite Hin. apply filter_out_inserted. exact Hni. }
  destruct form as [en pr n u w md use].
  unfold weekdayOnClick in *. cbn [enabled preset form_interval form_unit
    form_weekDays form_monthDay useSpecificMonthDay] in *.
  f_equal. exact E.
Qed.

Lemma weekday_button_twice_restores_the_form_witness :
  weekdayOnClick 3 (weekdayOnClick 3 (weekdayOnClick 5 defaultRecurrenceForm))
  = weekdayOnClick 5 defaultRecurrenceForm.
Proof.
  apply (weekday_button_twice_restores_the_form 3
           (weekdayOnClick 5 defaultRecurrenceForm)).
  vm_compute. constructor; [intros y []|constructor].
Defined.

Section FormInvariant.

Lemma formInvariant_default : formInvariant defaultRecurrenceForm.
Proof.
  unfold formInvariant. cbn. split; [lia|]. split; [intros d []|].
  split; [constructor | exact I].
Qed.

Lemma handle_formInvariant (form : RecurrenceFormState) (e : FormEvent) :
  formInvariant form -> offered e = true -> formInvariant (handle form e).
Proof.
  intros (Hn & Hr & Hi & Hm) He.
  destruct e as [value|parsed|value|i|checked|d]; cbn [handle].
  - destruct value; [apply formInvariant_default| |];
      unfold formInvariant; cbn; auto.
    split; [lia|]. split; [intros d []|]. split; [constructor | exact I].
  - unfold formInvariant. cbn. split; [lia | auto].
  - unfold formInvariant. cbn. split; [exact Hn|]. split; [intros d []|].
    split; [constructor | exact I].
  - cbn [offered] in He. apply andb_true_iff in He. destruct He as [H0 H6].
    unfold formInvariant. split; [exact Hn|]. split; [|split].
    + intros y Hy. apply weekdayOnClick_In in Hy; [|exact Hi].
      destruct Hy as [->|Hy]; [lia | auto].
    + apply weekdayOnClick_Increasing. exact Hi.
    + exact Hm.
  - unfold formInvariant. cbn. split; [exact Hn|]. split; [exact Hr|].
    split; [exact Hi|]. destruct checked; [|exact I].
    destruct (form_monthDay form) as [m|]; cbn; [|lia].
    destruct (Z.eqb_spec m 0); lia.
  - cbn [offered] in He. apply andb_true_iff in He. destruct He as [H1 H31].
    unfold formInvariant. cbn. split; [exact Hn|]. split; [exact Hr|].
    split; [exact Hi | lia].
Qed.

Lemma handled_formInvariant (events : list FormEvent) (form : RecurrenceFormState) :
  formInvariant form -> forallb offered events = true ->
  formInvariant (fold_left handle events form).
Proof.
  revert form. induction events as [|e events IH]; intros form Hf He; [exact Hf|].
  cbn [forallb] in He. apply andb_true_iff in He. destruct He as [He Hes].
  cbn [fold_left]. apply IH; [|exact Hes].
  apply handle_formInvariant; assumption.
Qed.

(** The form of a stored recurrence that respects the data model and lists
    its weekdays in ascending order. *)
Lemma formInvariant_parse (recurrence : TaskRecurrence) :
  validRecurrence recurrence = true ->
  match recurrence with
  | flexible config =>
      match weekDays config with Some w => Increasing w | None => True end
  | _ => True
  end ->
  formInvariant (parseRecurrenceToFormState recurrence).
Proof.
  destruct recurrence as [p|config|]; intros Hv Hw;
    [| |apply formInvariant_default].
  - unfold formInvariant. cbn. split; [lia|]. split; [intros d []|].
    split; [constructor | exact I].
  - destruct config as [n u w md]. unfold validRecurrence, validConfig in Hv.
    cbn in Hv, Hw. rewrite !andb_true_iff in Hv.
    destruct Hv as [[[Hn1 Hn2] Hdays] Hmd].
    unfold formInvariant. cbn. split; [lia|]. split; [|split].
    + destruct w as [w|]; [|intros d []]. intros d Hd.
      rewrite forallb_forall in Hdays. specialize (Hdays d Hd). lia.
    + destruct w as [w|]; [exact Hw | constructor].
    + destruct md as [m|]; [lia | exact I].
Qed.

End FormInvariant.

(** X11.  Whatever the user does with the recurrence fields of the dialog
    (the selectors, the interval field, the weekday buttons 0..6, the
    day-of-month box and its options 1..31), starting from a form that
    holds an interval of at least 1, ascending weekdays in 0..6 and a day
    of the month in 1..31 or none, the recurrence that is saved is [null],
    a legacy pattern, or a configuration with an interval of at least 1,
    weekdays only for the unit week (then at least one, ascending, in
    0..6) and a day of the month only for the unit month (then in 1..31). *)
Theorem recurrence_built_by_the_dialog_is_well_formed
    (form : RecurrenceFormState) (events : list FormEvent) :
  formInvariant form ->
  forallb offered events = true ->
  match buildRecurrenceConfig (fold_left handle events form) with
  | flexible config =>
      1 <= interval config /\
      match weekDays config with
      | Some w =>
          unit_ config = week /\ w <> [] /\ Increasing w /\
          forall d, In d w -> 0 <= d <= 6
      | None => True
      end /\
      match monthDay config with
      | Some m => unit_ config = month /\ 1 <= m <= 31
      | None => True
      end
  | _ => True
  end.
Proof.
  intros Hf He.
  pose proof (handled_formInvariant events form Hf He) as (Hn & Hr & Hi & Hm).
  remember (fold_left handle events form) as f eqn:Ef. clear Ef.
  destruct f as [en pr n u w md use]. unfold buildRecurrenceConfig.
  cbn [enabled preset form_interval form_unit form_weekDays form_monthDay
       useSpecificMonthDay] in *.
  destruct en; [|exact I]. cbn [negb].
  assert (G : forall p : option Preset,
    match p with Some (preset_legacy _) => True | _ =>
      1 <= n /\
      match (if isWeek u && (0 <? Z.of_nat (List.length w)) then Some w else None)
      with
      | Some w' =>
          u = week /\ w' <> [] /\ Increasing w' /\
          forall d, In d w' -> 0 <= d <= 6
      | None => True
      end /\
      match (if isMonth u && use && truthy md then md else None) with
      | Some m => u = month /\ 1 <= m <= 31
      | None => True
      end
    end).
  { intros [[p|]|]; [exact I| |];
      (split; [exact Hn|]; split;
       [ destruct u; cbn [isWeek andb]; try exact I;
         destruct w as [|d w]; [exact I|];
         cbn; split; [reflexivity|]; split; [discriminate|];
         split; assumption
       | destruct u; cbn [isMonth andb]; try exact I;
         destruct use; cbn [andb]; [|exact I];
         destruct md as [m|]; cbn [truthy]; [|exact I];
         destruct (m =? 0); cbn [negb]; [exact I|]; split; [reflexivity | exact Hm] ]). }
  specialize (G pr). destruct pr as [[p|]|]; [exact I | exact G | exact G].
Qed.

Lemma recurrence_built_by_the_dialog_is_well_formed_witness :
  formInvariant defaultRecurrenceForm /\
  match
    buildRecurrenceConfig
      (fold_left handle
         [presetChanged choose_custom; intervalChanged (Some 0);
          weekdayClicked 3; weekdayClicked 1]
         defaultRecurrenceForm)
  with
  | flexible config =>
      1 <= interval config /\
      match weekDays config with
      | Some w =>
          unit_ config = week /\ w <> [] /\ Increasing w /\
          forall d, In d w -> 0 <= d <= 6
      | None => True
      end /\
      match monthDay config with
      | Some m => unit_ config = month /\ 1 <= m <= 31
      | None => True
      end
  | _ => True
  end.
Proof.
  split; [exact formInvariant_default|].
  apply (recurrence_built_by_the_dialog_is_well_formed
           defaultRecurrenceForm
           [presetChanged choose_custom; intervalChanged (Some 0);
            weekdayClicked 3; weekdayClicked 1]);
    [exact formInvariant_default | reflexivity].
Defined.

(** ** The matrix *)

Section MatrixFacts.
Import ES ESFacts.

Lemma Quadrant_eqb_eq (a b : Quadrant) : Quadrant_eqb a b = true <-> a = b.
Proof. destruct a, b; simpl; split; intros H; congruence. Qed.

Lemma Quadrant_eqb_neq (a b : Quadrant) : Quadrant_eqb a b = false <-> a <> b.
Proof. destruct a, b; simpl; split; intros H; congruence. Qed.

Lemma tasksOf_withQuadrant (prev : Tasks) (q : Quadrant) (items : list Task) :
  tasksOf (withQuadrant prev q items) q = items.
Proof. destruct q; reflexivity. Qed.

Lemma tasksOf_withQuadrant_other
    (prev : Tasks) (q q' : Quadrant) (items : list Task) :
  q' <> q -> tasksOf (withQuadrant prev q items) q' = tasksOf prev q'.
Proof. destruct q, q'; intros H; try reflexivity; congruence. Qed.

Lemma withQuadrant_same (prev : Tasks) (q : Quadrant) :
  withQuadrant prev q (tasksOf prev q) = prev.
Proof. destruct prev, q; reflexivity. Qed.

Lemma withQuadrant_twice (prev : Tasks) (q : Quadrant) (a b : list Task) :
  withQuadrant (withQuadrant prev q a) q b = withQuadrant prev q b.
Proof. destruct q; reflexivity. Qed.

(** The clock of a year that is printed with four digits is a valid
    date. *)
Lemma four_digit_year_valid (t : Z) :
  0 <= YearFromTime t <= 9999 -> TimeClip t = Some t.
Proof.
  intros Hy. apply TimeClip_in_range.
  destruct (YearFromDay_spec (Day t)) as [Hlo Hhi].
  fold (YearFromTime t) in Hlo, Hhi.
  pose proof (DayFromYear_grows 0 (YearFromTime t) ltac:(lia)) as H0.
  rewrite Z.add_0_l in H0.
  pose proof (DayFromYear_grows (YearFromTime t + 1)
                (10000 - (YearFromTime t + 1)) ltac:(lia)) as H1.
  replace (YearFromTime t + 1 + (10000 - (YearFromTime t + 1)))
    with 10000 in H1 by lia.
  assert (E0 : DayFromYear 0 = -719528) by reflexivity.
  assert (E1 : DayFromYear 10000 = 2932897) by reflexivity.
  pose proof (MakeDate_Day t) as Emk.
  pose proof (TimeWithinDay_range t) as Htw.
  remember (Day t) as d. remember (TimeWithinDay t) as tw.
  remember (DayFromYear (YearFromTime t)) as a.
  remember (DayFromYear (YearFromTime t + 1)) as b.
  unfold MakeDate, maxTime, msPerDay in *. lia.
Qed.

Lemma todayString_datePart (host : Host) :
  TimeClip (now host) = Some (now host) ->
  todayString host = Return (datePart (now host)).
Proof.
  intros H. unfold todayString, newDateNow. rewrite H. apply isoDate_datePart.
Qed.

(** Two printed dates of four-digit years are the same string exactly when
    they are the same day. *)
Lemma datePart_eqb (t t' : Z) :
  0 <= YearFromTime t <= 9999 -> 0 <= YearFromTime t' <= 9999 ->
  String.eqb (datePart t) (datePart t') = (Day t =? Day t').
Proof.
  intros Hy Hy'.
  destruct (Z.eqb_spec (Day t) (Day t')) as [E|Hne].
  - rewrite (datePart_Day t t' E). apply String.eqb_refl.
  - apply String.eqb_neq. intros E. apply Hne.
    pose proof (parseDateOnly_datePart t Hy) as P.
    pose proof (parseDateOnly_datePart t' Hy') as P'.
    rewrite E, P' in P.
    assert (E2 : Day t' * msPerDay = Day t * msPerDay) by congruence.
    unfold msPerDay in E2. lia.
Qed.

Lemma datePart_truthy (t : Z) :
  0 <= YearFromTime t <= 9999 -> truthyString (Some (datePart t)) = true.
Proof.
  intros Hy. pose proof (parseDateOnly_datePart t Hy) as P.
  destruct (datePart t); [discriminate P | reflexivity].
Qed.

Lemma find_some_id (taskId : Z) (l : list Task) (task : Task) :
  find (fun t => id t =? taskId) l = Some task ->
  In task l /\ id task = taskId.
Proof.
  intros H. apply find_some in H. destruct H as [Hin E].
  apply Z.eqb_eq in E. auto.
Qed.

(** [find] after a [map] that keeps the ids. *)
Lemma find_map_id (taskId : Z) (f : Task -> Task) (l : list Task) :
  (forall x, id (f x) = id x) ->
  find (fun t => id t =? taskId) (map f l)
  = option_map f (find (fun t => id t =? taskId) l).
Proof.
  intros Hf. induction l as [|x l IH]; [reflexivity|]. simpl.
  rewrite Hf. destruct (id x =? taskId); [reflexivity | exact IH].
Qed.

Lemma find_app_id (taskId : Z) (l l' : list Task) (task : Task) :
  find (fun t => id t =? taskId) l = Some task ->
  find (fun t => id t =? taskId) (l ++ l') = Some task.
Proof.
  induction l as [|x l IH]; [discriminate|]. simpl.
  destruct (id x =? taskId); [auto | exact IH].
Qed.

Lemma map_id_kept (f : Task -> Task) (l : list Task) :
  (forall x, id (f x) = id x) -> map id (map f l) = map id l.
Proof.
  intros Hf. rewrite map_map. apply map_ext. exact Hf.
Qed.

End MatrixFacts.

Section ToggleFacts.
Import ES ESFacts.

Lemma toggleComplete_absent (host : Host) (q : Quadrant) (taskId : Z) (prev : Tasks) :
  find (fun t => id t =? taskId) (tasksOf prev q) = None ->
  toggleComplete host q taskId prev = Return prev.
Proof. intros H. unfold toggleComplete. rewrite H. reflexivity. Qed.

Lemma toggleComplete_recurring
    (host : Host) (q : Quadrant) (taskId : Z) (prev : Tasks) (task : Task)
    (today nextDeadline : string) :
  find (fun t => id t =? taskId) (tasksOf prev q) = Some task ->
  completed task = false ->
  truthyRecurrence (recurrence task) = true ->
  todayString host = Return today ->
  calculateNextDeadline host (deadline task) (orNull (recurrence task))
  = Return nextDeadline ->
  toggleComplete host q taskId prev
  = Return (withQuadrant prev q
      (map (fun t => if id t =? taskId
                     then withCompletion t true (Some today) else t)
           (tasksOf prev q)
       ++ [{| id := now host; text := text task;
              description := description task;
              deadline := Some nextDeadline; completed := false;
              completedAt := None; recurrence := recurrence task;
              complexity := complexity task |}])).
Proof.
  intros Hf Hc Hr Ht Hn. unfold toggleComplete.
  rewrite Hf, Ht, Hc, Hr. cbn [bind negb andb]. rewrite Hn. reflexivity.
Qed.

Lemma toggleComplete_plain
    (host : Host) (q : Quadrant) (taskId : Z) (prev : Tasks) (task : Task)
    (today : string) :
  find (fun t => id t =? taskId) (tasksOf prev q) = Some task ->
  negb (completed task) && truthyRecurrence (recurrence task) = false ->
  todayString host = Return today ->
  toggleComplete host q taskId prev
  = Return (withQuadrant prev q
      (map (fun t => if id t =? taskId
                     then withCompletion t (negb (completed t))
                            (if negb (completed task) then Some today else None)
                     else t)
           (tasksOf prev q))).
Proof.
  intros Hf Hc Ht. unfold toggleComplete.
  rewrite Hf, Ht. cbn [bind]. rewrite Hc. reflexivity.
Qed.

Lemma withCompletion_undo (x : Task) (today : string) :
  completed x = false -> completedAt x = None ->
  withCompletion (withCompletion x true (Some today)) false None = x.
Proof.
  intros Hc Ha. destruct x. cbn in *. subst. reflexivity.
Qed.

(** Marking the tasks of an id and unmarking them again. *)
Lemma mark_then_unmark (taskId : Z) (today : string) (l : list Task) :
  (forall x, In x l -> id x = taskId ->
             completed x = false /\ completedAt x = None) ->
  map (fun t => if id t =? taskId
                then withCompletion t (negb (completed t)) None else t)
      (map (fun t => if id t =? taskId
                     then withCompletion t true (Some today) else t) l)
  = l.
Proof.
  intros H. rewrite map_map. rewrite <- (map_id l) at 2.
  apply map_ext_in. intros x Hx.
  destruct (Z.eqb_spec (id x) taskId) as [E|Hne].
  - cbn [id withCompletion]. rewrite E, Z.eqb_refl. cbn [completed negb].
    destruct (H x Hx E) as [Hc Ha]. apply withCompletion_undo; assumption.
  - destruct (Z.eqb_spec (id x) taskId); [contradiction | reflexivity].
Qed.

End ToggleFacts.

(** X12.  Completing a recurring task with a date-only deadline, in a zone
    without daylight saving time: the update succeeds, every task of that
    id in the quadrant is marked completed today, exactly one task is
    appended, open, with the text, description, recurrence and complexity
    of the completed one and the clock reading as its id, and its deadline
    is a date-only string of a strictly later day; the other quadrants are
    untouched. *)
Theorem completing_a_recurring_task_schedules_a_later_one
    (host : Host) (offset : Z) (quadrant : Quadrant) (taskId : Z)
    (prev : Tasks) (task : Task) (r : TaskRecurrence) (s : string) (t : Z) :
  (forall u isUTC, LocalTZA host u isUTC = offset) ->
  Z.abs offset <= ES.msPerDay ->
  ES.TimeClip (now host) = Some (now host) ->
  find (fun x => id x =? taskId) (tasksOf prev quadrant) = Some task ->
  completed task = false ->
  recurrence task = Some r ->
  r <> null ->
  validRecurrence r = true ->
  deadline task = Some s ->
  parseDateOnly s = Some t ->
  ES.YearFromTime t <= 9897 ->
  exists next s' k,
    toggleComplete host quadrant taskId prev = Return next /\
    1 <= k /\
    parseDateOnly s' = Some (t + k * ES.msPerDay) /\
    tasksOf next quadrant
    = (map (fun x => if id x =? taskId
                     then withCompletion x true (Some (datePart (now host)))
                     else x)
           (tasksOf prev quadrant)
       ++ [{| id := now host; text := text task;
              description := description task;
              deadline := Some s'; completed := false;
              completedAt := None; recurrence := Some r;
              complexity := complexity task |}])%list /\
    forall q, q <> quadrant -> tasksOf next q = tasksOf prev q.
Proof.
  intros Hfixed Hoffset Hnow Hfind Hopen Hr Hnn Hv Hd Hs Hy.
  destruct (next_deadline_dateOnly host offset s t r Hfixed Hoffset Hs Hy Hv Hnn)
    as (k & Hk & Ecalc & Eparse).
  remember (datePart (t + k * ES.msPerDay)) as s' eqn:Es'.
  assert (Htruthy : truthyRecurrence (recurrence task) = true)
    by (rewrite Hr; destruct r; [reflexivity | reflexivity | congruence]).
  pose proof (toggleComplete_recurring host quadrant taskId prev task
                (datePart (now host)) s' Hfind Hopen Htruthy
                (todayString_datePart host Hnow)) as E.
  rewrite Hd, Hr in E. cbn [orNull] in E. specialize (E Ecalc).
  eexists. exists s', k. split; [exact E|]. split; [lia|].
  split; [exact Eparse|]. split.
  - rewrite tasksOf_withQuadrant. reflexivity.
  - intros q Hq. apply tasksOf_withQuadrant_other. exact Hq.
Qed.

Lemma completing_a_recurring_task_schedules_a_later_one_witness :
  exists next s' k,
    toggleComplete hostEST urgent_important 1700000000000 rentTasks
    = Return next /\
    1 <= k /\
    parseDateOnly s' = Some (1706659200000 + k * ES.msPerDay) /\
    tasksOf next urgent_important
    = (map (fun x => if id x =? 1700000000000
                     then withCompletion x true (Some (datePart (now hostEST)))
                     else x)
           (tasksOf rentTasks urgent_important)
       ++ [{| id := now hostEST; text := text rentTask;
              description := description rentTask;
              deadline := Some s'; completed := false;
              completedAt := None; recurrence := Some (legacy monthly);
              complexity := complexity rentTask |}])%list /\
    forall q, q <> urgent_important -> tasksOf next q = tasksOf rentTasks q.
Proof.
  apply (completing_a_recurring_task_schedules_a_later_one hostEST (-18000000)
           urgent_important 1700000000000 rentTasks rentTask (legacy monthly)
           "2024-01-31" 1706659200000).
  - intros u isUTC. reflexivity.
  - vm_compute. discriminate.
  - reflexivity.
  - reflexivity.
  - reflexivity.
  - reflexivity.
  - discriminate.
  - reflexivity.
  - reflexivity.
  - reflexivity.
  - vm_compute. discriminate.
Defined.

(** X13.  Toggling a task twice.  When the tasks of that id in the quadrant
    are open and were never completed, and the clock of the first toggle
    is not that id, the second toggle (at any valid clock) gives back the
    tasks as they were, followed, if the task is recurring, by the next
    occurrence that the first toggle created: un-completing a recurring
    task does not take its successor away. *)
Theorem toggling_twice_restores_the_tasks
    (host host' : Host) (quadrant : Quadrant) (taskId : Z) (prev mid : Tasks) :
  ES.TimeClip (now host') = Some (now host') ->
  now host <> taskId ->
  (forall x, In x (tasksOf prev quadrant) -> id x = taskId ->
             completed x = false /\ completedAt x = None) ->
  toggleComplete host quadrant taskId prev = Return mid ->
  exists created,
    toggleComplete host' quadrant taskId mid
    = Return (withQuadrant prev quadrant (tasksOf prev quadrant ++ created)) /\
    match find (fun x => id x =? taskId) (tasksOf prev quadrant) with
    | Some task =>
        if truthyRecurrence (recurrence task) then
          exists nextDeadline,
            calculateNextDeadline host (deadline task) (orNull (recurrence task))
            = Return nextDeadline /\
            created = [{| id := now host; text := text task;
                          description := description task;
                          deadline := Some nextDeadline; completed := false;
                          completedAt := None; recurrence := recurrence task;
                          complexity := complexity task |}]
        else created = []
    | None => created = []
    end.
Proof.
  intros Hnow' Hfresh Hopen Hmid.
  destruct (find (fun x => id x =? taskId) (tasksOf prev quadrant))
    as [task|] eqn:Hfind.
  - destruct (find_some_id taskId _ task Hfind) as [Hin Eid].
    destruct (Hopen task Hin Eid) as [Hc Ha].
    unfold toggleComplete in Hmid. rewrite Hfind in Hmid.
    destruct (todayString host) as [today|e] eqn:Htoday; [|discriminate Hmid].
    cbn [bind] in Hmid. rewrite Hc in Hmid. cbn [negb andb] in Hmid.
    set (mark := fun t : Task => if id t =? taskId
                                 then withCompletion t true (Some today) else t).
    assert (Hmark_id : forall x, id (mark x) = id x)
      by (intros x; unfold mark; destruct (id x =? taskId); reflexivity).
    assert (Emark : mark task = withCompletion task true (Some today))
      by (unfold mark; rewrite Eid, Z.eqb_refl; reflexivity).
    destruct (truthyRecurrence (recurrence task)) eqn:Hrec.
    + destruct (calculateNextDeadline host (deadline task)
                  (orNull (recurrence task))) as [nd|e] eqn:Hnd;
        [|discriminate Hmid].
      cbn [bind] in Hmid. injection Hmid as <-.
      fold mark.
      set (succ := {| id := now host; text := text task;
                      description := description task;
                      deadline := Some nd; completed := false;
                      completedAt := None; recurrence := recurrence task;
                      complexity := complexity task |}).
      exists [succ]. split; [|exists nd; split; reflexivity].
      assert (Hfind2 : find (fun x => id x =? taskId)
                         (map mark (tasksOf prev quadrant) ++ [succ])
                       = Some (mark task)).
      { apply find_app_id. rewrite (find_map_id taskId mark _ Hmark_id), Hfind.
        reflexivity. }
      rewrite (toggleComplete_plain host' quadrant taskId _ (mark task)
                 (datePart (now host'))).
      * rewrite tasksOf_withQuadrant, withQuadrant_twice, Emark.
        cbn [completed withCompletion negb]. f_equal. f_equal.
        rewrite map_app. f_equal.
        -- apply mark_then_unmark. exact Hopen.
        -- cbn [map id succ]. destruct (Z.eqb_spec (now host) taskId);
             [contradiction | reflexivity].
      * rewrite tasksOf_withQuadrant. exact Hfind2.
      * rewrite Emark. reflexivity.
      * apply todayString_datePart. exact Hnow'.
    + injection Hmid as <-. exists []. split; [|reflexivity].
      rewrite app_nil_r, withQuadrant_same.
      assert (Eplain : map (fun t => if id t =? taskId
                                     then withCompletion t (negb (completed t))
                                            (Some today)
                                     else t) (tasksOf prev quadrant)
                       = map mark (tasksOf prev quadrant)).
      { apply map_ext_in. intros y Hy. unfold mark.
        destruct (Z.eqb_spec (id y) taskId) as [E|]; [|reflexivity].
        destruct (Hopen y Hy E) as [-> _]. reflexivity. }
      rewrite Eplain.
      assert (Hfind2 : find (fun x => id x =? taskId)
                         (map mark (tasksOf prev quadrant)) = Some (mark task))
        by (rewrite (find_map_id taskId mark _ Hmark_id), Hfind; reflexivity).
      rewrite (toggleComplete_plain host' quadrant taskId _ (mark task)
                 (datePart (now host'))).
      * rewrite tasksOf_withQuadrant, withQuadrant_twice, Emark.
        cbn [completed withCompletion negb]. unfold mark.
        rewrite mark_then_unmark by exact Hopen.
        rewrite withQuadrant_same. reflexivity.
      * rewrite tasksOf_withQuadrant. exact Hfind2.
      * rewrite Emark. reflexivity.
      * apply todayString_datePart. exact Hnow'.
  - rewrite (toggleComplete_absent host quadrant taskId prev Hfind) in Hmid.
    injection Hmid as <-. exists []. split; [|reflexivity].
    rewrite app_nil_r, withQuadrant_same.
    apply toggleComplete_absent. exact Hfind.
Qed.

Lemma toggling_twice_restores_the_tasks_witness :
  exists mid created,
    toggleComplete hostUTC urgent_important 1700000000000 rentTasks
    = Return mid /\
    toggleComplete hostNextDay urgent_important 1700000000000 mid
    = Return (withQuadrant rentTasks urgent_important
                (tasksOf rentTasks urgent_important ++ created)) /\
    List.length created = 1%nat.
Proof.
  match eval vm_compute in
    (toggleComplete hostUTC urgent_important 1700000000000 rentTasks) with
  | Return ?n => pose (toggled := n)
  end.
  assert (E : toggleComplete hostUTC urgent_important 1700000000000 rentTasks
              = Return toggled) by (vm_compute; reflexivity).
  destruct (toggling_twice_restores_the_tasks hostUTC hostNextDay
              urgent_important 1700000000000 rentTasks toggled)
    as (created & H & Hc); [| | |exact E|].
  - reflexivity.
  - vm_compute. discriminate.
  - intros x [<-|[]] _. split; reflexivity.
  - exists toggled, created. split; [exact E|]. split; [exact H|].
    cbn in Hc. destruct Hc as (nd & _ & ->). reflexivity.
Defined.

(** X14.  A task that has just been marked completed stays visible while
    the clock shows the same UTC day and is hidden on any other day
    (clocks in the years 0..9999). *)
Theorem completed_task_is_visible_on_its_utc_day
    (host host' : Host) (quadrant : Quadrant) (taskId : Z)
    (prev next : Tasks) (task x : Task) :
  0 <= ES.YearFromTime (now host) <= 9999 ->
  0 <= ES.YearFromTime (now host') <= 9999 ->
  find (fun t => id t =? taskId) (tasksOf prev quadrant) = Some task ->
  completed task = false ->
  toggleComplete host quadrant taskId prev = Return next ->
  In x (tasksOf next quadrant) ->
  id x = taskId ->
  completed x = true ->
  isTaskVisible host' x
  = Return (ES.Day (now host') =? ES.Day (now host)).
Proof.
  intros Hy Hy' Hfind Hopen Hnext Hin Hid Hdone.
  pose proof (todayString_datePart host (four_digit_year_valid _ Hy)) as Htoday.
  pose proof (todayString_datePart host' (four_digit_year_valid _ Hy')) as Htoday'.
  assert (Hat : completedAt x = Some (datePart (now host))).
  { unfold toggleComplete in Hnext. rewrite Hfind, Htoday in Hnext.
    cbn [bind] in Hnext. rewrite Hopen in Hnext. cbn [negb andb] in Hnext.
    destruct (truthyRecurrence (recurrence task)).
    - destruct (calculateNextDeadline host (deadline task)
                  (orNull (recurrence task))) as [nd|e]; [|discriminate Hnext].
      cbn [bind] in Hnext. injection Hnext as <-.
      rewrite tasksOf_withQuadrant in Hin. apply in_app_or in Hin.
      destruct Hin as [Hin|[<-|[]]]; [|discriminate Hdone].
      apply in_map_iff in Hin. destruct Hin as (y & <- & _).
      destruct (id y =? taskId) eqn:E; [reflexivity|].
      apply Z.eqb_neq in E. contradiction.
    - injection Hnext as <-.
      rewrite tasksOf_withQuadrant in Hin.
      apply in_map_iff in Hin. destruct Hin as (y & <- & _).
      destruct (id y =? taskId) eqn:E; [reflexivity|].
      apply Z.eqb_neq in E. contradiction. }
  unfold isTaskVisible. rewrite Hdone, Hat. cbn [negb].
  rewrite (datePart_truthy _ Hy). cbn [negb]. rewrite Htoday'. cbn [bind orEmpty].
  rewrite (datePart_eqb _ _ Hy Hy'). f_equal. apply Z.eqb_sym.
Qed.

Lemma completed_task_is_visible_on_its_utc_day_witness :
  exists next,
    toggleComplete hostUTC urgent_important 1700000000000 rentTasks
    = Return next /\
    isTaskVisible hostEST (withCompletion rentTask true (Some "2024-01-01"))
    = Return true /\
    isTaskVisible hostNextDay (withCompletion rentTask true (Some "2024-01-01"))
    = Return false.
Proof.
  match eval vm_compute in
    (toggleComplete hostUTC urgent_important 1700000000000 rentTasks) with
  | Return ?n => pose (toggled := n)
  end.
  assert (E : toggleComplete hostUTC urgent_important 1700000000000 rentTasks
              = Return toggled) by (vm_compute; reflexivity).
  exists toggled. split; [exact E|]. split.
  - rewrite (completed_task_is_visible_on_its_utc_day hostUTC hostEST
               urgent_important 1700000000000 rentTasks toggled rentTask
               (withCompletion rentTask true (Some "2024-01-01")));
      try reflexivity; try (vm_compute; split; discriminate).
    vm_compute. left. reflexivity.
  - rewrite (completed_task_is_visible_on_its_utc_day hostUTC hostNextDay
               urgent_important 1700000000000 rentTasks toggled rentTask
               (withCompletion rentTask true (Some "2024-01-01")));
      try reflexivity; try (vm_compute; split; discriminate).
    vm_compute. left. reflexivity.
Defined.

(** X15.  Toggling keeps the ids of a quadrant distinct, provided that the
    clock reading that becomes the id of a new occurrence is not the id of
    a task already there. *)
Theorem toggleComplete_keeps_ids_distinct
    (host : Host) (quadrant : Quadrant) (taskId : Z) (prev next : Tasks) :
  NoDup (map id (tasksOf prev quadrant)) ->
  ~ In (now host) (map id (tasksOf prev quadrant)) ->
  toggleComplete host quadrant taskId prev = Return next ->
  NoDup (map id (tasksOf next quadrant)).
Proof.
  intros Hnd Hfresh Hnext. unfold toggleComplete in Hnext.
  destruct (find (fun t => id t =? taskId) (tasksOf prev quadrant)) as [task|];
    [|injection Hnext as <-; exact Hnd].
  destruct (todayString host) as [today|e]; [|discriminate Hnext].
  cbn [bind] in Hnext.
  destruct (negb (completed task) && truthyRecurrence (recurrence task)).
  - destruct (calculateNextDeadline host (deadline task)
                (orNull (recurrence task))) as [nd|e]; [|discriminate Hnext].
    cbn [bind] in Hnext. injection Hnext as <-.
    rewrite tasksOf_withQuadrant, map_app, map_id_kept
      by (intros y; destruct (id y =? taskId); reflexivity).
    cbn [map id]. apply NoDup_app; [exact Hnd | |].
    + constructor; [intros [] | constructor].
    + intros y Hy [<-|[]]. exact (Hfresh Hy).
  - injection Hnext as <-.
    rewrite tasksOf_withQuadrant, map_id_kept
      by (intros y; destruct (id y =? taskId); reflexivity).
    exact Hnd.
Qed.

Lemma toggleComplete_keeps_ids_distinct_witness :
  exists next,
    toggleComplete hostUTC urgent_important 1700000000000 rentTasks
    = Return next /\
    NoDup (map id (tasksOf next urgent_important)).
Proof.
  match eval vm_compute in
    (toggleComplete hostUTC urgent_important 1700000000000 rentTasks) with
  | Return ?n => pose (toggled := n)
  end.
  assert (E : toggleComplete hostUTC urgent_important 1700000000000 rentTasks
              = Return toggled) by (vm_compute; reflexivity).
  exists toggled. split; [exact E|].
  apply (toggleComplete_keeps_ids_distinct hostUTC urgent_important
           1700000000000 rentTasks toggled); [| |exact E].
  - vm_compute. constructor; [intros [] | constructor].
  - vm_compute. intros [H|[]]. discriminate H.
Defined.

(** ** A [trim] for the examples *)

Section TrimBlanks.

Lemma trimEnd_cons (c : ascii) (s : string) :
  trimEnd (String c s)
  = match trimEnd s with
    | EmptyString => if Ascii.eqb c " " then EmptyString else String c EmptyString
    | r => String c r
    end.
Proof. reflexivity. Qed.

Lemma trimEnd_idempotent (s : string) : trimEnd (trimEnd s) = trimEnd s.
Proof.
  induction s as [|c s IH]; [reflexivity|]. rewrite trimEnd_cons.
  destruct (trimEnd s) as [|a r] eqn:E.
  - destruct (Ascii.eqb c " ") eqn:Ec; [reflexivity|].
    rewrite trimEnd_cons. cbn [trimEnd]. rewrite Ec. reflexivity.
  - rewrite trimEnd_cons, IH. reflexivity.
Qed.

Lemma trimStart_trimEnd (s : string) :
  trimStart s = s -> trimStart (trimEnd s) = trimEnd s.
Proof.
  destruct s as [|c s]; [reflexivity|]. cbn [trimStart trimEnd].
  destruct (Ascii.eqb c " ") eqn:Ec.
  - intros H. exfalso.
    assert (Hlen : forall u, (String.length (trimStart u) <= String.length u)%nat).
    { induction u as [|x u IHu]; [apply le_n|]. cbn [trimStart].
      destruct (Ascii.eqb x " "); cbn [String.length]; [|apply le_n].
      apply Nat.le_trans with (String.length u); [exact IHu | apply Nat.le_succ_diag_r]. }
    pose proof (Hlen s) as Hl. rewrite H in Hl. cbn [String.length] in Hl.
    exact (Nat.nle_succ_diag_l _ Hl).
  - intros _. fold (trimEnd s).
    destruct (trimEnd s); cbn [trimStart]; rewrite Ec; reflexivity.
Qed.

Lemma trimStart_idempotent (s : string) : trimStart (trimStart s) = trimStart s.
Proof.
  induction s as [|c s IH]; [reflexivity|]. cbn [trimStart].
  destruct (Ascii.eqb c " ") eqn:Ec; [exact IH|].
  cbn [trimStart]. rewrite Ec. reflexivity.
Qed.

Lemma trimBlanks_idempotent (s : string) :
  trimBlanks (trimBlanks s) = trimBlanks s.
Proof.
  unfold trimBlanks.
  rewrite (trimStart_trimEnd (trimStart s) (trimStart_idempotent s)).
  apply trimEnd_idempotent.
Qed.

End TrimBlanks.

(** ** The edit dialog *)

Section EditFacts.
Context (trim : string -> string).

Lemma saveTaskEdit_tasks (app : App) (editing : EditingTask) :
  editingTask app = Some editing ->
  String.eqb (trim (edit_text (editForm app))) "" = false ->
  exists newQuadrant updatedTask,
    newQuadrant
    = (if isUrgent (editForm app) && isImportant (editForm app)
       then urgent_important
       else if negb (isUrgent (editForm app)) && isImportant (editForm app)
       then not_urgent_important
       else if isUrgent (editForm app) && negb (isImportant (editForm app))
       then urgent_not_important
       else not_urgent_not_important) /\
    updatedTask
    = {| id := id (editing_task editing);
         text := trim (edit_text (editForm app));
         description := nonEmpty (trim (edit_description (editForm app)));
         deadline := nonEmpty (edit_deadline (editForm app));
         completed := completed (editing_task editing);
         completedAt := completedAt (editing_task editing);
         recurrence :=
           orUndefined (buildRecurrenceConfig (edit_recurrence (editForm app)));
         complexity := Some (edit_complexity (editForm app)) |} /\
    saveTaskEdit trim app
    = {| tasks :=
           if negb (Quadrant_eqb newQuadrant (editing_quadrant editing)) then
             withQuadrant
               (withQuadrant (tasks app) (editing_quadrant editing)
                  (filter (fun task =>
                             negb (id task =? id (editing_task editing)))
                          (tasksOf (tasks app) (editing_quadrant editing))))
               newQuadrant
               (tasksOf (tasks app) newQuadrant ++ [updatedTask])
           else
             withQuadrant (tasks app) (editing_quadrant editing)
               (map (fun task =>
                       if id task =? id (editing_task editing)
                       then updatedTask else task)
                    (tasksOf (tasks app) (editing_quadrant editing)));
         editingTask := None;
         editForm := emptyEditForm;
         error := error app |}.
Proof.
  intros He Ht. eexists. eexists. split; [reflexivity|]. split; [reflexivity|].
  unfold saveTaskEdit. rewrite He, Ht. reflexivity.
Qed.

(** The quadrant that the flags set by [openEditModal] select again. *)
Lemma quadrant_of_flags (q : Quadrant) :
  (if (Quadrant_eqb q urgent_important || Quadrant_eqb q urgent_not_important)
      && (Quadrant_eqb q urgent_important || Quadrant_eqb q not_urgent_important)
   then urgent_important
   else if negb (Quadrant_eqb q urgent_important
                 || Quadrant_eqb q urgent_not_important)
           && (Quadrant_eqb q urgent_important
               || Quadrant_eqb q not_urgent_important)
   then not_urgent_important
   else if (Quadrant_eqb q urgent_important
            || Quadrant_eqb q urgent_not_important)
           && negb (Quadrant_eqb q urgent_important
                    || Quadrant_eqb q not_urgent_important)
   then urgent_not_important
   else not_urgent_not_important) = q.
Proof. destruct q; reflexivity. Qed.

Lemma Quadrant_eqb_refl (q : Quadrant) : Quadrant_eqb q q = true.
Proof. destruct q; reflexivity. Qed.

End EditFacts.

(** X16.  Saving the dialog puts the task into the quadrant that the boxes
    "urgent" and "important" name, the boxes being read the way
    [openEditModal] sets them for a quadrant.  With the boxes of the
    quadrant the task is in, the task is replaced where it stands; with
    those of another quadrant, every task of its id leaves the old
    quadrant and the edited task becomes the last one of the new quadrant.
    The edited task keeps its id and its completion marks, the other
    quadrants are untouched, and the dialog is closed. *)
Theorem saving_puts_the_task_in_the_quadrant_of_the_boxes
    (trim : string -> string) (task : Task) (quadrant target : Quadrant)
    (app : App) (form : EditForm) :
  isUrgent form = isUrgent (editForm (openEditModal task target app)) ->
  isImportant form = isImportant (editForm (openEditModal task target app)) ->
  trim (edit_text form) <> "" ->
  let saved :=
    saveTaskEdit trim
      {| tasks := tasks app;
         editingTask :=
           Some {| editing_task := task; editing_quadrant := quadrant |};
         editForm := form;
         error := error app |} in
  exists updated,
    id updated = id task /\
    completed updated = completed task /\
    completedAt updated = completedAt task /\
    text updated = trim (edit_text form) /\
    editingTask saved = None /\
    (forall q, q <> quadrant -> q <> target ->
               tasksOf (tasks saved) q = tasksOf (tasks app) q) /\
    if Quadrant_eqb target quadrant then
      tasksOf (tasks saved) quadrant
      = map (fun y => if id y =? id task then updated else y)
            (tasksOf (tasks app) quadrant)
    else
      tasksOf (tasks saved) quadrant
      = filter (fun y => negb (id y =? id task)) (tasksOf (tasks app) quadrant) /\
      tasksOf (tasks saved) target
      = (tasksOf (tasks app) target ++ [updated])%list.
Proof.
  intros Hu Hi Ht saved.
  assert (Ht' : String.eqb (trim (edit_text form)) "" = false)
    by (apply String.eqb_neq; exact Ht).
  destruct (saveTaskEdit_tasks trim
              {| tasks := tasks app;
                 editingTask :=
                   Some {| editing_task := task; editing_quadrant := quadrant |};
                 editForm := form; error := error app |}
              {| editing_task := task; editing_quadrant := quadrant |}
              eq_refl Ht') as (nq & updated & Enq & Eup & E).
  cbn [editForm tasks editingTask error editing_task editing_quadrant] in *.
  cbn [openEditModal editForm isUrgent isImportant] in Hu, Hi.
  rewrite Hu, Hi, quadrant_of_flags in Enq. subst nq.
  subst saved. rewrite E. cbn [editingTask tasks].
  exists updated.
  split; [rewrite Eup; reflexivity|]. split; [rewrite Eup; reflexivity|].
  split; [rewrite Eup; reflexivity|]. split; [rewrite Eup; reflexivity|].
  split; [reflexivity|].
  destruct (Quadrant_eqb target quadrant) eqn:Eq; cbn [negb].
  - apply Quadrant_eqb_eq in Eq. subst target. split.
    + intros q Hq _. apply tasksOf_withQuadrant_other. exact Hq.
    + apply tasksOf_withQuadrant.
  - apply Quadrant_eqb_neq in Eq. split; [|split].
    + intros q Hq Hq'. rewrite !tasksOf_withQuadrant_other by assumption.
      reflexivity.
    + rewrite tasksOf_withQuadrant_other by congruence.
      apply tasksOf_withQuadrant.
    + apply tasksOf_withQuadrant.
Qed.

Lemma saving_puts_the_task_in_the_quadrant_of_the_boxes_witness :
  exists updated,
    text updated = "Call the bank" /\
    tasksOf
      (tasks
         (saveTaskEdit trimBlanks
            {| tasks := tasks noteApp;
               editingTask :=
                 Some {| editing_task := noteTask;
                         editing_quadrant := not_urgent_important |};
               editForm :=
                 {| edit_text := " Call the bank "; edit_description := "";
                    edit_deadline := ""; isUrgent := true; isImportant := true;
                    edit_recurrence := defaultRecurrenceForm;
                    edit_complexity := hard |};
               error := error noteApp |}))
      urgent_important
    = [rentTask; updated].
Proof.
  destruct (saving_puts_the_task_in_the_quadrant_of_the_boxes trimBlanks
              noteTask not_urgent_important urgent_important noteApp
              {| edit_text := " Call the bank "; edit_description := "";
                 edit_deadline := ""; isUrgent := true; isImportant := true;
                 edit_recurrence := defaultRecurrenceForm;
                 edit_complexity := hard |})
    as (updated & _ & _ & _ & Htext & _ & _ & Hcase).
  - reflexivity.
  - reflexivity.
  - vm_compute. discriminate.
  - exists updated. split; [rewrite Htext; reflexivity|].
    cbn [Quadrant_eqb] in Hcase. destruct Hcase as [_ Hnew]. exact Hnew.
Defined.

(** X17.  Opening a task that the dialog has written and saving it
    unchanged leaves the matrix exactly as it was ([trim] being
    idempotent, and the task being the only one of its id in its
    quadrant). *)
Theorem saving_an_unchanged_dialog_changes_nothing
    (trim : string -> string) (task : Task) (quadrant : Quadrant) (app : App) :
  (forall s, trim (trim s) = trim s) ->
  writtenByDialog trim task ->
  (forall y, In y (tasksOf (tasks app) quadrant) -> id y = id task -> y = task) ->
  tasks (saveTaskEdit trim (openEditModal task quadrant app)) = tasks app.
Proof.
  intros Htrim (form & Hname & Etext & Edesc & Edead & Erec & Ecomp) Hunique.
  assert (Hblank : String.eqb (trim (text task)) "" = false)
    by (apply String.eqb_neq; rewrite Etext, Htrim; exact Hname).
  destruct (saveTaskEdit_tasks trim (openEditModal task quadrant app)
              {| editing_task := task; editing_quadrant := quadrant |}
              eq_refl Hblank) as (nq & updated & Enq & Eup & E).
  cbn [openEditModal editForm tasks editingTask error editing_task
       editing_quadrant isUrgent isImportant edit_text edit_description
       edit_deadline edit_recurrence edit_complexity] in *.
  rewrite quadrant_of_flags in Enq. subst nq.
  rewrite Quadrant_eqb_refl in E. cbn [negb] in E.
  rewrite E. cbn [tasks].
  assert (Eupdated : updated = task).
  { rewrite Eup. destruct task as [i tx ds dl c ca r cx].
    cbn [id text description deadline completed completedAt recurrence
         complexity] in *.
    subst tx ds dl r cx. f_equal.
    - apply Htrim.
    - destruct (trim (edit_description form)) as [|a s] eqn:Ed; cbn.
      + rewrite <- Ed, Htrim, Ed. reflexivity.
      + rewrite <- Ed, Htrim, Ed. reflexivity.
    - destruct (edit_deadline form); reflexivity.
    - assert (En : orNull (orUndefined
                     (buildRecurrenceConfig (edit_recurrence form)))
                   = buildRecurrenceConfig (edit_recurrence form))
        by (destruct (buildRecurrenceConfig (edit_recurrence form)); reflexivity).
      rewrite En, buildRecurrenceConfig_fixed_point. reflexivity. }
  rewrite Eupdated.
  transitivity (withQuadrant (tasks app) quadrant (tasksOf (tasks app) quadrant));
    [|apply withQuadrant_same].
  f_equal.
  transitivity (map (fun y : Task => y) (tasksOf (tasks app) quadrant));
    [|apply map_id].
  apply map_ext_in. intros y Hy.
  destruct (Z.eqb_spec (id y) (id task)) as [Ey|]; [|reflexivity].
  symmetry. apply Hunique; assumption.
Qed.

Lemma saving_an_unchanged_dialog_changes_nothing_witness :
  tasks (saveTaskEdit trimBlanks
           (openEditModal noteTask not_urgent_important noteApp))
  = tasks noteApp.
Proof.
  apply (saving_an_unchanged_dialog_changes_nothing trimBlanks noteTask
           not_urgent_important noteApp).
  - exact trimBlanks_idempotent.
  - exists {| edit_text := " Call the bank "; edit_description := " ";
              edit_deadline := ""; isUrgent := false; isImportant := false;
              edit_recurrence := parseRecurrenceToFormState (weeklyOn 1 [1; 3]);
              edit_complexity := medium |}.
    split; [vm_compute; discriminate|]. repeat split; reflexivity.
  - intros y [<-|[]] _. reflexivity.
Defined.

(** ** The order of display *)

Section SortFacts.
Context {A : Type} (compare : A -> A -> Z).
Context (compare_flip : forall a b, 0 < compare a b -> compare b a <= 0).
Context (compare_trans :
  forall a b c, compare a b <= 0 -> compare b c <= 0 -> compare a c <= 0).

Lemma insertBy_Permutation (x : A) (l : list A) :
  Permutation (x :: l) (insertBy compare x l).
Proof.
  induction l as [|y l IH]; simpl; [apply Permutation_refl|].
  destruct (compare x y <=? 0); [apply Permutation_refl|].
  apply perm_trans with (y :: x :: l); [apply perm_swap|].
  apply perm_skip. exact IH.
Qed.

Lemma sortBy_Permutation (l : list A) : Permutation l (sortBy compare l).
Proof.
  induction l as [|x l IH]; simpl; [apply perm_nil|].
  apply perm_trans with (x :: sortBy compare l);
    [apply perm_skip; exact IH | apply insertBy_Permutation].
Qed.

Lemma insertBy_In (x y : A) (l : list A) :
  In y (insertBy compare x l) -> y = x \/ In y l.
Proof.
  intros H.
  apply (Permutation_in y (Permutation_sym (insertBy_Permutation x l))) in H.
  destruct H as [<-|H]; auto.
Qed.

Lemma insertBy_InOrder (x : A) (l : list A) :
  InOrder compare l -> InOrder compare (insertBy compare x l).
Proof.
  induction 1 as [|y l Hy Hl IH]; simpl.
  - constructor; [intros ? []|constructor].
  - destruct (Z.leb_spec (compare x y) 0) as [Hle|Hgt].
    + constructor; [|constructor; assumption].
      intros z [<-|Hz]; [exact Hle|].
      apply compare_trans with y; [exact Hle | apply Hy; exact Hz].
    + constructor; [|exact IH].
      intros z Hz. apply insertBy_In in Hz. destruct Hz as [->|Hz].
      * apply compare_flip. exact Hgt.
      * apply Hy. exact Hz.
Qed.

Lemma sortBy_InOrder (l : list A) : InOrder compare (sortBy compare l).
Proof.
  induction l as [|x l IH]; simpl; [constructor|].
  apply insertBy_InOrder. exact IH.
Qed.

(** In an ordered list, an element compares at most equal to every later
    one. *)
Lemma InOrder_split (l1 l2 : list A) (a b : A) :
  InOrder compare (l1 ++ a :: l2) -> In b l2 -> compare a b <= 0.
Proof.
  induction l1 as [|x l1 IH]; simpl; intros H Hb.
  - inversion H as [|? ? Ha _]. apply Ha. exact Hb.
  - inversion H. apply IH; assumption.
Qed.

(** The sort is stable: elements that compare equal to [x] on either
    side keep their order.  An element inserted goes before the first one
    that is not lower. *)
Lemma insertBy_filter (p : A -> bool) (x : A) (l : list A) :
  InOrder compare l ->
  (forall y, In y l -> p y = true -> p x = true -> compare x y <= 0) ->
  filter p (insertBy compare x l) = filter p (x :: l).
Proof.
  induction 1 as [|y l Hy Hl IH]; intros Hp; [reflexivity|].
  cbn [insertBy]. destruct (compare x y <=? 0) eqn:E; [reflexivity|].
  cbn [filter]. rewrite IH by (intros z Hz; apply Hp; right; exact Hz).
  cbn [filter]. destruct (p x) eqn:Ex, (p y) eqn:Ey; try reflexivity.
  apply Z.leb_gt in E.
  specialize (Hp y (or_introl eq_refl) Ey eq_refl). lia.
Qed.

Lemma sortBy_filter (p : A -> bool) (l : list A) :
  (forall a b, p a = true -> p b = true -> compare a b <= 0) ->
  filter p (sortBy compare l) = filter p l.
Proof.
  intros Hp. induction l as [|x l IH]; [reflexivity|].
  cbn [sortBy fold_right]. fold (sortBy compare l).
  rewrite insertBy_filter; [|apply sortBy_InOrder|].
  - cbn [filter]. rewrite IH. reflexivity.
  - intros y _ Hy Hx. apply Hp; assumption.
Qed.

End SortFacts.

Section DisplayOrder.

Lemma compareTasks_value (a b : Task) :
  compareTasks a b
  = if Number (completed a) - Number (completed b) =? 0
    then COMPLEXITY_ORDER (orMedium (complexity a))
         - COMPLEXITY_ORDER (orMedium (complexity b))
    else Number (completed a) - Number (completed b).
Proof.
  unfold compareTasks. cbv zeta.
  destruct (Number (completed a) - Number (completed b) =? 0); reflexivity.
Qed.

Lemma COMPLEXITY_ORDER_range (c : Complexity) : 1 <= COMPLEXITY_ORDER c <= 3.
Proof. destruct c; cbn; lia. Qed.

Lemma compareTasks_flip (a b : Task) :
  0 < compareTasks a b -> compareTasks b a <= 0.
Proof.
  rewrite !compareTasks_value.
  destruct (completed a), (completed b); cbn [Number Z.sub Z.eqb Z.add Z.opp
    Z.pos_sub]; lia.
Qed.

Lemma compareTasks_trans (a b c : Task) :
  compareTasks a b <= 0 -> compareTasks b c <= 0 -> compareTasks a c <= 0.
Proof.
  rewrite !compareTasks_value.
  destruct (completed a), (completed b), (completed c);
    cbn [Number Z.sub Z.eqb Z.add Z.opp Z.pos_sub]; lia.
Qed.

Lemma displayOrder_InOrder (visible : list Task) :
  InOrder compareTasks (displayOrder visible).
Proof.
  apply sortBy_InOrder; [apply compareTasks_flip | apply compareTasks_trans].
Qed.

End DisplayOrder.

(** X18.  A quadrant is displayed with the same tasks, each as often as it
    is among the visible ones.  Tasks that compare equal (the same
    completion mark and the same complexity, none counting as medium) keep
    the order that they have in the matrix.  No task compares greater than
    a later one: an open task never comes after a completed one, and among
    the open tasks, and among the completed ones, an easier task never
    comes after a harder one. *)
Theorem display_order_is_sorted_and_stable (visible : list Task) :
  Permutation visible (displayOrder visible) /\
  (forall x,
     filter (fun t => compareTasks t x =? 0) (displayOrder visible)
     = filter (fun t => compareTasks t x =? 0) visible) /\
  (forall l1 l2 l3 a b,
     displayOrder visible = (l1 ++ a :: l2 ++ b :: l3)%list ->
     (completed a = true -> completed b = true) /\
     (completed a = completed b ->
      COMPLEXITY_ORDER (orMedium (complexity a))
      <= COMPLEXITY_ORDER (orMedium (complexity b)))).
Proof.
  split; [apply sortBy_Permutation|]. split.
  - intros x. apply sortBy_filter; [apply compareTasks_flip | apply compareTasks_trans|].
    intros a b Ha Hb. apply Z.eqb_eq in Ha, Hb.
    rewrite compareTasks_value in *.
    pose proof (COMPLEXITY_ORDER_range (orMedium (complexity a))).
    pose proof (COMPLEXITY_ORDER_range (orMedium (complexity b))).
    pose proof (COMPLEXITY_ORDER_range (orMedium (complexity x))).
    destruct (completed a), (completed b), (completed x);
      cbn [Number Z.sub Z.eqb Z.add Z.opp Z.pos_sub] in *; lia.
  - intros l1 l2 l3 a b E.
    pose proof (displayOrder_InOrder visible) as H. rewrite E in H.
    assert (Hab : compareTasks a b <= 0).
    { apply (InOrder_split compareTasks l1 (l2 ++ b :: l3) a b H).
      apply in_or_app. right. left. reflexivity. }
    rewrite compareTasks_value in Hab. split.
    + intros Ha. rewrite Ha in Hab.
      destruct (completed b); [reflexivity|]. cbn in Hab. lia.
    + intros Hc. rewrite Hc, Z.sub_diag in Hab. cbn in Hab. lia.
Qed.

(** ** Regrouping after the categorisation *)

Section RegroupFacts.

Lemma findByText_Some (allTasks : list Task) (categorized : JsVal) (o : Task) :
  findByText allTasks categorized = Return (Some o) ->
  In o allTasks /\ get categorized "text" = Return (JString (text o)).
Proof.
  induction allTasks as [|t rest IH]; [discriminate|].
  cbn [findByText]. destruct (get categorized "text") as [v|e] eqn:Ev;
    [|discriminate].
  cbn [bind].
  assert (Hrest : findByText rest categorized = Return (Some o) ->
                  In o (t :: rest) /\ Return v = Return (JString (text o))).
  { intros H. destruct (IH H) as [Hin E]. split; [right; exact Hin | exact E]. }
  destruct v as [| |b|n|s|elems|props]; try exact Hrest.
  destruct (String.eqb (text t) s) eqn:Es; [|exact Hrest].
  intros H. injection H as <-. apply String.eqb_eq in Es. subst s.
  split; [left; reflexivity | reflexivity].
Qed.

Lemma in_allTasksOf (tasks : Tasks) (o : Task) :
  In o (allTasksOf tasks) <-> exists q, In o (tasksOf tasks q).
Proof.
  unfold allTasksOf. rewrite in_flat_map. split.
  - intros (q & _ & H). exists q. exact H.
  - intros (q & H). exists q. split; [destruct q; simpl; tauto | exact H].
Qed.

(** What one entry of the response adds to the new matrix. *)
Lemma pushCategorized_In
    (allTasks : list Task) (newTasks newTasks' : Tasks) (categorized : JsVal) :
  pushCategorized allTasks newTasks categorized = Return newTasks' ->
  forall q t, In t (tasksOf newTasks' q) ->
    In t (tasksOf newTasks q) \/
    exists o c key,
      In o allTasks /\
      get categorized "text" = Return (JString (text o)) /\
      get categorized "quadrant" = Return key /\
      quadrantOfKey key = Some q /\
      t = {| id := id o; text := text o; description := description o;
             deadline := deadline o; completed := completed o;
             completedAt := completedAt o; recurrence := recurrence o;
             complexity := Some c |}.
Proof.
  unfold pushCategorized.
  destruct (findByText allTasks categorized) as [[o|]|e] eqn:Ef;
    [| |discriminate]; cbn [bind].
  - destruct (findByText_Some _ _ _ Ef) as [Hin Etext].
    destruct (get categorized "complexity") as [c|e]; [|discriminate].
    cbn [bind].
    destruct (get categorized "quadrant") as [key|e]; [|discriminate].
    cbn [bind].
    destruct (quadrantOfKey key) as [q0|] eqn:Ek; [|discriminate].
    intros H q t Ht. injection H as <-.
    destruct (Quadrant_eqb q q0) eqn:Eq.
    + apply Quadrant_eqb_eq in Eq. subst q0.
      rewrite tasksOf_withQuadrant in Ht. apply in_app_or in Ht.
      destruct Ht as [Ht|[<-|[]]]; [left; exact Ht|].
      right. exists o, (validComplexity c), key. auto.
    + apply Quadrant_eqb_neq in Eq.
      rewrite tasksOf_withQuadrant_other in Ht by exact Eq. left. exact Ht.
  - intros H q t Ht. injection H as <-. left. exact Ht.
Qed.

Lemma forEachCategorized_In
    (allTasks : list Task) (categorizedTasks : list JsVal)
    (newTasks newTasks' : Tasks) :
  forEachCategorized allTasks categorizedTasks newTasks = Return newTasks' ->
  forall q t, In t (tasksOf newTasks' q) ->
    In t (tasksOf newTasks q) \/
    exists categorized o c key,
      In categorized categorizedTasks /\
      In o allTasks /\
      get categorized "text" = Return (JString (text o)) /\
      get categorized "quadrant" = Return key /\
      quadrantOfKey key = Some q /\
      t = {| id := id o; text := text o; description := description o;
             deadline := deadline o; completed := completed o;
             completedAt := completedAt o; recurrence := recurrence o;
             complexity := Some c |}.
Proof.
  revert newTasks. induction categorizedTasks as [|categorized rest IH];
    intros newTasks H q t Ht.
  - injection H as <-. left. exact Ht.
  - cbn [forEachCategorized] in H.
    destruct (pushCategorized allTasks newTasks categorized) as [mid|e] eqn:Ep;
      [|discriminate].
    cbn [bind] in H.
    destruct (IH mid H q t Ht) as [Hmid|(cat & o & c & key & Hc & Hrest)].
    + destruct (pushCategorized_In _ _ _ _ Ep q t Hmid)
        as [Hold|(o & c & key & Hrest)]; [left; exact Hold|].
      right. exists categorized, o, c, key. split; [left; reflexivity | exact Hrest].
    + right. exists cat, o, c, key. split; [right; exact Hc | exact Hrest].
Qed.

End RegroupFacts.

(** X19.  After the automatic sort, every task of the matrix is a task
    that was there before, with its id, text, description, deadline,
    completion marks and recurrence; only the complexity and the quadrant
    can have changed.  When the response was taken over, each task left
    is one whose text an entry of the response gives, in the quadrant that
    this entry names: a task that the response does not name is dropped,
    and nothing is invented. *)
Theorem auto_sort_keeps_named_tasks_only
    (tasks : Tasks) (response : JsVal) (q : Quadrant) (t : Task) :
  In t (tasksOf (autoSorted tasks response) q) ->
  (exists o c,
     In o (allTasksOf tasks) /\
     t = {| id := id o; text := text o; description := description o;
            deadline := deadline o; completed := completed o;
            completedAt := completedAt o; recurrence := recurrence o;
            complexity := c |}) /\
  (autoSorted tasks response = tasks \/
   exists categorizedTasks categorized key,
     response = JArray categorizedTasks /\
     In categorized categorizedTasks /\
     get categorized "text" = Return (JString (text t)) /\
     get categorized "quadrant" = Return key /\
     quadrantOfKey key = Some q).
Proof.
  intros Ht.
  assert (Hsame : autoSorted tasks response = tasks ->
    (exists o c,
       In o (allTasksOf tasks) /\
       t = {| id := id o; text := text o; description := description o;
              deadline := deadline o; completed := completed o;
              completedAt := completedAt o; recurrence := recurrence o;
              complexity := c |}) /\
    (autoSorted tasks response = tasks \/
     exists categorizedTasks categorized key,
       response = JArray categorizedTasks /\
       In categorized categorizedTasks /\
       get categorized "text" = Return (JString (text t)) /\
       get categorized "quadrant" = Return key /\
       quadrantOfKey key = Some q)).
  { intros E. split; [|left; exact E]. rewrite E in Ht.
    exists t, (complexity t). split; [apply in_allTasksOf; exists q; exact Ht|].
    destruct t; reflexivity. }
  unfold autoSorted in *.
  destruct (Z.of_nat (List.length (allTasksOf tasks)) =? 0);
    [apply Hsame; reflexivity|].
  destruct (regroup (allTasksOf tasks) response) as [newTasks|e] eqn:Er;
    [|apply Hsame; reflexivity].
  clear Hsame. unfold regroup in Er.
  destruct response as [| |b|n|s|elems|props]; try discriminate Er.
  destruct (forEachCategorized_In _ _ _ _ Er q t Ht)
    as [Hempty|(cat & o & c & key & Hc & Ho & Etext & Ekey & Eq & Et)].
  - destruct q; destruct Hempty.
  - split.
    + exists o, (Some c). split; [exact Ho | exact Et].
    + right. exists elems, cat, key. split; [reflexivity|].
      split; [exact Hc|]. split; [rewrite Et; exact Etext|].
      split; [exact Ekey | exact Eq].
Qed.

Lemma auto_sort_keeps_named_tasks_only_witness :
  (exists o c,
     In o (allTasksOf rentTasks) /\
     {| id := 1700000000000; text := "Pay rent"; description := None;
        deadline := Some "2024-01-31"; completed := false;
        completedAt := None; recurrence := Some (legacy monthly);
        complexity := Some hard |}
     = {| id := id o; text := text o; description := description o;
          deadline := deadline o; completed := completed o;
          completedAt := completedAt o; recurrence := recurrence o;
          complexity := c |}) /\
  (autoSorted rentTasks rentResponse = rentTasks \/
   exists categorizedTasks categorized key,
     rentResponse = JArray categorizedTasks /\
     In categorized categorizedTasks /\
     get categorized "text" = Return (JString "Pay rent") /\
     get categorized "quadrant" = Return key /\
     quadrantOfKey key = Some not_urgent_important).
Proof.
  apply (auto_sort_keeps_named_tasks_only rentTasks rentResponse
           not_urgent_important
           {| id := 1700000000000; text := "Pay rent"; description := None;
              deadline := Some "2024-01-31"; completed := false;
              completedAt := None; recurrence := Some (legacy monthly);
              complexity := Some hard |}).
  vm_compute. left. reflexivity.
Defined.

Section RegroupKeeps.

Lemma findByText_found (allTasks : list Task) (categorized : JsVal) (o : Task) :
  In o allTasks ->
  get categorized "text" = Return (JString (text o)) ->
  exists o', findByText allTasks categorized = Return (Some o') /\
             text o' = text o.
Proof.
  intros Hin Etext. induction allTasks as [|t rest IH]; [destruct Hin|].
  cbn [findByText]. rewrite Etext. cbn [bind].
  destruct (String.eqb (text t) (text o)) eqn:Es.
  - exists t. split; [reflexivity | apply String.eqb_eq; exact Es].
  - destruct Hin as [->|Hin]; [rewrite String.eqb_refl in Es; discriminate|].
    apply IH. exact Hin.
Qed.

Lemma pushCategorized_grows
    (allTasks : list Task) (newTasks newTasks' : Tasks) (categorized : JsVal) :
  pushCategorized allTasks newTasks categorized = Return newTasks' ->
  forall q t, In t (tasksOf newTasks q) -> In t (tasksOf newTasks' q).
Proof.
  unfold pushCategorized.
  destruct (findByText allTasks categorized) as [[o|]|e]; [| |discriminate];
    cbn [bind].
  - destruct (get categorized "complexity") as [c|e]; [|discriminate].
    cbn [bind].
    destruct (get categorized "quadrant") as [key|e]; [|discriminate].
    cbn [bind].
    destruct (quadrantOfKey key) as [q0|]; [|discriminate].
    intros H q t Ht. injection H as <-.
    destruct (Quadrant_eqb q q0) eqn:Eq.
    + apply Quadrant_eqb_eq in Eq. subst q0. rewrite tasksOf_withQuadrant.
      apply in_or_app. left. exact Ht.
    + apply Quadrant_eqb_neq in Eq.
      rewrite tasksOf_withQuadrant_other by exact Eq. exact Ht.
  - intros H q t Ht. injection H as <-. exact Ht.
Qed.

Lemma forEachCategorized_grows
    (allTasks : list Task) (categorizedTasks : list JsVal)
    (newTasks newTasks' : Tasks) :
  forEachCategorized allTasks categorizedTasks newTasks = Return newTasks' ->
  forall q t, In t (tasksOf newTasks q) -> In t (tasksOf newTasks' q).
Proof.
  revert newTasks. induction categorizedTasks as [|categorized rest IH];
    intros newTasks H q t Ht.
  - injection H as <-. exact Ht.
  - cbn [forEachCategorized] in H.
    destruct (pushCategorized allTasks newTasks categorized) as [mid|e] eqn:Ep;
      [|discriminate].
    cbn [bind] in H. apply (IH mid H).
    apply (pushCategorized_grows _ _ _ _ Ep). exact Ht.
Qed.

Lemma pushCategorized_adds
    (allTasks : list Task) (newTasks newTasks' : Tasks) (categorized : JsVal)
    (o : Task) :
  In o allTasks ->
  get categorized "text" = Return (JString (text o)) ->
  pushCategorized allTasks newTasks categorized = Return newTasks' ->
  exists q t, In t (tasksOf newTasks' q) /\ text t = text o.
Proof.
  intros Hin Etext. unfold pushCategorized.
  destruct (findByText_found allTasks categorized o Hin Etext) as (o' & -> & Eo).
  cbn [bind].
  destruct (get categorized "complexity") as [c|e]; [|discriminate].
  cbn [bind].
  destruct (get categorized "quadrant") as [key|e]; [|discriminate].
  cbn [bind].
  destruct (quadrantOfKey key) as [q0|]; [|discriminate].
  intros H. injection H as <-. eexists q0, _. split.
  - rewrite tasksOf_withQuadrant. apply in_or_app. right. left. reflexivity.
  - exact Eo.
Qed.

Lemma forEachCategorized_adds
    (allTasks : list Task) (categorizedTasks : list JsVal)
    (newTasks newTasks' : Tasks) (categorized : JsVal) (o : Task) :
  In o allTasks ->
  In categorized categorizedTasks ->
  get categorized "text" = Return (JString (text o)) ->
  forEachCategorized allTasks categorizedTasks newTasks = Return newTasks' ->
  exists q t, In t (tasksOf newTasks' q) /\ text t = text o.
Proof.
  intros Hin Hc Etext. revert newTasks.
  induction categorizedTasks as [|c rest IH]; [destruct Hc|].
  intros newTasks H. cbn [forEachCategorized] in H.
  destruct (pushCategorized allTasks newTasks c) as [mid|e] eqn:Ep; [|discriminate].
  cbn [bind] in H. destruct Hc as [->|Hc].
  - destruct (pushCategorized_adds _ _ _ _ o Hin Etext Ep) as (q & t & Ht & Et).
    exists q, t. split; [|exact Et].
    apply (forEachCategorized_grows _ _ _ _ H). exact Ht.
  - apply (IH Hc mid H).
Qed.

End RegroupKeeps.

(** X20.  When the response of the automatic sort is taken over, a task
    whose text an entry of the response gives is still in the matrix (a
    task of that text, in some quadrant). *)
Theorem auto_sort_keeps_every_named_task
    (tasks newTasks : Tasks) (categorizedTasks : list JsVal)
    (categorized : JsVal) (o : Task) :
  regroup (allTasksOf tasks) (JArray categorizedTasks) = Return newTasks ->
  In o (allTasksOf tasks) ->
  In categorized categorizedTasks ->
  get categorized "text" = Return (JString (text o)) ->
  autoSorted tasks (JArray categorizedTasks) = newTasks /\
  exists q t, In t (tasksOf newTasks q) /\ text t = text o.
Proof.
  intros Er Ho Hc Etext. split.
  - unfold autoSorted. rewrite Er.
    destruct (allTasksOf tasks) as [|x l]; [destruct Ho | reflexivity].
  - unfold regroup in Er.
    apply (forEachCategorized_adds _ _ _ _ categorized o Ho Hc Etext Er).
Qed.

Lemma auto_sort_keeps_every_named_task_witness :
  exists newTasks,
    autoSorted rentTasks rentResponse = newTasks /\
    exists q t, In t (tasksOf newTasks q) /\ text t = text rentTask.
Proof.
  match eval vm_compute in (regroup (allTasksOf rentTasks) rentResponse) with
  | Return ?n => exists n
  end.
  apply (auto_sort_keeps_every_named_task rentTasks _
           [JObject [("text", JString "Pay rent");
                     ("quadrant", JString "not-urgent-important");
                     ("complexity", JString "hard")]]
           (JObject [("text", JString "Pay rent");
                     ("quadrant", JString "not-urgent-important");
                     ("complexity", JString "hard")])
           rentTask).
  - vm_compute. reflexivity.
  - vm_compute. left. reflexivity.
  - left. reflexivity.
  - reflexivity.
Defined.

(** ** The dates of the prompt *)

Section PromptLater.
Import ES ESFacts.

Lemma promptLater_fixed (host : Host) (k : Z) :
  0 <= now host <= safeTime -> 0 <= k <= 7 ->
  isoDate (newDateValue (nadd (getTime (newDateNow host)) (Some (k * 86400000))))
  = Return (datePart (MakeDate (Day (now host) + k) 0)).
Proof.
  intros Hnow Hk. unfold newDateNow.
  rewrite TimeClip_in_range by (unfold maxTime, safeTime in *; lia).
  cbn [getTime nadd newDateValue].
  rewrite TimeClip_in_range by (unfold maxTime, safeTime in *; lia).
  rewrite isoDate_datePart. f_equal. apply datePart_Day.
  change 86400000 with msPerDay. rewrite Day_plus_days.
  symmetry. apply Day_MakeDate. unfold msPerDay. lia.
Qed.

End PromptLater.

Section PromptFacts.
Import ES ESFacts.
Context (host : Host) (offset : Z).
Context (Hfixed : forall t isUTC, LocalTZA host t isUTC = offset).
Context (Hoffset : Z.abs offset < msPerDay).

Lemma promptNextMonth_fixed :
  0 <= now host <= safeTime ->
  promptNextMonth host
  = Return (datePart (MakeDate
      (MakeDay (YearFromTime (LocalTime host (now host)))
               (MonthFromTime (LocalTime host (now host)) + 1)
               (DateFromTime (LocalTime host (now host)))
       - (if 0 <? offset then 1 else 0)) 0)).
Proof.
  intros Hnow. unfold promptNextMonth, newDateNow.
  rewrite TimeClip_in_range by (unfold maxTime, safeTime in *; lia).
  cbn [getFullYear getMonth getDate option_map nadd].
  set (lt := LocalTime host (now host)).
  assert (Elt : lt = now host + offset)
    by (subst lt; unfold LocalTime; rewrite Hfixed; reflexivity).
  pose proof (MonthFromTime_range lt) as Hm.
  pose proof (DateFromTime_range lt) as Hd.
  assert (Hy : ~ (0 <= YearFromTime lt <= 99)).
  { intros [_ Hy].
    destruct (YearFromDay_spec (Day lt)) as [_ Hup].
    fold (YearFromTime lt) in Hup.
    pose proof (DayFromYear_grows (YearFromTime lt + 1)
                  (1969 - (YearFromTime lt + 1)) ltac:(lia)) as Hg.
    replace (YearFromTime lt + 1 + (1969 - (YearFromTime lt + 1)))
      with 1969 in Hg by lia.
    change (DayFromYear 1969) with (-365) in Hg.
    assert (-1 <= Day lt)
      by (unfold Day, msPerDay in *; Z.div_mod_to_equations; lia).
    lia. }
  pose proof (MakeDay_near lt 0 (MonthFromTime lt + 1) (DateFromTime lt)) as Hnear.
  rewrite Z.add_0_r in Hnear.
  assert (Hdiv : 0 <= (MonthFromTime lt + 1) / 12 <= 1)
    by (Z.div_mod_to_equations; lia).
  pose proof (MakeDate_Day lt) as Emk.
  pose proof (TimeWithinDay_range lt) as Htw.
  remember (MakeDay (YearFromTime lt) (MonthFromTime lt + 1) (DateFromTime lt))
    as D eqn:ED.
  rewrite (newDateYMD_fixed host offset Hfixed); [|exact Hy|].
  - rewrite <- ED, isoDate_datePart. f_equal. apply datePart_Day.
    rewrite Day_MakeDate by (unfold msPerDay; lia).
    unfold Day. destruct (Z.ltb_spec 0 offset);
      unfold msPerDay in *; Z.div_mod_to_equations; lia.
  - rewrite <- ED.
    remember (Day lt) as d0. remember (TimeWithinDay lt) as tw.
    unfold MakeDate, maxTime, safeTime, msPerDay in *. lia.
Qed.

End PromptFacts.

(** X21.  The dates that the prompt of [addTask] gives to the model, in a
    zone without daylight saving time and with a clock since 1970:
    "today" is the UTC date of the clock, "tomorrow" and "next week" are
    the UTC dates 1 and 7 days later, and "next month" is the local day of
    the month in the local month after the current one, printed in UTC:
    that very date at or west of Greenwich, the day before it east of
    Greenwich. *)
Theorem prompt_dates_in_a_fixed_zone (host : Host) (offset : Z) :
  (forall t isUTC, LocalTZA host t isUTC = offset) ->
  Z.abs offset < ES.msPerDay ->
  0 <= now host <= safeTime ->
  promptToday host = Return (datePart (now host)) /\
  promptTomorrow host
  = Return (datePart (ES.MakeDate (ES.Day (now host) + 1) 0)) /\
  promptNextWeek host
  = Return (datePart (ES.MakeDate (ES.Day (now host) + 7) 0)) /\
  promptNextMonth host
  = Return (datePart (ES.MakeDate
      (ES.MakeDay (ES.YearFromTime (LocalTime host (now host)))
                  (ES.MonthFromTime (LocalTime host (now host)) + 1)
                  (ES.DateFromTime (LocalTime host (now host)))
       - (if 0 <? offset then 1 else 0)) 0)).
Proof.
  intros Hfixed Hoffset Hnow. split; [|split; [|split]].
  - unfold promptToday, newDateNow.
    rewrite ESFacts.TimeClip_in_range
      by (unfold ES.maxTime, safeTime in *; lia).
    apply isoDate_datePart.
  - exact (promptLater_fixed host 1 Hnow ltac:(lia)).
  - exact (promptLater_fixed host 7 Hnow ltac:(lia)).
  - apply (promptNextMonth_fixed host offset Hfixed Hoffset Hnow).
Qed.

Lemma prompt_dates_in_a_fixed_zone_witness :
  promptToday (hostWith (fixedZone 3600000)) = Return "2024-01-01" /\
  promptTomorrow (hostWith (fixedZone 3600000)) = Return "2024-01-02" /\
  promptNextWeek (hostWith (fixedZone 3600000)) = Return "2024-01-08" /\
  promptNextMonth (hostWith (fixedZone 3600000)) = Return "2024-01-31".
Proof.
  destruct (prompt_dates_in_a_fixed_zone (hostWith (fixedZone 3600000)) 3600000)
    as (H1 & H2 & H3 & H4).
  - intros t isUTC. reflexivity.
  - vm_compute. reflexivity.
  - vm_compute. split; discriminate.
  - rewrite H1, H2, H3, H4. vm_compute. repeat split; reflexivity.
Defined.

(** ** Eligibility for notifications *)

Section EligibilityFacts.

Lemma occurrences_cons (e x : EligibilityEvent) (events : list EligibilityEvent) :
  occurrences e (x :: events)
  = (if sameEvent e x then 1 else 0) + occurrences e events.
Proof.
  unfold occurrences. cbn [filter]. destruct (sameEvent e x); cbn [List.length]; lia.
Qed.

Lemma recorded_counts (events : list EligibilityEvent) (data : EligibilityData) :
  sessions (fold_left record events data)
  = sessions data + occurrences mounted events /\
  taskCount (fold_left record events data)
  = taskCount data + occurrences taskAdded events /\
  completedCount (fold_left record events data)
  = completedCount data + occurrences taskCompleted events.
Proof.
  revert data. induction events as [|x events IH]; intros data.
  - unfold occurrences. cbn. lia.
  - cbn [fold_left]. destruct (IH (record data x)) as (Es & Et & Ec).
    rewrite Es, Et, Ec, !occurrences_cons.
    destruct x;
      cbn [record sessionStarted recordTaskAdded recordTaskCompleted
           sessions taskCount completedCount sameEvent]; lia.
Qed.

End EligibilityFacts.

(** X22.  The counters of the eligibility hook count the sessions, the
    tasks added and the tasks completed; the user is eligible as soon as
    3 tasks were added, 1 was completed or 2 sessions were started, and
    stays eligible whatever happens afterwards. *)
Theorem eligibility_counts_and_never_lapses
    (events : list EligibilityEvent) (data : EligibilityData) :
  isEligible (fold_left record events data)
  = (3 <=? taskCount data + occurrences taskAdded events)
    || (1 <=? completedCount data + occurrences taskCompleted events)
    || (2 <=? sessions data + occurrences mounted events) /\
  (isEligible data = true -> isEligible (fold_left record events data) = true).
Proof.
  destruct (recorded_counts events data) as (Es & Et & Ec).
  unfold isEligible. rewrite Es, Et, Ec. split; [reflexivity|].
  assert (0 <= occurrences mounted events) by (unfold occurrences; lia).
  assert (0 <= occurrences taskAdded events) by (unfold occurrences; lia).
  assert (0 <= occurrences taskCompleted events) by (unfold occurrences; lia).
  rewrite !orb_true_iff, !Z.leb_le. lia.
Qed.

(** X23.  Dismissing the recap of yesterday hides it for the rest of the
    UTC day: stored at one clock and read at another (clocks in the years
    0..9999), the recap counts as dismissed exactly when both clocks show
    the same UTC day. *)
Theorem recap_dismissal_lasts_for_the_utc_day
    (host host' : Host) (dismissed : Dismissed) :
  0 <= ES.YearFromTime (now host) <= 9999 ->
  0 <= ES.YearFromTime (now host') <= 9999 ->
  exists stored,
    dismissForToday host dismissed = Return stored /\
    wasDismissedToday host' stored
    = Return (ES.Day (now host') =? ES.Day (now host)).
Proof.
  intros Hy Hy'.
  pose proof (todayString_datePart host (four_digit_year_valid _ Hy)) as Htoday.
  pose proof (todayString_datePart host' (four_digit_year_valid _ Hy')) as Htoday'.
  unfold todayString in *.
  exists (Some (datePart (now host))). split.
  - unfold dismissForToday, getTodayDateString. rewrite Htoday. reflexivity.
  - unfold wasDismissedToday, getTodayDateString. rewrite Htoday'. cbn [bind].
    rewrite (datePart_eqb _ _ Hy Hy'). f_equal. apply Z.eqb_sym.
Qed.

Lemma recap_dismissal_lasts_for_the_utc_day_witness :
  exists stored,
    dismissForToday hostUTC None = Return stored /\
    wasDismissedToday hostNextDay stored = Return false.
Proof.
  destruct (recap_dismissal_lasts_for_the_utc_day hostUTC hostNextDay None)
    as (stored & H1 & H2).
  - vm_compute. split; discriminate.
  - vm_compute. split; discriminate.
  - exists stored. split; [exact H1|]. rewrite H2. reflexivity.
Defined.

(** X24.  Where local time is UTC, the weekly rule with selected weekdays
    works on a date-only deadline as it is meant to: the next deadline is
    the date [k] days later, [k] being the number of days that the rule
    gives for the weekday of the deadline (at least one), and that date
    falls on one of the selected weekdays. *)
Theorem weekly_days_in_utc_land_on_a_selected_weekday
    (host : Host) (s : string) (t n : Z) (days : list Z) (md : option Z) :
  (forall u isUTC, LocalTZA host u isUTC = 0) ->
  parseDateOnly s = Some t ->
  1 <= n <= 99 ->
  days <> [] ->
  forallb (fun d => (0 <=? d) && (d <=? 6)) days = true ->
  exists k,
    weekdayRuleDays (ES.WeekDay t) n days = Some k /\
    1 <= k /\
    In (ES.WeekDay (t + k * ES.msPerDay)) days /\
    calculateNextDeadline host (Some s)
      (flexible {| interval := n; unit_ := week; weekDays := Some days;
                   monthDay := md |})
    = Return (datePart (t + k * ES.msPerDay)).
Proof.
  intros Hutc Hs Hn Hne Hdays.
  destruct (findNextWeekdayOccurrence_utc host Hutc t n days
              (parseDateOnly_range s t Hs) Hn Hne Hdays)
    as (k & Hrule & Hk & Hin & E).
  exists k. split; [exact Hrule|]. split; [exact Hk|]. split; [exact Hin|].
  unfold calculateNextDeadline. rewrite (baseDateOf_dateOnly host s t Hs).
  unfold calculateFlexibleNextDeadline. cbn [unit_ weekDays interval].
  destruct days as [|d days]; [congruence|].
  rewrite E. apply isoDate_datePart.
Qed.

Lemma weekly_days_in_utc_land_on_a_selected_weekday_witness :
  calculateNextDeadline hostUTC (Some "2024-01-03") (weeklyOn 1 [1; 3])
  = Return "2024-01-08".
Proof.
  destruct (weekly_days_in_utc_land_on_a_selected_weekday hostUTC "2024-01-03"
              1704240000000 1 [1; 3] None) as (k & Hrule & _ & _ & E).
  - intros u isUTC. reflexivity.
  - reflexivity.
  - lia.
  - discriminate.
  - reflexivity.
  - unfold weeklyOn. rewrite E.
    vm_compute in Hrule. injection Hrule as <-. vm_compute. reflexivity.
Defined.

